(** * WaveformImageGenerator: a shallow embedding of [Source/Main.cpp]

    The program decodes a window of an audio file, reduces every pixel
    column to the minimum and maximum sample that falls into it and
    draws one vertical line per column and channel.

    Numbers are modelled as the source has them: [double] is IEEE 754
    binary64 and [float] is binary32, both through the executable
    specification [SpecFloat] of the standard library (round to nearest,
    ties to even), every operation rounded to the type of its operands
    as on x86-64; [int] and [int64] are [Z] with the conversions written
    out. *)

From Stdlib Require Import ZArith List Bool String Ascii Lia QArith Qround.
From Stdlib Require Import Floats.SpecFloat.
Import ListNotations.
Open Scope string_scope.
Open Scope list_scope.
Open Scope Z_scope.

(* ------------------------------------------------------------------ *)
(** ** Machine arithmetic *)

(** C++ [double]. *)
Module Double.
Definition prec : Z := 53.
Definition emax : Z := 1024.
Definition add : spec_float -> spec_float -> spec_float := SFadd prec emax.
Definition sub : spec_float -> spec_float -> spec_float := SFsub prec emax.
Definition mul : spec_float -> spec_float -> spec_float := SFmul prec emax.
Definition div : spec_float -> spec_float -> spec_float := SFdiv prec emax.
(** Conversion of an integer ([int] or [int64]), correctly rounded. *)
Definition of_int (n : Z) : spec_float := binary_normalize prec emax n 0 false.
End Double.

(** C++ [float]. *)
Module Single.
Definition prec : Z := 24.
Definition emax : Z := 128.
Definition add : spec_float -> spec_float -> spec_float := SFadd prec emax.
Definition sub : spec_float -> spec_float -> spec_float := SFsub prec emax.
Definition mul : spec_float -> spec_float -> spec_float := SFmul prec emax.
Definition div : spec_float -> spec_float -> spec_float := SFdiv prec emax.
Definition of_int (n : Z) : spec_float := binary_normalize prec emax n 0 false.
(** The literals [1.0f], [-1.0f], [2.0f] and [0.5f]. *)
Definition one : spec_float := of_int 1.
Definition minus_one : spec_float := of_int (-1).
Definition two : spec_float := of_int 2.
Definition half : spec_float := binary_normalize prec emax 1 (-1) false.
End Single.

Abbreviation double := spec_float (only parsing).
Abbreviation float := spec_float (only parsing).

Definition is_nan (x : spec_float) : bool :=
  match x with S754_nan => true | _ => false end.

(** The integer part of a floating-point number (rounding toward zero);
    nothing for infinities and NaN. *)
Definition truncate (x : spec_float) : option Z :=
  match x with
  | S754_zero _ => Some 0
  | S754_finite s m e => Some (cond_Zopp s (Z.shiftl (Zpos m) e))
  | S754_infinity _ | S754_nan => None
  end.

(** [static_cast<T>(x)] from a floating-point [x] to a signed integer type
    of [bits] bits.  C++ leaves the conversion undefined when the integer
    part does not fit; the model returns what the x86-64 conversion
    instruction produces there, the most negative integer. *)
Definition static_cast_signed (bits : Z) (x : spec_float) : Z :=
  match truncate x with
  | Some z =>
      if (- 2 ^ (bits - 1) <=? z) && (z <? 2 ^ (bits - 1)) then z
      else - 2 ^ (bits - 1)
  | None => - 2 ^ (bits - 1)
  end.

Definition static_cast_int : double -> Z := static_cast_signed 32.
Definition static_cast_int64 : double -> Z := static_cast_signed 64.

(** [(int) n] for an [int64] [n]: the low 32 bits, two's complement. *)
Definition int64_to_int (n : Z) : Z := (n + 2 ^ 31) mod 2 ^ 32 - 2 ^ 31.

(** The exact rational value of a finite floating-point number. *)
Definition SF2Q (x : spec_float) : Q :=
  match x with
  | S754_finite s m (Zneg k) => Qmake (cond_Zopp s (Zpos m)) (2 ^ k)%positive
  | S754_finite s m e => inject_Z (cond_Zopp s (Zpos m * 2 ^ e))
  | _ => 0%Q
  end.

(* ------------------------------------------------------------------ *)
(** ** The JUCE helpers the program calls *)

(** C++ [operator<] on the types the templates below are used at. *)
Class Less (T : Type) := less : T -> T -> bool.
#[export] Instance Less_int : Less Z := Z.ltb.
#[export] Instance Less_float : Less spec_float := SFltb.

Module Juce.

Section Templates.
Context {T : Type} `{Less T}.

(** Modelled from the spec: JUCE's [jmin] is not under src/; the spec
    calls it [min].  JUCE defines it as [b < a ? b : a]. *)
Definition jmin (a b : T) : T := if less b a then b else a.

(** Modelled from the spec: JUCE's [jlimit] is not under src/; the spec
    calls it [clamp].  JUCE defines it as
    [v < lower ? lower : (upper < v ? upper : v)], after an assertion
    [lower <= upper] that only debug builds evaluate. *)
Definition jlimit (lowerLimit upperLimit valueToConstrain : T) : T :=
  if less valueToConstrain lowerLimit then lowerLimit
  else if less upperLimit valueToConstrain then upperLimit
  else valueToConstrain.

(** The assertion at the head of [jlimit]: the bounds are in order. *)
Definition jlimit_precondition (lowerLimit upperLimit : T) : bool :=
  negb (less upperLimit lowerLimit).

End Templates.

End Juce.

(* ------------------------------------------------------------------ *)
(** ** Time window resolution ([wmain], lines 119-124) *)

Module Resolver.

Definition zero : double := S754_zero false.

Record TimeWindow := { actualStart : double; actualEnd : double }.

(** Lines 120-122. *)
Definition resolveTimes (startTime endTime duration : double) : TimeWindow :=
  let actualEnd :=
    if SFleb endTime zero
    then (if SFltb endTime zero then Double.add duration endTime else duration)
    else endTime in
  let actualEnd := Juce.jmin duration actualEnd in
  let actualStart := Juce.jlimit zero actualEnd startTime in
  {| actualStart := actualStart; actualEnd := actualEnd |}.

Record SampleWindow := { startSample : Z; numSamples : Z }.

(** Lines 119-124: [lengthInSamples] and [sampleRate] come from the
    audio reader. *)
Definition resolveSamples (startTime endTime : double)
    (lengthInSamples : Z) (sampleRate : double) : SampleWindow :=
  let duration := Double.div (Double.of_int lengthInSamples) sampleRate in
  let w := resolveTimes startTime endTime duration in
  {| startSample :=
       static_cast_int64 (Double.mul (actualStart w) sampleRate);
     numSamples :=
       static_cast_int64
         (Double.mul (Double.sub (actualEnd w) (actualStart w)) sampleRate) |}.

(** The resolver in the words of the specification. *)
Module Spec.

Definition absoluteEnd (requestedEnd totalDuration : double) : double :=
  if SFeqb requestedEnd zero then totalDuration
  else if SFltb requestedEnd zero then Double.add totalDuration requestedEnd
  else requestedEnd.

Definition min (a b : double) : double := if SFltb b a then b else a.

Definition clamp (x lo hi : double) : double :=
  if SFltb x lo then lo else if SFltb hi x then hi else x.

Definition resolve (requestedStart requestedEnd totalDuration : double)
    : double * double :=
  let e := min totalDuration (absoluteEnd requestedEnd totalDuration) in
  (clamp requestedStart zero e, e).

End Spec.

End Resolver.

(* ------------------------------------------------------------------ *)
(** ** Outcomes

    Reading [samples[j]] outside the buffer has no defined result; the
    model stops there and reports the index. *)

Inductive outcome (A : Type) : Type :=
| Ok (a : A)
| OutOfBounds (index : Z).
Arguments Ok {A} a.
Arguments OutOfBounds {A} index.

Definition bind {A B : Type} (m : outcome A) (k : A -> outcome B) : outcome B :=
  match m with
  | Ok a => k a
  | OutOfBounds j => OutOfBounds j
  end.

Notation "x <- m ;; k" := (bind m (fun x => k))
  (at level 61, m at next level, right associativity).
Notation "' p <- m ;; k" := (bind m (fun x => match x with p => k end))
  (at level 61, p pattern, m at next level, right associativity).

(* ------------------------------------------------------------------ *)
(** ** The rasterizer ([wmain], lines 133-164) *)

Module Rasterizer.

(** One call [g.drawLine (x1, y1, x2, y2)]. *)
Record Line := { x1 : float; y1 : float; x2 : float; y2 : float }.

(** [AudioBuffer<float>], channel after channel. *)
Definition AudioBuffer : Type := list (list float).

(** Line 151: [samples[j]]. *)
Definition readSample (samples : list float) (j : Z) : outcome float :=
  if j <? 0 then OutOfBounds j
  else match nth_error samples (Z.to_nat j) with
       | Some s => Ok s
       | None => OutOfBounds j
       end.

(** Lines 144-147: the samples of pixel column [i]. *)
Definition columnRange (width numSamples i : Z) : Z * Z :=
  let sampleStart :=
    static_cast_int
      (Double.mul (Double.div (Double.of_int i) (Double.of_int width))
                  (Double.of_int numSamples)) in
  let sampleEnd :=
    static_cast_int
      (Double.mul (Double.div (Double.of_int (i + 1)) (Double.of_int width))
                  (Double.of_int numSamples)) in
  (Juce.jlimit 0 (int64_to_int numSamples - 1) sampleStart,
   Juce.jlimit 0 (int64_to_int numSamples) sampleEnd).

(** Lines 150-154: [count] iterations of the scan, from sample [j]. *)
Fixpoint scan (samples : list float) (count : nat) (j : Z)
    (minVal maxVal : float) : outcome (float * float) :=
  match count with
  | O => Ok (minVal, maxVal)
  | S count' =>
      s <- readSample samples j ;;
      let minVal := if SFltb s minVal then s else minVal in
      let maxVal := if SFltb maxVal s then s else maxVal in
      scan samples count' (j + 1) minVal maxVal
  end.

(** Lines 149-154. *)
Definition envelope (samples : list float) (sampleStart sampleEnd : Z)
    : outcome (float * float) :=
  scan samples (Z.to_nat (sampleEnd - sampleStart)) sampleStart
       Single.one Single.minus_one.

(** Lines 156-162: the line drawn for an envelope. *)
Definition envelopeLine (channelHeight midY : float) (i : Z)
    (minVal maxVal : float) : Line :=
  let y1 := Single.sub midY (Single.mul minVal (Single.div channelHeight Single.two)) in
  let y2 := Single.sub midY (Single.mul maxVal (Single.div channelHeight Single.two)) in
  {| x1 := Single.add (Single.of_int i) Single.half; y1 := y1;
     x2 := Single.add (Single.of_int i) Single.half; y2 := y2 |}.

(** Lines 144-162: the body of the column loop. *)
Definition column (samples : list float) (width numSamples : Z)
    (channelHeight midY : float) (i : Z) : outcome Line :=
  let '(sampleStart, sampleEnd) := columnRange width numSamples i in
  '(minVal, maxVal) <- envelope samples sampleStart sampleEnd ;;
  Ok (envelopeLine channelHeight midY i minVal maxVal).

(** Lines 143-163: [count] iterations of the column loop from column [i];
    [g] holds the lines drawn so far. *)
Fixpoint columns (samples : list float) (width numSamples : Z)
    (channelHeight midY : float) (count : nat) (i : Z) (g : list Line)
    : outcome (list Line) :=
  match count with
  | O => Ok g
  | S count' =>
      l <- column samples width numSamples channelHeight midY i ;;
      columns samples width numSamples channelHeight midY count' (i + 1)
              (g ++ [l])
  end.

(** Lines 134, 140, 141. *)
Definition channelHeightOf (height numChannels : Z) : float :=
  Single.div (Single.of_int height) (Single.of_int numChannels).
Definition topOf (channelHeight : float) (ch : Z) : float :=
  Single.mul (Single.of_int ch) channelHeight.
Definition midYOf (channelHeight : float) (ch : Z) : float :=
  Single.add (topOf channelHeight ch) (Single.div channelHeight Single.two).

(** Lines 137-164: the channel loop over the channels still to draw. *)
Fixpoint channels (rest : list (list float)) (width numSamples : Z)
    (channelHeight : float) (ch : Z) (g : list Line) : outcome (list Line) :=
  match rest with
  | [] => Ok g
  | samples :: rest' =>
      g' <- columns samples width numSamples channelHeight
                    (midYOf channelHeight ch) (Z.to_nat width) 0 g ;;
      channels rest' width numSamples channelHeight (ch + 1) g'
  end.

(** Lines 133-164. *)
Definition rasterize (width height numSamples : Z) (buffer : AudioBuffer)
    : outcome (list Line) :=
  let numChannels := Z.of_nat (List.length buffer) in
  let channelHeight := channelHeightOf height numChannels in
  channels buffer width numSamples channelHeight 0 [].

End Rasterizer.

(* ------------------------------------------------------------------ *)
(** ** Colours and strings *)

Record Colour := { red : Z; green : Z; blue : Z; alpha : Z }.

Module Colours.
(** Modelled from the spec: the JUCE colour constants are not under src/;
    [black] is opaque, [transparentBlack] has every component 0. *)
Definition black : Colour := {| red := 0; green := 0; blue := 0; alpha := 255 |}.
Definition transparentBlack : Colour := {| red := 0; green := 0; blue := 0; alpha := 0 |}.
Definition white : Colour := {| red := 255; green := 255; blue := 255; alpha := 255 |}.
End Colours.

(** [Colour::fromRGBA]: every argument is converted to [uint8]. *)
Definition fromRGBA (r g b a : Z) : Colour :=
  {| red := r mod 256; green := g mod 256; blue := b mod 256; alpha := a mod 256 |}.

Module JuceString.

Definition code (c : ascii) : Z := Z.of_nat (nat_of_ascii c).

(** Modelled from the spec: JUCE's [CharacterFunctions::getHexDigitValue]
    is not under src/: the value of a hexadecimal digit of either case,
    -1 for any other character. *)
Definition getHexDigitValue (c : ascii) : Z :=
  let d := code c in
  if (48 <=? d) && (d <=? 57) then d - 48
  else if (97 <=? d) && (d <=? 102) then d - 97 + 10
  else if (65 <=? d) && (d <=? 70) then d - 65 + 10
  else -1.

(** The loop of JUCE's [HexConverter<int>::parse] with [result] so far. *)
Fixpoint hexParse (s : string) (result : Z) : Z :=
  match s with
  | EmptyString => result
  | String c rest =>
      let hexValue := getHexDigitValue c in
      if 0 <=? hexValue
      then hexParse rest (int64_to_int (Z.lor (Z.shiftl result 4) hexValue))
      else hexParse rest result
  end.

(** Modelled from the spec: JUCE's [String::getHexValue32] is not under
    src/: it accumulates the hexadecimal digits of the string into an
    [int] and steps over every other character. *)
Definition getHexValue32 (s : string) : Z := hexParse s 0.

(** [String::substring (start, end)]. *)
Definition substring (s : string) (startIndex endIndex : nat) : string :=
  String.substring startIndex (endIndex - startIndex) s.

Definition isWhitespace (c : ascii) : bool :=
  let d := code c in (d =? 32) || ((9 <=? d) && (d <=? 13)).

Fixpoint trimStart (s : string) : string :=
  match s with
  | EmptyString => EmptyString
  | String c rest => if isWhitespace c then trimStart rest else s
  end.

Fixpoint trimEnd (s : string) : string :=
  match s with
  | EmptyString => EmptyString
  | String c rest =>
      match trimEnd rest with
      | EmptyString => if isWhitespace c then EmptyString else String c EmptyString
      | rest' => String c rest'
      end
  end.

(** Modelled from the spec: JUCE's [String::trim] is not under src/: the
    string without the whitespace at its two ends. *)
Definition trim (s : string) : string := trimEnd (trimStart s).

Fixpoint decimalParse (s : string) (v : Z) : Z :=
  match s with
  | EmptyString => v
  | String c rest =>
      let d := code c in
      if (48 <=? d) && (d <=? 57)
      then decimalParse rest ((v * 10 + (d - 48)) mod 2 ^ 32)
      else v
  end.

(** Modelled from the spec: JUCE's [String::getIntValue] is not under
    src/: leading whitespace, an optional minus sign, then decimal digits
    up to the first other character, accumulated in 32 bits. *)
Definition getIntValue (s : string) : Z :=
  match trimStart s with
  | String "-"%char rest => int64_to_int (- decimalParse rest 0)
  | t => int64_to_int (decimalParse t 0)
  end.

End JuceString.

(** * [Source/Main.cpp] *)

Definition maxImageDimension : Z := 16384.

(** Lines 29-38. *)
Definition parseHexColor (hex : string) : Colour :=
  if negb (Nat.eqb (String.length hex) 8) then Colours.black
  else fromRGBA
         (JuceString.getHexValue32 (JuceString.substring hex 0 2))
         (JuceString.getHexValue32 (JuceString.substring hex 2 4))
         (JuceString.getHexValue32 (JuceString.substring hex 4 6))
         (JuceString.getHexValue32 (JuceString.substring hex 6 8)).

(* ------------------------------------------------------------------ *)
(** ** The command line ([wmain], lines 44-90) *)

(** What the program writes to the console. *)
Inductive Message :=
| Help            (* printHelp () *)
| SizeTooLarge    (* "Image size too large. Max: 16384" *)
| Parameters      (* the "=== Parameters ===" block *)
| InputMissing    (* "Input file does not exist: ..." *)
| ReadFailed      (* "Failed to read input audio file." *)
| SaveFailed      (* "Failed to save image." *)
| Saved.          (* "Waveform image saved to: ..." *)

(** The local variables of lines 50-54. *)
Record Options := {
  inputFile : string;
  outputFile : string;
  startTime : double;
  endTime : double;
  width : Z;
  height : Z;
  bgColor : Colour;
  fgColor : Colour
}.

Definition defaults : Options :=
  {| inputFile := ""; outputFile := "";
     startTime := S754_zero false; endTime := S754_zero false;
     width := 1920; height := 300;
     bgColor := Colours.transparentBlack; fgColor := Colours.white |}.

(** How a stage of [wmain] ends: it returns an exit code, or it goes on. *)
Inductive stage (A : Type) : Type :=
| Return (exitCode : Z) (printed : list Message)
| Continue (a : A).
Arguments Return {A} exitCode printed.
Arguments Continue {A} a.

Section CommandLine.

(** JUCE's [String::getDoubleValue], which is not under src/. *)
Variable getDoubleValue : string -> double.

(** Lines 56-78: the loop over [argv[i]], [argv[i+1]], ...; [args] holds
    the arguments not yet consumed. *)
Fixpoint parseArguments (args : list string) (o : Options) : stage Options :=
  match args with
  | [] => Continue o
  | arg :: rest =>
      let key := JuceString.trim arg in
      if String.eqb key "--help" then Return 0 [Help]
      else
        match rest with
        | value :: rest' =>
            if String.eqb key "-i" then
              parseArguments rest'
                {| inputFile := value; outputFile := outputFile o;
                   startTime := startTime o; endTime := endTime o;
                   width := width o; height := height o;
                   bgColor := bgColor o; fgColor := fgColor o |}
            else if String.eqb key "-o" then
              parseArguments rest'
                {| inputFile := inputFile o; outputFile := value;
                   startTime := startTime o; endTime := endTime o;
                   width := width o; height := height o;
                   bgColor := bgColor o; fgColor := fgColor o |}
            else if String.eqb key "-s" then
              parseArguments rest'
                {| inputFile := inputFile o; outputFile := outputFile o;
                   startTime := getDoubleValue value; endTime := endTime o;
                   width := width o; height := height o;
                   bgColor := bgColor o; fgColor := fgColor o |}
            else if String.eqb key "-e" then
              parseArguments rest'
                {| inputFile := inputFile o; outputFile := outputFile o;
                   startTime := startTime o; endTime := getDoubleValue value;
                   width := width o; height := height o;
                   bgColor := bgColor o; fgColor := fgColor o |}
            else if String.eqb key "-w" then
              parseArguments rest'
                {| inputFile := inputFile o; outputFile := outputFile o;
                   startTime := startTime o; endTime := endTime o;
                   width := JuceString.getIntValue value; height := height o;
                   bgColor := bgColor o; fgColor := fgColor o |}
            else if String.eqb key "-h" then
              parseArguments rest'
                {| inputFile := inputFile o; outputFile := outputFile o;
                   startTime := startTime o; endTime := endTime o;
                   width := width o; height := JuceString.getIntValue value;
                   bgColor := bgColor o; fgColor := fgColor o |}
            else if String.eqb key "-b" then
              parseArguments rest'
                {| inputFile := inputFile o; outputFile := outputFile o;
                   startTime := startTime o; endTime := endTime o;
                   width := width o; height := height o;
                   bgColor := parseHexColor value; fgColor := fgColor o |}
            else if String.eqb key "-f" then
              parseArguments rest'
                {| inputFile := inputFile o; outputFile := outputFile o;
                   startTime := startTime o; endTime := endTime o;
                   width := width o; height := height o;
                   bgColor := bgColor o; fgColor := parseHexColor value |}
            else Return 1 [Help]
        | [] => Return 1 [Help]
        end
  end.

(** Lines 44-90: everything [wmain] does before it opens the input. *)
Definition readCommandLine (argv : list string) : stage Options :=
  if Z.of_nat (List.length argv) <? 2 then Return 1 [Help]
  else
    match parseArguments (tl argv) defaults with
    | Return exitCode printed => Return exitCode printed
    | Continue o =>
        if (String.eqb (inputFile o) "") || (String.eqb (outputFile o) "")
        then Return 1 [Help]
        else if (maxImageDimension <? width o) || (maxImageDimension <? height o)
        then Return 1 [SizeTooLarge]
        else Continue o
    end.

End CommandLine.

(* ------------------------------------------------------------------ *)
(** ** The collaborators: audio reader, canvas, file system *)

(** What the program reads off [AudioFormatReader]. *)
Record AudioFormatReader := {
  sampleRate : double;
  numChannels : Z;
  lengthInSamples : Z;
  sampleAt : Z -> Z -> float      (* channel, position in the file *)
}.

(** Modelled from the spec: [AudioFormatReader::read] is not under src/.
    Lines 126-127: a buffer of [numChannels] channels of [(int) numSamples]
    samples, filled from position [startSample] of the file, with silence
    outside the file. *)
Definition readBuffer (reader : AudioFormatReader) (startSample numSamples : Z)
    : Rasterizer.AudioBuffer :=
  map (fun ch =>
         map (fun k =>
                let position := startSample + Z.of_nat k in
                if (0 <=? position) && (position <? lengthInSamples reader)
                then sampleAt reader (Z.of_nat ch) position
                else S754_zero false)
             (seq 0 (Z.to_nat (int64_to_int numSamples))))
      (seq 0 (Z.to_nat (numChannels reader))).

(** The image after lines 129-164: its size, the colour it was filled
    with, the colour set for drawing and the lines drawn. *)
Record Image := {
  imageWidth : Z;
  imageHeight : Z;
  background : Colour;
  foreground : Colour;
  lines : list Rasterizer.Line
}.

Module Canvas.

Definition minf (a b : float) : float := if SFltb b a then b else a.
Definition maxf (a b : float) : float := if SFltb a b then b else a.

(** Modelled from the spec: [Graphics::drawLine] is not under src/.  A
    vertical line of width 1 touches the pixel in column [x], row [y] when
    it runs through column [x] and its extent meets the row. *)
Definition touches (x y : Z) (l : Rasterizer.Line) : bool :=
  let lo := minf (Rasterizer.y1 l) (Rasterizer.y2 l) in
  let hi := maxf (Rasterizer.y1 l) (Rasterizer.y2 l) in
  SFleb (Single.of_int x) (Rasterizer.x1 l)
  && SFltb (Rasterizer.x1 l) (Single.of_int (x + 1))
  && SFltb lo hi
  && SFltb lo (Single.of_int (y + 1))
  && SFltb (Single.of_int y) hi.

(** Modelled from the spec: the pixel grid starts as the background colour
    and a line overwrites the pixels it touches with the foreground. *)
Definition pixel (image : Image) (x y : Z) : Colour :=
  if existsb (touches x y) (lines image) then foreground image
  else background image.

End Canvas.

Definition FileSystem : Type := string -> option (list Z).

Definition writeFile (fs : FileSystem) (path : string) (content : option (list Z))
    : FileSystem :=
  fun p => if String.eqb p path then content else fs p.

(** Everything outside the program. *)
Record Environment := {
  getDoubleValue : string -> double;               (* String::getDoubleValue *)
  files : FileSystem;                              (* the files before the run *)
  createReaderFor : string -> option AudioFormatReader;
  deleteFile : string -> bool;                     (* does File::deleteFile succeed *)
  openStream : string -> bool;                     (* does FileOutputStream open *)
  writeImageToStream : Image -> list Z * bool      (* bytes written, result *)
}.

Record Run := {
  exitCode : Z;
  printed : list Message;
  filesAfter : FileSystem
}.

(* ------------------------------------------------------------------ *)
(** ** Input and output ([wmain], lines 102-127 and 166-181) *)

Definition existsAsFile (fs : FileSystem) (path : string) : bool :=
  match fs path with Some _ => true | None => false end.

(** Lines 102-117. *)
Definition openInput (env : Environment) (o : Options) : stage AudioFormatReader :=
  if negb (existsAsFile (files env) (inputFile o))
  then Return 1 [Parameters; InputMissing]
  else match createReaderFor env (inputFile o) with
       | None => Return 1 [Parameters; ReadFailed]
       | Some reader => Continue reader
       end.

(** The arguments of one run of the rasterizer. *)
Record RenderCall := {
  callWidth : Z;
  callHeight : Z;
  callNumSamples : Z;
  callBuffer : Rasterizer.AudioBuffer
}.

(** Lines 119-133: what the rasterizer is given. *)
Definition renderCall (o : Options) (reader : AudioFormatReader) : RenderCall :=
  let w := Resolver.resolveSamples (startTime o) (endTime o)
             (lengthInSamples reader) (sampleRate reader) in
  {| callWidth := width o;
     callHeight := height o;
     callNumSamples := Resolver.numSamples w;
     callBuffer := readBuffer reader (Resolver.startSample w) (Resolver.numSamples w) |}.

(** Lines 166-181.  [FileOutputStream] creates the file when it is missing
    and writes after the end of the file when it exists. *)
Definition saveImage (env : Environment) (output : string) (image : Image) : Run :=
  let fs := files env in
  let fs :=
    if existsAsFile fs output && deleteFile env output
    then writeFile fs output None else fs in
  let '(written, ok) := writeImageToStream env image in
  let fs :=
    if openStream env output
    then writeFile fs output
           (Some (match fs output with Some old => old | None => [] end ++ written))
    else fs in
  if ok
  then {| exitCode := 0; printed := [Parameters; Saved]; filesAfter := fs |}
  else {| exitCode := 1; printed := [Parameters; SaveFailed]; filesAfter := fs |}.

(** Lines 40-182. *)
Definition wmain (env : Environment) (argv : list string) : outcome Run :=
  match readCommandLine (getDoubleValue env) argv with
  | Return code out =>
      Ok {| exitCode := code; printed := out; filesAfter := files env |}
  | Continue o =>
      match openInput env o with
      | Return code out =>
          Ok {| exitCode := code; printed := out; filesAfter := files env |}
      | Continue reader =>
          let call := renderCall o reader in
          drawn <- Rasterizer.rasterize (callWidth call) (callHeight call)
                     (callNumSamples call) (callBuffer call) ;;
          Ok (saveImage env (outputFile o)
                {| imageWidth := width o; imageHeight := height o;
                   background := bgColor o; foreground := fgColor o;
                   lines := drawn |})
      end
  end.

(** The call of the rasterizer that a command line leads to, if any. *)
Definition rasterizerCall (env : Environment) (argv : list string) : option RenderCall :=
  match readCommandLine (getDoubleValue env) argv with
  | Return _ _ => None
  | Continue o =>
      match openInput env o with
      | Return _ _ => None
      | Continue reader => Some (renderCall o reader)
      end
  end.

(* ------------------------------------------------------------------ *)
(** ** The contract of the rasterizer, in the words of the specification *)

Module Contract.

(** The samples [j] with [sampleStart <= j < sampleEnd]. *)
Definition slice (samples : list float) (sampleStart sampleEnd : Z) : list float :=
  firstn (Z.to_nat (sampleEnd - sampleStart)) (skipn (Z.to_nat sampleStart) samples).

(** [m] is the minimum of the samples [l], seeded at [seed]: it is the seed
    or one of the samples, it is not above the seed, and no sample is
    below it. *)
Definition seededMin (seed : float) (l : list float) (m : float) : Prop :=
  (m = seed \/ In m l)
  /\ SFltb seed m = false
  /\ Forall (fun s => SFltb s m = false) l.

(** [m] is the maximum of the samples [l], seeded at [seed]. *)
Definition seededMax (seed : float) (l : list float) (m : float) : Prop :=
  (m = seed \/ In m l)
  /\ SFltb m seed = false
  /\ Forall (fun s => SFltb m s = false) l.

(** [floor (i / W * N)] over the rationals. *)
Definition floorOfShare (i W N : Z) : Z :=
  Qfloor (inject_Z i / inject_Z W * inject_Z N).

(** The band of channel [c], from its top to its top plus the channel
    height, over the rationals: does it hold the ordinate [y]? *)
Definition inBand (height numChannels c : Z) (y : Q) : Prop :=
  let channelHeight := Rasterizer.channelHeightOf height numChannels in
  let top := SF2Q (Rasterizer.topOf channelHeight c) in
  (top <= y)%Q /\ (y < top + SF2Q channelHeight)%Q.

End Contract.

(* ------------------------------------------------------------------ *)
(** ** Concrete runs used in the examples *)

Module Example.

(** A mono file at 44100 Hz holding [content]. *)
Definition mono (content : list float) : AudioFormatReader :=
  {| sampleRate := Double.of_int 44100;
     numChannels := 1;
     lengthInSamples := Z.of_nat (List.length content);
     sampleAt := fun _ position =>
                   nth (Z.to_nat position) content (S754_zero false) |}.

(** The input [song.wav] decodes to [reader]; the output path holds
    [existing]; the file system and the stream work; the encoder writes
    [written] and reports [ok]. *)
Definition environment (reader : AudioFormatReader)
    (existing : option (list Z)) (written : list Z) (ok : bool) : Environment :=
  {| getDoubleValue := fun _ => S754_zero false;
     files := fun p => if String.eqb p "song.wav" then Some []
                       else if String.eqb p "waveform.png" then existing
                       else None;
     createReaderFor := fun _ => Some reader;
     deleteFile := fun _ => true;
     openStream := fun _ => true;
     writeImageToStream := fun _ => (written, ok) |}.

Definition commandLine : list string :=
  ["WaveformImageGenerator"; "-i"; "song.wav"; "-o"; "waveform.png"].

End Example.

(* ------------------------------------------------------------------ *)
(** ** Hexadecimal components, in the words of the specification *)

Module HexContract.

(** The place of the character [c] in [alphabet], counted from 0. *)
Fixpoint position (c : ascii) (alphabet : string) : option Z :=
  match alphabet with
  | EmptyString => None
  | String a rest =>
      if Ascii.eqb c a then Some 0 else option_map Z.succ (position c rest)
  end.

(** The value of a hexadecimal digit is its place among the sixteen
    digits, written with small or with capital letters; no other
    character has a value. *)
Definition digit (c : ascii) : option Z :=
  match position c "0123456789abcdef" with
  | Some d => Some d
  | None => position c "0123456789ABCDEF"
  end.

(** The values of the hexadecimal digits among the characters [cs], in
    order; every other character is left out. *)
Fixpoint hexDigits (cs : list ascii) : list Z :=
  match cs with
  | [] => []
  | c :: rest =>
      match digit c with
      | Some d => d :: hexDigits rest
      | None => hexDigits rest
      end
  end.

(** The number whose hexadecimal digits are [ds]; 0 when there are none. *)
Definition positional (ds : list Z) : Z :=
  fold_left (fun result d => 16 * result + d) ds 0.

(** The component spelled by the two characters [a] and [b]. *)
Definition component (a b : ascii) : Z := positional (hexDigits [a; b]).

(** The colour spelled by the eight characters [r1 r2 g1 g2 b1 b2 a1 a2]. *)
Definition colour (r1 r2 g1 g2 b1 b2 a1 a2 : ascii) : Colour :=
  {| red := component r1 r2; green := component g1 g2;
     blue := component b1 b2; alpha := component a1 a2 |}.

(** No character of [s] is a hexadecimal digit. *)
Fixpoint withoutDigit (s : string) : Prop :=
  match s with
  | EmptyString => True
  | String c rest => digit c = None /\ withoutDigit rest
  end.

End HexContract.

(* ------------------------------------------------------------------ *)
(** ** Notions used to state further properties of the code *)

Definition is_finite (x : spec_float) : bool :=
  match x with
  | S754_zero _ | S754_finite _ _ _ => true
  | S754_infinity _ | S754_nan => false
  end.

(** Lines 151-153: one iteration of the scan, on the pair of the minimum
    and the maximum so far. *)
Definition scanStep (acc : float * float) (s : float) : float * float :=
  (if SFltb s (fst acc) then s else fst acc,
   if SFltb (snd acc) s then s else snd acc).

Module Spelling.

(** The character of the hexadecimal digit [d], in upper case. *)
Definition hexDigitChar (d : Z) : ascii :=
  if d <? 10 then ascii_of_nat (Z.to_nat (48 + d))
  else ascii_of_nat (Z.to_nat (55 + d)).

(** The two hexadecimal digits of a byte. *)
Definition hexByte (v : Z) : string :=
  String (hexDigitChar (v / 16)) (String (hexDigitChar (v mod 16)) EmptyString).

(** The string [RRGGBBAA] of a colour. *)
Definition spell (c : Colour) : string :=
  (hexByte (red c) ++ hexByte (green c) ++ hexByte (blue c) ++ hexByte (alpha c))%string.

Definition isByteColour (c : Colour) : Prop :=
  0 <= red c < 256 /\ 0 <= green c < 256 /\ 0 <= blue c < 256 /\ 0 <= alpha c < 256.

(** A lower-case letter becomes the upper-case one. *)
Definition toUpper (c : ascii) : ascii :=
  let d := JuceString.code c in
  if (97 <=? d) && (d <=? 122) then ascii_of_nat (Z.to_nat (d - 32)) else c.

Fixpoint upper (s : string) : string :=
  match s with
  | EmptyString => EmptyString
  | String c rest => String (toUpper c) (upper rest)
  end.

End Spelling.

(* ------------------------------------------------------------------ *)
(** ** Rounding to [float], on integers

    What [SpecFloat.binary_round_aux] computes for a mantissa of at least
    24 bits, written with division and remainder; used to show that the
    band tops keep the order of the channels. *)

(** [m / 2 ^ n] rounded to the nearest integer, a tie to the even one. *)
Definition nearestEven (m n : Z) : Z :=
  let q := m / 2 ^ n in
  match Z.compare (2 * (m mod 2 ^ n)) (2 ^ n) with
  | Lt => q
  | Eq => if Z.even q then q else q + 1
  | Gt => q + 1
  end.

(** The exponent that [float] gives to the number [m * 2 ^ e]. *)
Definition exponentOf (m : positive) (e : Z) : Z :=
  fexp 24 128 (Zpos (digits2_pos m) + e).

(** The mantissa and the exponent of [m * 2 ^ e] rounded to [float]. *)
Definition rounded (m : positive) (e : Z) : Z * Z :=
  let r := nearestEven (Zpos m) (exponentOf m e - e) in
  if r =? 2 ^ 24 then (2 ^ 23, exponentOf m e + 1) else (r, exponentOf m e).

(** The number with the sign [s], the mantissa [fst me] and the exponent
    [snd me]: zero without a mantissa, infinite above the largest
    exponent. *)
Definition pack (s : bool) (me : Z * Z) : spec_float :=
  match fst me with
  | Z0 => S754_zero s
  | Zpos m => if snd me <=? 104 then S754_finite s m (snd me) else S754_infinity s
  | Zneg _ => S754_nan
  end.

(** [m1 * 2 ^ e1 <= m2 * 2 ^ e2]. *)
Definition below (m1 e1 m2 e2 : Z) : Prop :=
  m1 * 2 ^ (e1 - Z.min e1 e2) <= m2 * 2 ^ (e2 - Z.min e1 e2).

(** The order of the numbers packed from two pairs. *)
Definition packedBelow (a b : Z * Z) : Prop :=
  fst a = 0 \/ (0 < fst b /\ (snd a < snd b \/ (snd a = snd b /\ fst a <= fst b))).

(** The sign bit of [x] is not set. *)
Definition nonneg_float (x : spec_float) : Prop :=
  match x with
  | S754_nan => True
  | S754_zero s | S754_infinity s | S754_finite s _ _ => s = false
  end.

(* ------------------------------------------------------------------ *)
(** ** Theorems *)

(** *** Floating-point comparison *)

Lemma SFltb_irrefl x : SFltb x x = false.
Proof.
  unfold SFltb. destruct x as [s|s| |s m e]; try (destruct s); simpl; trivial;
    rewrite Z.compare_refl, Pos.compare_cont_refl; reflexivity.
Qed.

Lemma SFltb_not_nan x y : SFltb x y = true -> is_nan x = false /\ is_nan y = false.
Proof.
  unfold SFltb. destruct x, y; simpl; try discriminate; auto.
Qed.

Ltac order_cases :=
  repeat match goal with
  | |- context [Z.compare ?a ?b] => destruct (Z.compare_spec a b); subst
  | |- context [Pos.compare_cont Eq ?a ?b] =>
      change (Pos.compare_cont Eq a b) with (Pos.compare a b);
      destruct (Pos.compare_spec a b); subst
  end; simpl; try discriminate; try lia; auto.

(** Of three numbers of which the middle one is not NaN: if the first is
    below the last, the middle one is above the first or below the last. *)
Lemma SFltb_split x y z :
  SFltb x z = true -> is_nan y = false ->
  SFltb x y = true \/ SFltb y z = true.
Proof.
  unfold SFltb.
  destruct x as [sx|sx| |sx mx ex], y as [sy|sy| |sy my ey], z as [sz|sz| |sz mz ez];
    simpl; try discriminate;
    try destruct sx; try destruct sy; try destruct sz; simpl;
    try discriminate; auto; intros Hxz _; revert Hxz; order_cases.
Qed.

Lemma SFltb_asym x y : SFltb x y = true -> SFltb y x = false.
Proof.
  unfold SFltb.
  destruct x as [sx|sx| |sx mx ex], y as [sy|sy| |sy my ey];
    simpl; try discriminate;
    try destruct sx; try destruct sy; simpl; try discriminate; auto;
    order_cases.
Qed.

Lemma SFltb_trans x y z : SFltb x y = true -> SFltb y z = true -> SFltb x z = true.
Proof.
  intros Hxy Hyz.
  destruct (SFltb_not_nan _ _ Hyz) as [_ Hz].
  destruct (SFltb_split x z y Hxy Hz) as [H|H]; trivial.
  rewrite (SFltb_asym _ _ Hyz) in H. discriminate.
Qed.

(** *** The time window *)

Lemma absoluteEnd_agrees endTime duration :
  (if SFleb endTime Resolver.zero
   then (if SFltb endTime Resolver.zero then Double.add duration endTime else duration)
   else endTime)
  = Resolver.Spec.absoluteEnd endTime duration.
Proof.
  unfold Resolver.Spec.absoluteEnd.
  destruct endTime as [s|s| |s m e]; try destruct s; reflexivity.
Qed.

(** The end of the window never exceeds the duration. *)
Lemma actualEnd_within_duration (startTime endTime duration : double) :
  SFltb duration (Resolver.actualEnd (Resolver.resolveTimes startTime endTime duration))
  = false.
Proof.
  unfold Resolver.resolveTimes. cbn [Resolver.actualEnd].
  unfold Juce.jmin, less, Less_float.
  match goal with |- context [SFltb ?e duration] =>
    destruct (SFltb e duration) eqn:E end.
  - apply SFltb_asym. exact E.
  - apply SFltb_irrefl.
Qed.

(** When the end of the window is not negative, the start lies between 0
    and the end. *)
Lemma actualStart_within_window (startTime endTime duration : double) :
  let w := Resolver.resolveTimes startTime endTime duration in
  SFltb (Resolver.actualEnd w) Resolver.zero = false ->
  SFltb (Resolver.actualStart w) Resolver.zero = false
  /\ SFltb (Resolver.actualEnd w) (Resolver.actualStart w) = false.
Proof.
  unfold Resolver.resolveTimes. cbn [Resolver.actualEnd Resolver.actualStart].
  intros Hend. unfold Juce.jlimit at 1 2. unfold less at 1 2 3 4, Less_float.
  destruct (SFltb startTime Resolver.zero) eqn:E1.
  - split; [reflexivity | exact Hend].
  - match goal with |- context [SFltb ?e startTime] =>
      destruct (SFltb e startTime) eqn:E2 end.
    + split; [exact Hend | apply SFltb_irrefl].
    + split; [exact E1 | exact E2].
Qed.

(** C2.  For all start and end requests and every total duration the
    resolver returns the window of the specification: the end is the
    duration when the request is 0, the duration plus the request when it
    is negative and the request otherwise, then the smaller of that and
    the duration; the start is the request clamped between 0 and that end.
    The end never exceeds the duration, and when it is not negative the
    start lies between 0 and the end.  With a duration of 100 and a start
    of 5, the ends 30, 0 and -10 give (5, 30), (5, 100) and (5, 90). *)
Theorem resolveTimes_meets_contract :
  (forall requestedStart requestedEnd totalDuration,
     let w := Resolver.resolveTimes requestedStart requestedEnd totalDuration in
     (Resolver.actualStart w, Resolver.actualEnd w)
     = Resolver.Spec.resolve requestedStart requestedEnd totalDuration
     /\ SFltb totalDuration (Resolver.actualEnd w) = false
     /\ (SFltb (Resolver.actualEnd w) Resolver.zero = false ->
         SFltb (Resolver.actualStart w) Resolver.zero = false
         /\ SFltb (Resolver.actualEnd w) (Resolver.actualStart w) = false))
  /\ Resolver.resolveTimes (Double.of_int 5) (Double.of_int 30) (Double.of_int 100)
     = {| Resolver.actualStart := Double.of_int 5;
          Resolver.actualEnd := Double.of_int 30 |}
  /\ Resolver.resolveTimes (Double.of_int 5) (Double.of_int 0) (Double.of_int 100)
     = {| Resolver.actualStart := Double.of_int 5;
          Resolver.actualEnd := Double.of_int 100 |}
  /\ Resolver.resolveTimes (Double.of_int 5) (Double.of_int (-10)) (Double.of_int 100)
     = {| Resolver.actualStart := Double.of_int 5;
          Resolver.actualEnd := Double.of_int 90 |}.
Proof.
  split; [|repeat split; vm_compute; reflexivity].
  intros s e d w. split; [|split].
  - unfold w, Resolver.resolveTimes, Resolver.Spec.resolve. simpl.
    rewrite absoluteEnd_agrees. reflexivity.
  - apply actualEnd_within_duration.
  - apply actualStart_within_window.
Qed.

(** C6 fails on the code.  A 100 second file at 44100 Hz and the end
    request -200: the end becomes -100, nothing raises it to 0, and
    [jlimit (0, -100, start)] runs with its bounds in the wrong order.
    With the default start 0 the first sample is -4410000; with the start
    -1 the sample count is -4410000. *)
Theorem resolveSamples_negative :
  Resolver.resolveTimes (Double.of_int 0) (Double.of_int (-200)) (Double.of_int 100)
  = {| Resolver.actualStart := Double.of_int (-100);
       Resolver.actualEnd := Double.of_int (-100) |}
  /\ Juce.jlimit_precondition Resolver.zero (Double.of_int (-100)) = false
  /\ Resolver.resolveSamples (Double.of_int 0) (Double.of_int (-200))
       4410000 (Double.of_int 44100)
     = {| Resolver.startSample := -4410000; Resolver.numSamples := 0 |}
  /\ Resolver.resolveSamples (Double.of_int (-1)) (Double.of_int (-200))
       4410000 (Double.of_int 44100)
     = {| Resolver.startSample := 0; Resolver.numSamples := -4410000 |}.
Proof. repeat split; vm_compute; reflexivity. Qed.

(** *** Integers that convert exactly *)

Lemma iter_pos_eq {A : Type} (f : A -> A) (n : positive) (x : A) :
  iter_pos f n x = Pos.iter f x n.
Proof.
  revert x. induction n as [n IH|n IH|]; intros x; simpl.
  - rewrite !IH. rewrite <- !Pos.iter_swap. reflexivity.
  - rewrite !IH. reflexivity.
  - reflexivity.
Qed.

Lemma digits2_pos_shift (m k : positive) :
  digits2_pos (Pos.iter xO m k) = (digits2_pos m + k)%positive.
Proof.
  induction k as [|k IH] using Pos.peano_ind.
  - simpl. lia.
  - rewrite Pos.iter_succ. simpl. rewrite IH. lia.
Qed.

Lemma Zpos_shift (m k : positive) :
  Zpos (Pos.iter xO m k) = Zpos m * 2 ^ Zpos k.
Proof.
  induction k as [|k IH] using Pos.peano_ind.
  - simpl. lia.
  - rewrite Pos.iter_succ, Pos2Z.inj_xO, IH, Pos2Z.inj_succ, Z.pow_succ_r by lia.
    ring.
Qed.

Lemma shr_shift (m k : positive) :
  Pos.iter shr_1 {| shr_m := Zpos (Pos.iter xO m k); shr_r := false; shr_s := false |} k
  = {| shr_m := Zpos m; shr_r := false; shr_s := false |}.
Proof.
  induction k as [|k IH] using Pos.peano_ind.
  - reflexivity.
  - rewrite Pos.iter_succ_r, Pos.iter_succ. simpl. exact IH.
Qed.

Section Rounding.
Variables prec emax : Z.

Lemma shr_fexp_canonical (m : positive) (e : Z) :
  fexp prec emax (Zpos (digits2_pos m) + e) = e ->
  shr_fexp prec emax (Zpos m) e loc_Exact
  = ({| shr_m := Zpos m; shr_r := false; shr_s := false |}, e).
Proof.
  intros Hc. unfold shr_fexp. cbn [Zdigits2]. rewrite Hc, Z.sub_diag. reflexivity.
Qed.

(** A canonical mantissa and exponent are left as they are. *)
Lemma binary_round_aux_canonical (s : bool) (m : positive) (e : Z) :
  canonical_mantissa prec emax m e = true ->
  e <= emax - prec ->
  binary_round_aux prec emax s (Zpos m) e loc_Exact = S754_finite s m e.
Proof.
  unfold canonical_mantissa. intros Hc He. apply Z.eqb_eq in Hc.
  unfold binary_round_aux. rewrite (shr_fexp_canonical _ _ Hc).
  cbn [shr_m loc_of_shr_record round_nearest_even].
  rewrite (shr_fexp_canonical _ _ Hc). cbn [shr_m].
  apply Z.leb_le in He. rewrite He. reflexivity.
Qed.

(** So is a canonical mantissa with [k] more zero bits at its end. *)
Lemma binary_round_aux_shifted (s : bool) (m k : positive) (e : Z) :
  canonical_mantissa prec emax m e = true ->
  e <= emax - prec ->
  binary_round_aux prec emax s (Zpos (Pos.iter xO m k)) (e - Zpos k) loc_Exact
  = S754_finite s m e.
Proof.
  unfold canonical_mantissa. intros Hc He. apply Z.eqb_eq in Hc.
  assert (Hs : shr_fexp prec emax (Zpos (Pos.iter xO m k)) (e - Zpos k) loc_Exact
               = ({| shr_m := Zpos m; shr_r := false; shr_s := false |}, e)).
  { unfold shr_fexp. cbn [Zdigits2]. rewrite digits2_pos_shift.
    replace (Zpos (digits2_pos m + k) + (e - Zpos k))
      with (Zpos (digits2_pos m) + e) by lia.
    rewrite Hc. replace (e - (e - Zpos k)) with (Zpos k) by lia.
    unfold shr. cbn [shr_record_of_loc]. rewrite iter_pos_eq, shr_shift.
    f_equal. lia. }
  unfold binary_round_aux. rewrite Hs.
  cbn [shr_m loc_of_shr_record round_nearest_even].
  rewrite (shr_fexp_canonical _ _ Hc). cbn [shr_m].
  apply Z.leb_le in He. rewrite He. reflexivity.
Qed.

End Rounding.

Lemma digits2_pos_size (p : positive) : digits2_pos p = Pos.size p.
Proof. induction p; simpl; congruence. Qed.

Lemma digits2_pos_bound (p : positive) (n : Z) :
  0 <= n -> Zpos p < 2 ^ n -> Zpos (digits2_pos p) <= n.
Proof.
  intros Hn Hp. rewrite digits2_pos_size.
  pose proof (Pos.size_le p) as Hle.
  apply Pos2Z.pos_le_pos in Hle. rewrite Pos2Z.inj_pow in Hle.
  change (Zpos p~0) with (2 * Zpos p) in Hle.
  assert (Hlt : 2 ^ Zpos (Pos.size p) < 2 ^ (n + 1)).
  { replace (n + 1) with (Z.succ n) by lia. rewrite Z.pow_succ_r by lia. lia. }
  apply Z.pow_lt_mono_r_iff in Hlt; lia.
Qed.

(** An integer below 2^53 is converted to [double] without rounding: its
    bits are moved up to fill the 53-bit mantissa. *)
Lemma Double_of_int_pos (p : positive) :
  Zpos (digits2_pos p) < 53 ->
  exists k, Zpos k = 53 - Zpos (digits2_pos p)
            /\ Double.of_int (Zpos p) = S754_finite false (Pos.iter xO p k) (Zneg k)
            /\ canonical_mantissa 53 1024 (Pos.iter xO p k) (Zneg k) = true.
Proof.
  intros Hd.
  destruct (53 - Zpos (digits2_pos p)) as [|k|k] eqn:Hk; try lia.
  exists k. split; [reflexivity|].
  assert (Hc : canonical_mantissa 53 1024 (Pos.iter xO p k) (Zneg k) = true).
  { unfold canonical_mantissa, fexp, emin. rewrite digits2_pos_shift.
    apply Z.eqb_eq. lia. }
  split; [|exact Hc].
  unfold Double.of_int, binary_normalize, binary_round, shl_align.
  unfold Double.prec, Double.emax.
  replace (fexp 53 1024 (Zpos (digits2_pos p) + 0)) with (Zneg k)
    by (unfold fexp, emin; lia).
  cbn [Z.sub Z.opp Z.add].
  apply binary_round_aux_canonical; [exact Hc | lia].
Qed.

Lemma Double_mul_one_l (s : bool) (m : positive) (e : Z) :
  canonical_mantissa 53 1024 m e = true ->
  e <= 1024 - 53 ->
  Double.mul (Double.of_int 1) (S754_finite s m e) = S754_finite s m e.
Proof.
  intros Hc He.
  change (Double.of_int 1) with (S754_finite false 4503599627370496 (-52)).
  unfold Double.mul, SFmul. cbn [xorb].
  change (Pos.mul 4503599627370496 m) with (Pos.iter xO m 52).
  replace (-52 + e) with (e - 52) by lia.
  apply binary_round_aux_shifted; assumption.
Qed.

Lemma truncate_shifted (p k : positive) :
  truncate (S754_finite false (Pos.iter xO p k) (Zneg k)) = Some (Zpos p).
Proof.
  unfold truncate, cond_Zopp. f_equal.
  rewrite Zpos_shift. change (Zneg k) with (- Zpos k).
  rewrite Z.shiftl_div_pow2 by lia.
  apply Z.div_mul. apply Z.pow_nonzero; lia.
Qed.

Lemma int64_to_int_small (n : Z) : - 2 ^ 31 <= n < 2 ^ 31 -> int64_to_int n = n.
Proof.
  intros Hn. unfold int64_to_int.
  rewrite Z.mod_small; lia.
Qed.

(** With one column the range is the whole buffer. *)
Lemma columnRange_single (numSamples : Z) :
  1 <= numSamples < 2 ^ 31 ->
  Rasterizer.columnRange 1 numSamples 0 = (0, numSamples).
Proof.
  intros HN.
  destruct numSamples as [|p|p]; try lia.
  assert (Hd : Zpos (digits2_pos p) < 53).
  { pose proof (digits2_pos_bound p 31). lia. }
  destruct (Double_of_int_pos p Hd) as (k & Hk & Hof & Hc).
  unfold Rasterizer.columnRange.
  rewrite int64_to_int_small by lia.
  change (Double.div (Double.of_int 0) (Double.of_int 1)) with (S754_zero false).
  change (Double.div (Double.of_int (0 + 1)) (Double.of_int 1)) with (Double.of_int 1).
  rewrite Hof.
  rewrite Double_mul_one_l by (trivial; lia).
  unfold Double.mul, SFmul. cbn [xorb].
  unfold static_cast_int, static_cast_signed.
  rewrite truncate_shifted. cbn [truncate].
  unfold Juce.jlimit, less, Less_int.
  replace (- 2 ^ (32 - 1) <=? 0) with true by reflexivity.
  replace (0 <? 2 ^ (32 - 1)) with true by reflexivity.
  cbn [andb].
  replace ((- 2 ^ (32 - 1) <=? Zpos p) && (Zpos p <? 2 ^ (32 - 1))) with true
    by (symmetry; apply andb_true_iff; split; [apply Z.leb_le | apply Z.ltb_lt]; lia).
  rewrite Z.ltb_irrefl.
  replace (Zpos p - 1 <? 0) with false by (symmetry; apply Z.ltb_ge; lia).
  replace (Zpos p <? 0) with false by (symmetry; apply Z.ltb_ge; lia).
  rewrite Z.ltb_irrefl. reflexivity.
Qed.

(** *** The scan of one column *)

Lemma slice_cons (samples : list float) (n count : nat) (s : float) :
  nth_error samples n = Some s ->
  firstn (S count) (skipn n samples) = s :: firstn count (skipn (S n) samples).
Proof.
  revert n. induction samples as [|a samples IH]; intros [|n] Hn; simpl in *;
    try discriminate.
  - congruence.
  - apply (IH n Hn).
Qed.

Lemma scan_envelope (samples : list float) :
  forall (count n : nat) (minVal maxVal : float),
    (n + count <= List.length samples)%nat ->
    is_nan minVal = false -> is_nan maxVal = false ->
    exists mn mx,
      Rasterizer.scan samples count (Z.of_nat n) minVal maxVal = Ok (mn, mx)
      /\ Contract.seededMin minVal (firstn count (skipn n samples)) mn
      /\ Contract.seededMax maxVal (firstn count (skipn n samples)) mx.
Proof.
  induction count as [|count IH]; intros n minVal maxVal Hlen Hmin Hmax.
  - exists minVal, maxVal. simpl. unfold Contract.seededMin, Contract.seededMax.
    rewrite !SFltb_irrefl. repeat split; auto.
  - destruct (nth_error samples n) as [s|] eqn:Hs.
    2:{ apply nth_error_None in Hs. lia. }
    rewrite (slice_cons _ _ _ _ Hs).
    cbn [Rasterizer.scan]. unfold Rasterizer.readSample.
    replace (Z.of_nat n <? 0) with false by (symmetry; apply Z.ltb_ge; lia).
    rewrite Nat2Z.id, Hs. cbn [bind].
    replace (Z.of_nat n + 1) with (Z.of_nat (S n)) by lia.
    destruct (IH (S n) (if SFltb s minVal then s else minVal)
                 (if SFltb maxVal s then s else maxVal))
      as (mn & mx & Hscan & (Hmn1 & Hmn2 & Hmn3) & (Hmx1 & Hmx2 & Hmx3)).
    { lia. }
    { destruct (SFltb s minVal) eqn:E; trivial. apply (SFltb_not_nan _ _ E). }
    { destruct (SFltb maxVal s) eqn:E; trivial. apply (SFltb_not_nan _ _ E). }
    exists mn, mx. split; [exact Hscan|]. split.
    + destruct (SFltb s minVal) eqn:E.
      * repeat split.
        -- right. destruct Hmn1 as [->|Hin]; [left; reflexivity | right; exact Hin].
        -- destruct (SFltb minVal mn) eqn:F; trivial.
           rewrite (SFltb_trans _ _ _ E F) in Hmn2. discriminate.
        -- constructor; assumption.
      * repeat split.
        -- destruct Hmn1 as [->|Hin]; [left; reflexivity | right; right; exact Hin].
        -- exact Hmn2.
        -- constructor; [|assumption].
           destruct (SFltb s mn) eqn:F; trivial.
           destruct (SFltb_split _ minVal _ F Hmin) as [G|G]; congruence.
    + destruct (SFltb maxVal s) eqn:E.
      * repeat split.
        -- right. destruct Hmx1 as [->|Hin]; [left; reflexivity | right; exact Hin].
        -- destruct (SFltb mx maxVal) eqn:F; trivial.
           rewrite (SFltb_trans _ _ _ F E) in Hmx2. discriminate.
        -- constructor; assumption.
      * repeat split.
        -- destruct Hmx1 as [->|Hin]; [left; reflexivity | right; right; exact Hin].
        -- exact Hmx2.
        -- constructor; [|assumption].
           destruct (SFltb mx s) eqn:F; trivial.
           destruct (SFltb_split _ maxVal _ F Hmax) as [G|G]; congruence.
Qed.

Lemma jlimit_bounds (lo hi v : Z) :
  lo <= hi -> lo <= Juce.jlimit lo hi v <= hi.
Proof.
  intros H. unfold Juce.jlimit, less, Less_int.
  destruct (Z.ltb_spec v lo); [lia|].
  destruct (Z.ltb_spec hi v); lia.
Qed.

(** For a buffer that is not empty the range of every column lies within
    the buffer. *)
Lemma columnRange_bounds (width numSamples i : Z) :
  1 <= numSamples < 2 ^ 31 ->
  0 <= fst (Rasterizer.columnRange width numSamples i) <= numSamples - 1
  /\ 0 <= snd (Rasterizer.columnRange width numSamples i) <= numSamples.
Proof.
  intros HN. unfold Rasterizer.columnRange. cbn [fst snd].
  rewrite int64_to_int_small by lia.
  split; apply jlimit_bounds; lia.
Qed.

Lemma envelope_spec (samples : list float) (sampleStart sampleEnd : Z) :
  0 <= sampleStart -> sampleStart <= Z.of_nat (List.length samples) ->
  sampleEnd <= Z.of_nat (List.length samples) ->
  exists minVal maxVal,
    Rasterizer.envelope samples sampleStart sampleEnd = Ok (minVal, maxVal)
    /\ Contract.seededMin Single.one (Contract.slice samples sampleStart sampleEnd) minVal
    /\ Contract.seededMax Single.minus_one (Contract.slice samples sampleStart sampleEnd) maxVal.
Proof.
  intros H0 H1 H2. unfold Rasterizer.envelope, Contract.slice.
  pose proof (scan_envelope samples (Z.to_nat (sampleEnd - sampleStart))
                (Z.to_nat sampleStart) Single.one Single.minus_one) as Hscan.
  rewrite Z2Nat.id in Hscan by lia.
  apply Hscan; try reflexivity. lia.
Qed.

(** *** The loops over columns and channels *)

Section Loops.
Variables (width numSamples : Z) (channelHeight : float).

Lemma columns_lines (samples : list float) (midY : float) :
  (forall i, exists l,
      Rasterizer.column samples width numSamples channelHeight midY i = Ok l) ->
  forall (count : nat) (i0 : Z) (g : list Rasterizer.Line),
  exists ls,
    Rasterizer.columns samples width numSamples channelHeight midY count i0 g
    = Ok (g ++ ls)
    /\ List.length ls = count
    /\ forall k, (k < count)%nat ->
         exists l, nth_error ls k = Some l
           /\ Rasterizer.column samples width numSamples channelHeight midY
                (i0 + Z.of_nat k) = Ok l.
Proof.
  intros Hdef. induction count as [|count IH]; intros i0 g.
  - exists []. rewrite app_nil_r. repeat split; trivial. intros k Hk. lia.
  - destruct (Hdef i0) as [l Hl].
    destruct (IH (i0 + 1) (g ++ [l])) as (ls & Hrun & Hlen & Hnth).
    exists (l :: ls). cbn [Rasterizer.columns]. rewrite Hl. cbn [bind].
    rewrite Hrun, <- app_assoc. repeat split; simpl; [congruence|].
    intros [|k] Hk.
    + exists l. rewrite Z.add_0_r. auto.
    + destruct (Hnth k) as (l' & Hl' & Hcol); [lia|].
      exists l'. split; [exact Hl'|].
      replace (i0 + Z.of_nat (S k)) with (i0 + 1 + Z.of_nat k) by lia. exact Hcol.
Qed.

Lemma channels_lines :
  forall (rest : list (list float)) (ch0 : Z) (g : list Rasterizer.Line),
  (forall samples midY i, In samples rest ->
     exists l, Rasterizer.column samples width numSamples channelHeight midY i = Ok l) ->
  exists ls,
    Rasterizer.channels rest width numSamples channelHeight ch0 g = Ok (g ++ ls)
    /\ forall c samples k,
         nth_error rest c = Some samples -> (k < Z.to_nat width)%nat ->
         exists l, nth_error ls (c * Z.to_nat width + k) = Some l
           /\ Rasterizer.column samples width numSamples channelHeight
                (Rasterizer.midYOf channelHeight (ch0 + Z.of_nat c))
                (Z.of_nat k) = Ok l.
Proof.
  induction rest as [|samples rest IH]; intros ch0 g Hdef.
  - exists []. rewrite app_nil_r. split; trivial.
    intros [|c] s k Hc; discriminate.
  - destruct (columns_lines samples (Rasterizer.midYOf channelHeight ch0))
      with (count := Z.to_nat width) (i0 := 0) (g := g)
      as (ls1 & Hrun1 & Hlen1 & Hnth1).
    { intros i. apply Hdef. left. reflexivity. }
    destruct (IH (ch0 + 1) (g ++ ls1)) as (ls2 & Hrun2 & Hnth2).
    { intros s midY i Hin. apply Hdef. right. exact Hin. }
    exists (ls1 ++ ls2). cbn [Rasterizer.channels]. rewrite Hrun1. cbn [bind].
    rewrite Hrun2, <- app_assoc. split; trivial.
    intros [|c] s k Hc Hk.
    + simpl in Hc. injection Hc as <-.
      destruct (Hnth1 k Hk) as (l & Hl & Hcol).
      exists l. rewrite Nat.mul_0_l, Nat.add_0_l, Z.add_0_r.
      rewrite nth_error_app1 by lia. split; [exact Hl|]. exact Hcol.
    + simpl in Hc. destruct (Hnth2 c s k Hc Hk) as (l & Hl & Hcol).
      exists l. rewrite nth_error_app2 by (rewrite Hlen1; lia).
      replace (S c * Z.to_nat width + k - List.length ls1)%nat
        with (c * Z.to_nat width + k)%nat by (rewrite Hlen1; lia).
      split; [exact Hl|].
      replace (ch0 + Z.of_nat (S c)) with (ch0 + 1 + Z.of_nat c) by lia.
      exact Hcol.
Qed.

End Loops.

(** On a buffer that is not empty a column never reads outside it, and the
    line it draws comes from the seeded minimum and maximum of its range. *)
Lemma column_spec (samples : list float) (width numSamples : Z)
    (channelHeight midY : float) (i : Z) :
  1 <= numSamples < 2 ^ 31 ->
  Z.of_nat (List.length samples) = numSamples ->
  exists minVal maxVal,
    Rasterizer.column samples width numSamples channelHeight midY i
    = Ok (Rasterizer.envelopeLine channelHeight midY i minVal maxVal)
    /\ Contract.seededMin Single.one
         (Contract.slice samples (fst (Rasterizer.columnRange width numSamples i))
                                 (snd (Rasterizer.columnRange width numSamples i)))
         minVal
    /\ Contract.seededMax Single.minus_one
         (Contract.slice samples (fst (Rasterizer.columnRange width numSamples i))
                                 (snd (Rasterizer.columnRange width numSamples i)))
         maxVal.
Proof.
  intros HN Hlen.
  destruct (columnRange_bounds width numSamples i HN) as [Hs He].
  unfold Rasterizer.column.
  destruct (Rasterizer.columnRange width numSamples i) as [sampleStart sampleEnd].
  cbn [fst snd] in *.
  destruct (envelope_spec samples sampleStart sampleEnd)
    as (minVal & maxVal & Henv & Hmin & Hmax); try lia.
  exists minVal, maxVal. rewrite Henv. cbn [bind]. auto.
Qed.

(** A column whose range is empty draws the line of the two seeds. *)
Lemma column_empty_range (samples : list float) (width numSamples : Z)
    (channelHeight midY : float) (i : Z) :
  snd (Rasterizer.columnRange width numSamples i)
    <= fst (Rasterizer.columnRange width numSamples i) ->
  Rasterizer.column samples width numSamples channelHeight midY i
  = Ok (Rasterizer.envelopeLine channelHeight midY i Single.one Single.minus_one).
Proof.
  intros Hempty. unfold Rasterizer.column.
  destruct (Rasterizer.columnRange width numSamples i) as [sampleStart sampleEnd].
  cbn [fst snd] in Hempty. unfold Rasterizer.envelope.
  replace (Z.to_nat (sampleEnd - sampleStart)) with 0%nat by lia.
  reflexivity.
Qed.

Lemma rasterize_lines (width height numSamples : Z)
    (buffer : Rasterizer.AudioBuffer) :
  1 <= numSamples < 2 ^ 31 ->
  Forall (fun samples => Z.of_nat (List.length samples) = numSamples) buffer ->
  exists drawn,
    Rasterizer.rasterize width height numSamples buffer = Ok drawn
    /\ forall ch samples i,
         nth_error buffer ch = Some samples -> 0 <= i < width ->
         exists l,
           nth_error drawn (ch * Z.to_nat width + Z.to_nat i) = Some l
           /\ Rasterizer.column samples width numSamples
                (Rasterizer.channelHeightOf height (Z.of_nat (List.length buffer)))
                (Rasterizer.midYOf
                   (Rasterizer.channelHeightOf height (Z.of_nat (List.length buffer)))
                   (Z.of_nat ch)) i = Ok l.
Proof.
  intros HN Hwf. unfold Rasterizer.rasterize.
  destruct (channels_lines width numSamples
              (Rasterizer.channelHeightOf height (Z.of_nat (List.length buffer)))
              buffer 0 [])
    as (ls & Hrun & Hnth).
  { intros samples midY i Hin.
    rewrite Forall_forall in Hwf.
    destruct (column_spec samples width numSamples
                (Rasterizer.channelHeightOf height (Z.of_nat (List.length buffer)))
                midY i HN (Hwf _ Hin)) as (mn & mx & Hcol & _).
    eauto. }
  exists ls. split; [exact Hrun|].
  intros ch samples i Hch Hi.
  destruct (Hnth ch samples (Z.to_nat i) Hch) as (l & Hl & Hcol); [lia|].
  exists l. rewrite Z2Nat.id, Z.add_0_l in Hcol by lia. auto.
Qed.

(** The buffer that [wmain] hands to the rasterizer has [numSamples]
    samples in every channel. *)
Lemma readBuffer_shape (reader : AudioFormatReader) (startSample numSamples : Z) :
  0 <= numSamples < 2 ^ 31 ->
  Forall (fun samples => Z.of_nat (List.length samples) = numSamples)
         (readBuffer reader startSample numSamples).
Proof.
  intros HN. unfold readBuffer. apply Forall_forall. intros samples Hin.
  apply in_map_iff in Hin. destruct Hin as (ch & <- & _).
  rewrite length_map, length_seq, int64_to_int_small by lia. lia.
Qed.

(** The line of channel [ch] and column [i] among the lines drawn. *)
Lemma rasterize_line_at
    (width height numSamples : Z) (buffer : Rasterizer.AudioBuffer)
    (ch : nat) (samples : list float) (i : Z) :
  1 <= numSamples < 2 ^ 31 ->
  Forall (fun s => Z.of_nat (List.length s) = numSamples) buffer ->
  nth_error buffer ch = Some samples ->
  0 <= i < width ->
  exists drawn minVal maxVal,
    Rasterizer.rasterize width height numSamples buffer = Ok drawn
    /\ nth_error drawn (ch * Z.to_nat width + Z.to_nat i)
       = Some (Rasterizer.envelopeLine
                 (Rasterizer.channelHeightOf height (Z.of_nat (List.length buffer)))
                 (Rasterizer.midYOf
                    (Rasterizer.channelHeightOf height (Z.of_nat (List.length buffer)))
                    (Z.of_nat ch))
                 i minVal maxVal)
    /\ Contract.seededMin Single.one
         (Contract.slice samples (fst (Rasterizer.columnRange width numSamples i))
                                 (snd (Rasterizer.columnRange width numSamples i)))
         minVal
    /\ Contract.seededMax Single.minus_one
         (Contract.slice samples (fst (Rasterizer.columnRange width numSamples i))
                                 (snd (Rasterizer.columnRange width numSamples i)))
         maxVal.
Proof.
  intros HN Hwf Hch Hi.
  destruct (rasterize_lines width height numSamples buffer HN Hwf)
    as (drawn & Hrun & Hnth).
  destruct (Hnth ch samples i Hch Hi) as (l & Hl & Hcol).
  rewrite Forall_forall in Hwf.
  destruct (column_spec samples width numSamples
              (Rasterizer.channelHeightOf height (Z.of_nat (List.length buffer)))
              (Rasterizer.midYOf
                 (Rasterizer.channelHeightOf height (Z.of_nat (List.length buffer)))
                 (Z.of_nat ch))
              i HN)
    as (minVal & maxVal & Hcol' & Hmin & Hmax).
  { apply Hwf. apply (nth_error_In _ _ Hch). }
  exists drawn, minVal, maxVal.
  split; [exact Hrun|]. split; [|split; [exact Hmin | exact Hmax]].
  congruence.
Qed.

(** C1, amended.  On a buffer of [numSamples >= 1] samples per channel the
    rasterizer reads no sample outside the buffer, and for every channel
    and every pixel column [i] of [0, width):
    - the sample range is [[trunc (i / W * N), trunc ((i + 1) / W * N))],
      the quotient and the product each rounded to [double], the start
      clamped into [[0, N - 1]] and the end into [[0, N]];
    - the line drawn for the column is the line of the minimum and the
      maximum of the samples of that range, seeded at +1.0 and -1.0;
    - with [width = 1] the single column has the range [[0, N)]. *)
Theorem rasterize_column_envelope
    (width height numSamples : Z) (buffer : Rasterizer.AudioBuffer)
    (ch : nat) (samples : list float) (i : Z) :
  1 <= numSamples < 2 ^ 31 ->
  Forall (fun s => Z.of_nat (List.length s) = numSamples) buffer ->
  nth_error buffer ch = Some samples ->
  0 <= i < width ->
  let channelHeight :=
    Rasterizer.channelHeightOf height (Z.of_nat (List.length buffer)) in
  let midY := Rasterizer.midYOf channelHeight (Z.of_nat ch) in
  let sampleStart := fst (Rasterizer.columnRange width numSamples i) in
  let sampleEnd := snd (Rasterizer.columnRange width numSamples i) in
  sampleStart
  = Juce.jlimit 0 (numSamples - 1)
      (static_cast_int
         (Double.mul (Double.div (Double.of_int i) (Double.of_int width))
                     (Double.of_int numSamples)))
  /\ sampleEnd
     = Juce.jlimit 0 numSamples
         (static_cast_int
            (Double.mul (Double.div (Double.of_int (i + 1)) (Double.of_int width))
                        (Double.of_int numSamples)))
  /\ 0 <= sampleStart <= numSamples - 1
  /\ 0 <= sampleEnd <= numSamples
  /\ (exists drawn minVal maxVal,
        Rasterizer.rasterize width height numSamples buffer = Ok drawn
        /\ nth_error drawn (ch * Z.to_nat width + Z.to_nat i)
           = Some (Rasterizer.envelopeLine channelHeight midY i minVal maxVal)
        /\ Contract.seededMin Single.one
             (Contract.slice samples sampleStart sampleEnd) minVal
        /\ Contract.seededMax Single.minus_one
             (Contract.slice samples sampleStart sampleEnd) maxVal)
  /\ Rasterizer.columnRange 1 numSamples 0 = (0, numSamples).
Proof.
  intros HN Hwf Hch Hi channelHeight midY sampleStart sampleEnd.
  destruct (columnRange_bounds width numSamples i HN) as [Hs He].
  split; [|split; [|split; [exact Hs|split; [exact He|split]]]].
  - unfold sampleStart, Rasterizer.columnRange. cbn [fst].
    rewrite int64_to_int_small by lia. reflexivity.
  - unfold sampleEnd, Rasterizer.columnRange. cbn [snd].
    rewrite int64_to_int_small by lia. reflexivity.
  - exact (rasterize_line_at width height numSamples buffer ch samples i HN Hwf Hch Hi).
  - apply columnRange_single. exact HN.
Qed.

(** The instance of C1 for two columns over the samples 0.5 and -1.0. *)
Lemma rasterize_column_envelope_witness :
  1 <= 2 < 2 ^ 31
  /\ Forall (fun s => Z.of_nat (List.length s) = 2) [[Single.half; Single.minus_one]]
  /\ nth_error [[Single.half; Single.minus_one]] 0 = Some [Single.half; Single.minus_one]
  /\ 0 <= 1 < 2
  /\ (exists drawn minVal maxVal,
        Rasterizer.rasterize 2 2 2 [[Single.half; Single.minus_one]] = Ok drawn
        /\ nth_error drawn (0 * Z.to_nat 2 + Z.to_nat 1)
           = Some (Rasterizer.envelopeLine
                     (Rasterizer.channelHeightOf 2 1)
                     (Rasterizer.midYOf (Rasterizer.channelHeightOf 2 1) 0)
                     1 minVal maxVal)
        /\ Contract.seededMin Single.one
             (Contract.slice [Single.half; Single.minus_one]
                (fst (Rasterizer.columnRange 2 2 1))
                (snd (Rasterizer.columnRange 2 2 1))) minVal
        /\ Contract.seededMax Single.minus_one
             (Contract.slice [Single.half; Single.minus_one]
                (fst (Rasterizer.columnRange 2 2 1))
                (snd (Rasterizer.columnRange 2 2 1))) maxVal).
Proof.
  assert (H1 : 1 <= 2 < 2 ^ 31) by (split; [discriminate | reflexivity]).
  assert (H2 : Forall (fun s => Z.of_nat (List.length s) = 2)
                 [[Single.half; Single.minus_one]])
    by (constructor; [reflexivity | constructor]).
  assert (H3 : nth_error [[Single.half; Single.minus_one]] 0
               = Some [Single.half; Single.minus_one]) by reflexivity.
  assert (H4 : 0 <= 1 < 2) by (split; [discriminate | reflexivity]).
  repeat (split; [assumption|]).
  exact (proj1 (proj2 (proj2 (proj2 (proj2
           (rasterize_column_envelope 2 2 2 [[Single.half; Single.minus_one]]
              0 [Single.half; Single.minus_one] 1 H1 H2 H3 H4)))))).
Defined.

(** C1 as stated fails.  With 49 columns over 49 samples, 1/49 rounded to
    [double] and multiplied by 49 is 0.9999999999999999, which truncates
    to 0, while floor (1/49 * 49) is 1: column 1 starts at sample 0 and
    not at sample 1, and column 0 has the empty range [[0, 0)].  With no
    samples at all, the start of a range is -1, outside [[0, N - 1]]. *)
Lemma columnRange_not_floor :
  Rasterizer.columnRange 49 49 1 = (0, 1)
  /\ Juce.jlimit 0 (49 - 1) (Contract.floorOfShare 1 49 49) = 1
  /\ Rasterizer.columnRange 49 49 0 = (0, 0)
  /\ Juce.jlimit 0 49 (Contract.floorOfShare (0 + 1) 49 49) = 1
  /\ Rasterizer.columnRange 1 0 0 = (-1, 0).
Proof. repeat split; vm_compute; reflexivity. Qed.

(** *** Empty ranges and empty buffers *)

(** C3 fails on the code.  Two columns over one sample: column 0 has the
    empty range [[0, 0)], and the code still calls [drawLine] for it, with
    the seeds for an envelope: a line over the whole height of the band,
    from y = 0 to y = 2, which turns the pixels of column 0 into the
    foreground colour. *)
Theorem empty_range_draws_seed_line :
  let channelHeight := Rasterizer.channelHeightOf 2 1 in
  let midY := Rasterizer.midYOf channelHeight 0 in
  let seedLine := Rasterizer.envelopeLine channelHeight midY 0
                    Single.one Single.minus_one in
  let sampleLine := Rasterizer.envelopeLine channelHeight midY 1
                      (S754_zero false) (S754_zero false) in
  Rasterizer.columnRange 2 1 0 = (0, 0)
  /\ Rasterizer.rasterize 2 2 1 [[S754_zero false]] = Ok [seedLine; sampleLine]
  /\ seedLine = {| Rasterizer.x1 := Single.half; Rasterizer.y1 := S754_zero false;
                   Rasterizer.x2 := Single.half; Rasterizer.y2 := Single.two |}
  /\ let image := {| imageWidth := 2; imageHeight := 2;
                     background := Colours.black; foreground := Colours.white;
                     lines := [seedLine; sampleLine] |} in
     Canvas.pixel image 0 0 = Colours.white
     /\ Canvas.pixel image 0 1 = Colours.white.
Proof. repeat split; vm_compute; reflexivity. Qed.

(** Whenever the range of a column is empty, the line drawn for it is the
    line of the seeds, over the whole height of the band. *)
Lemma rasterize_empty_column
    (width height numSamples : Z) (buffer : Rasterizer.AudioBuffer)
    (ch : nat) (samples : list float) (i : Z) :
  1 <= numSamples < 2 ^ 31 ->
  Forall (fun s => Z.of_nat (List.length s) = numSamples) buffer ->
  nth_error buffer ch = Some samples ->
  0 <= i < width ->
  snd (Rasterizer.columnRange width numSamples i)
    <= fst (Rasterizer.columnRange width numSamples i) ->
  exists drawn,
    Rasterizer.rasterize width height numSamples buffer = Ok drawn
    /\ nth_error drawn (ch * Z.to_nat width + Z.to_nat i)
       = Some (Rasterizer.envelopeLine
                 (Rasterizer.channelHeightOf height (Z.of_nat (List.length buffer)))
                 (Rasterizer.midYOf
                    (Rasterizer.channelHeightOf height (Z.of_nat (List.length buffer)))
                    (Z.of_nat ch))
                 i Single.one Single.minus_one).
Proof.
  intros HN Hwf Hch Hi Hempty.
  destruct (rasterize_lines width height numSamples buffer HN Hwf)
    as (drawn & Hrun & Hnth).
  destruct (Hnth ch samples i Hch Hi) as (l & Hl & Hcol).
  rewrite column_empty_range in Hcol by exact Hempty.
  exists drawn. split; [exact Hrun|]. congruence.
Qed.

(** With no samples at all the first column has the range [[-1, 0)]. *)
Lemma columnRange_empty_buffer (width : Z) :
  1 <= width < 2 ^ 31 ->
  Rasterizer.columnRange width 0 0 = (-1, 0).
Proof.
  intros HW. destruct width as [|p|p]; try lia.
  assert (Hd : Zpos (digits2_pos p) < 53).
  { pose proof (digits2_pos_bound p 31). lia. }
  destruct (Double_of_int_pos p Hd) as (k & _ & Hof & _).
  unfold Rasterizer.columnRange. rewrite Hof.
  change (Double.of_int 0) with (S754_zero false).
  destruct (Double.div (Double.of_int (0 + 1)) (S754_finite false (Pos.iter xO p k) (Zneg k)));
    reflexivity.
Qed.

(** So the rasterizer reads [samples[-1]] as soon as there is a column and
    a channel. *)
Lemma rasterize_empty_buffer (width height : Z) (samples : list float)
    (rest : list (list float)) :
  1 <= width < 2 ^ 31 ->
  Rasterizer.rasterize width height 0 (samples :: rest) = OutOfBounds (-1).
Proof.
  intros HW. unfold Rasterizer.rasterize. cbn [Rasterizer.channels].
  destruct (Z.to_nat width) as [|n] eqn:Hn; [lia|].
  cbn [Rasterizer.columns]. unfold Rasterizer.column.
  rewrite (columnRange_empty_buffer width HW). reflexivity.
Qed.

(** C4 fails on the code.  A file of zero length gives [numSamples = 0];
    the start of every range is then clamped with [jlimit (0, -1, ...)],
    whose bounds are in the wrong order, the first column gets the range
    [[-1, 0)] and the scan reads [samples[-1]], in front of the buffer. *)
Theorem empty_buffer_read_out_of_bounds :
  Resolver.resolveSamples (S754_zero false) (S754_zero false) 0 (Double.of_int 44100)
  = {| Resolver.startSample := 0; Resolver.numSamples := 0 |}
  /\ Juce.jlimit_precondition 0 (int64_to_int 0 - 1) = false
  /\ Rasterizer.columnRange 1920 0 0 = (-1, 0)
  /\ Rasterizer.rasterize 1920 300 0 [[]] = OutOfBounds (-1)
  /\ wmain (Example.environment (Example.mono []) None [] true) Example.commandLine
     = OutOfBounds (-1).
Proof. repeat split; vm_compute; reflexivity. Qed.

(** *** Rounding a product to [float] *)

Lemma shr_1_spec (m : Z) (r s : bool) :
  0 <= m ->
  shr_1 {| shr_m := m; shr_r := r; shr_s := s |}
  = {| shr_m := m / 2; shr_r := Z.odd m; shr_s := r || s |}.
Proof.
  intros Hm. rewrite <- Z.div2_div.
  destruct m as [|p|p]; [reflexivity | destruct p; reflexivity | lia].
Qed.

Lemma shr_iter_spec (m : Z) (k : positive) :
  0 <= m ->
  Pos.iter shr_1 {| shr_m := m; shr_r := false; shr_s := false |} k
  = {| shr_m := m / 2 ^ Zpos k;
       shr_r := Z.odd (m / 2 ^ (Zpos k - 1));
       shr_s := negb (m mod 2 ^ (Zpos k - 1) =? 0) |}.
Proof.
  intros Hm. induction k as [|k IH] using Pos.peano_ind.
  - cbn [Pos.iter]. rewrite shr_1_spec by exact Hm.
    change (2 ^ (1 - 1)) with 1. change (2 ^ 1) with 2.
    rewrite Z.div_1_r, Z.mod_1_r. reflexivity.
  - rewrite Pos.iter_succ, IH.
    assert (Hp : 0 < 2 ^ (Zpos k - 1)) by (apply Z.pow_pos_nonneg; lia).
    assert (Hk : 2 ^ Zpos k = 2 ^ (Zpos k - 1) * 2).
    { replace (Zpos k) with (Z.succ (Zpos k - 1)) at 1 by lia.
      rewrite Z.pow_succ_r by lia. lia. }
    rewrite shr_1_spec by (apply Z.div_pos; [exact Hm | lia]).
    replace (Zpos (Pos.succ k) - 1) with (Zpos k) by lia.
    f_equal.
    + rewrite Z.div_div by lia. f_equal.
      rewrite Pos2Z.inj_succ, Z.pow_succ_r by lia. lia.
    + rewrite Hk at 1. rewrite Z.rem_mul_r by lia.
      pose proof (Z.mod_pos_bound m (2 ^ (Zpos k - 1)) Hp) as Hx.
      rewrite (Zmod_odd (m / 2 ^ (Zpos k - 1))).
      destruct (Z.odd (m / 2 ^ (Zpos k - 1))); cbn [orb].
      * symmetry. apply negb_true_iff, Z.eqb_neq. lia.
      * rewrite Z.mul_0_r, Z.add_0_r. reflexivity.
Qed.

Lemma nearestEven_0 (m : Z) : nearestEven m 0 = m.
Proof.
  unfold nearestEven. change (2 ^ 0) with 1.
  rewrite Z.div_1_r, Z.mod_1_r. reflexivity.
Qed.

(** Shifting out [k] bits and rounding on the bits shifted out is
    rounding [m / 2 ^ k] to the nearest, a tie to the even one. *)
Lemma shr_nearestEven (m : Z) (k : positive) :
  0 <= m ->
  round_nearest_even
    (shr_m (Pos.iter shr_1 {| shr_m := m; shr_r := false; shr_s := false |} k))
    (loc_of_shr_record
       (Pos.iter shr_1 {| shr_m := m; shr_r := false; shr_s := false |} k))
  = nearestEven m (Zpos k).
Proof.
  intros Hm. rewrite shr_iter_spec by exact Hm.
  cbn [shr_m loc_of_shr_record]. unfold nearestEven.
  assert (Hp : 0 < 2 ^ (Zpos k - 1)) by (apply Z.pow_pos_nonneg; lia).
  assert (Hk : 2 ^ Zpos k = 2 ^ (Zpos k - 1) * 2).
  { replace (Zpos k) with (Z.succ (Zpos k - 1)) at 1 by lia.
    rewrite Z.pow_succ_r by lia. lia. }
  pose proof (Z.mod_pos_bound m (2 ^ (Zpos k - 1)) Hp) as Hx.
  assert (Hrem : m mod 2 ^ Zpos k
                 = m mod 2 ^ (Zpos k - 1)
                   + 2 ^ (Zpos k - 1) * (if Z.odd (m / 2 ^ (Zpos k - 1)) then 1 else 0)).
  { rewrite Hk at 1. rewrite Z.rem_mul_r by lia.
    rewrite (Zmod_odd (m / 2 ^ (Zpos k - 1))). reflexivity. }
  rewrite Hrem.
  destruct (Z.odd (m / 2 ^ (Zpos k - 1)));
    destruct (Z.eqb_spec (m mod 2 ^ (Zpos k - 1)) 0) as [Hz|Hz];
    cbn [negb round_nearest_even];
    match goal with
    | |- context [Z.compare ?a ?b] => destruct (Z.compare_spec a b)
    end;
    try reflexivity; lia.
Qed.

Lemma fexp_single (d : Z) : fexp 24 128 d = Z.max (d - 24) (-149).
Proof. reflexivity. Qed.

Lemma digits2_pos_bounds (p : positive) :
  2 ^ (Zpos (digits2_pos p) - 1) <= Zpos p < 2 ^ Zpos (digits2_pos p).
Proof.
  rewrite digits2_pos_size.
  pose proof (Pos.size_le p) as Hle. pose proof (Pos.size_gt p) as Hgt.
  apply Pos2Z.pos_le_pos in Hle. apply Pos2Z.pos_lt_pos in Hgt.
  rewrite Pos2Z.inj_pow in Hle, Hgt.
  change (Zpos p~0) with (2 * Zpos p) in Hle.
  split; [|exact Hgt].
  assert (H2 : 2 ^ Zpos (Pos.size p) = 2 * 2 ^ (Zpos (Pos.size p) - 1)).
  { replace (Zpos (Pos.size p)) with (Z.succ (Zpos (Pos.size p) - 1)) at 1 by lia.
    rewrite Z.pow_succ_r by lia. reflexivity. }
  lia.
Qed.

Lemma digits2_pos_lower (p : positive) (n : Z) :
  2 ^ (n - 1) <= Zpos p -> n <= Zpos (digits2_pos p).
Proof.
  intros Hp. destruct (Z.le_gt_cases n (Zpos (digits2_pos p))) as [|Hgt]; trivial.
  pose proof (digits2_pos_bounds p) as [_ Hd].
  assert (2 ^ Zpos (digits2_pos p) <= 2 ^ (n - 1))
    by (apply Z.pow_le_mono_r; lia).
  lia.
Qed.

Section Nearest_bounds.
Variables (m : positive) (e : Z).
Hypothesis Hdigits : 24 <= Zpos (digits2_pos m).

Lemma exponentOf_ge : e <= exponentOf m e /\ -149 <= exponentOf m e.
Proof. unfold exponentOf. rewrite fexp_single. lia. Qed.

Lemma quotient_bounds :
  0 <= Zpos m / 2 ^ (exponentOf m e - e) < 2 ^ 24
  /\ (exponentOf m e = Zpos (digits2_pos m) + e - 24 ->
      2 ^ 23 <= Zpos m / 2 ^ (exponentOf m e - e)).
Proof.
  destruct exponentOf_ge as [He _].
  pose proof (digits2_pos_bounds m) as [Hlo Hhi].
  assert (Hp : 0 < 2 ^ (exponentOf m e - e)) by (apply Z.pow_pos_nonneg; lia).
  split; [split|].
  - apply Z.div_pos; lia.
  - apply Z.div_lt_upper_bound; [exact Hp|].
    rewrite <- Z.pow_add_r by lia.
    assert (2 ^ Zpos (digits2_pos m) <= 2 ^ (exponentOf m e - e + 24)).
    { apply Z.pow_le_mono_r; [lia|]. unfold exponentOf. rewrite fexp_single. lia. }
    lia.
  - intros Hn. apply Z.div_le_lower_bound; [exact Hp|].
    rewrite <- Z.pow_add_r by lia.
    replace (exponentOf m e - e + 23) with (Zpos (digits2_pos m) - 1) by lia.
    exact Hlo.
Qed.

Lemma nearestEven_quotient (a n : Z) :
  0 <= n ->
  a / 2 ^ n <= nearestEven a n <= a / 2 ^ n + 1.
Proof.
  intros Hn. unfold nearestEven.
  destruct (Z.compare (2 * (a mod 2 ^ n)) (2 ^ n)); [destruct (Z.even _)| |]; lia.
Qed.

Lemma nearestEven_bounds :
  0 <= nearestEven (Zpos m) (exponentOf m e - e) <= 2 ^ 24
  /\ (exponentOf m e = Zpos (digits2_pos m) + e - 24 ->
      2 ^ 23 <= nearestEven (Zpos m) (exponentOf m e - e)).
Proof.
  destruct exponentOf_ge as [He _].
  destruct quotient_bounds as [Hq Hq'].
  pose proof (nearestEven_quotient (Zpos m) (exponentOf m e - e)) as Hr.
  split; [lia|]. intros Hn. specialize (Hq' Hn). lia.
Qed.

End Nearest_bounds.

(** The first step of rounding: the bits below the exponent of the format
    are shifted out and the mantissa is rounded on them. *)
Lemma shr_fexp_nearestEven (m : positive) (e : Z) :
  24 <= Zpos (digits2_pos m) ->
  exists mrs,
    shr_fexp 24 128 (Zpos m) e loc_Exact = (mrs, exponentOf m e)
    /\ round_nearest_even (shr_m mrs) (loc_of_shr_record mrs)
       = nearestEven (Zpos m) (exponentOf m e - e).
Proof.
  intros Hd. destruct (exponentOf_ge m e Hd) as [He _].
  unfold shr_fexp. cbn [Zdigits2 shr_record_of_loc].
  fold (exponentOf m e).
  destruct (exponentOf m e - e) as [|k|k] eqn:Hn; [| |lia].
  - eexists. split.
    + cbn [shr]. f_equal. lia.
    + cbn [shr_m loc_of_shr_record round_nearest_even].
      rewrite nearestEven_0. reflexivity.
  - eexists. split.
    + cbn [shr]. f_equal. lia.
    + rewrite iter_pos_eq. apply shr_nearestEven. lia.
Qed.

(** The second step: a mantissa that the rounding has carried to [2 ^ 24]
    is halved, any other one is left. *)
Lemma shr_fexp_carry (r E : Z) :
  0 <= r <= 2 ^ 24 -> -149 <= E ->
  exists mrs e',
    shr_fexp 24 128 r E loc_Exact = (mrs, e')
    /\ (shr_m mrs, e') = (if r =? 2 ^ 24 then (2 ^ 23, E + 1) else (r, E)).
Proof.
  intros Hr HE. unfold shr_fexp. cbn [shr_record_of_loc].
  destruct (Z.eqb_spec r (2 ^ 24)) as [->|Hne].
  - change (Zdigits2 (2 ^ 24)) with 25. rewrite fexp_single.
    replace (Z.max (25 + E - 24) (-149) - E) with 1 by lia.
    eexists. eexists. split; [reflexivity|]. cbn [shr_m]. f_equal. 
  - assert (Hd : Zdigits2 r <= 24).
    { destruct r as [|p|p]; [cbn; lia | | lia].
      cbn [Zdigits2]. apply digits2_pos_bound; lia. }
    rewrite fexp_single.
    destruct (Z.max (Zdigits2 r + E - 24) (-149) - E) as [|k|k] eqn:Hn; [| lia |];
      eexists; eexists; split; reflexivity.
Qed.

(** Rounding a product or an integer to [float]. *)
Lemma binary_round_aux_rounded (s : bool) (m : positive) (e : Z) :
  24 <= Zpos (digits2_pos m) ->
  binary_round_aux 24 128 s (Zpos m) e loc_Exact = pack s (rounded m e).
Proof.
  intros Hd.
  destruct (shr_fexp_nearestEven m e Hd) as (mrs & Hs1 & Hr).
  destruct (nearestEven_bounds m e Hd) as [Hb _].
  destruct (exponentOf_ge m e Hd) as [_ HE].
  destruct (shr_fexp_carry _ (exponentOf m e) Hb HE) as (mrs' & e' & Hs2 & Hfin).
  unfold binary_round_aux. rewrite Hs1, Hr, Hs2.
  unfold rounded. rewrite <- Hfin. reflexivity.
Qed.

(** *** Rounding keeps the order *)

Lemma nearestEven_scale (a n k : Z) :
  0 <= n -> 0 <= k -> nearestEven (a * 2 ^ k) (n + k) = nearestEven a n.
Proof.
  intros Hn Hk. unfold nearestEven.
  assert (Hpn : 0 < 2 ^ n) by (apply Z.pow_pos_nonneg; lia).
  assert (Hpk : 0 < 2 ^ k) by (apply Z.pow_pos_nonneg; lia).
  rewrite Z.pow_add_r by lia.
  rewrite Z.div_mul_cancel_r, Z.mul_mod_distr_r by lia.
  replace (2 * (a mod 2 ^ n * 2 ^ k)) with (2 * (a mod 2 ^ n) * 2 ^ k) by ring.
  rewrite <- Zmult_compare_compat_r by lia. reflexivity.
Qed.

Lemma nearestEven_le (a b n : Z) :
  0 <= n -> a <= b -> nearestEven a n <= nearestEven b n.
Proof.
  intros Hn Hab. unfold nearestEven.
  assert (Hp : 0 < 2 ^ n) by (apply Z.pow_pos_nonneg; lia).
  pose proof (Z.div_mod a (2 ^ n) ltac:(lia)) as Ha.
  pose proof (Z.div_mod b (2 ^ n) ltac:(lia)) as Hb.
  pose proof (Z.mod_pos_bound a (2 ^ n) Hp) as Hra.
  pose proof (Z.mod_pos_bound b (2 ^ n) Hp) as Hrb.
  pose proof (Z.div_le_mono a b (2 ^ n) Hp Hab) as Hq.
  set (D := 2 ^ n) in *.
  set (qa := a / D) in *. set (qb := b / D) in *.
  set (ra := a mod D) in *. set (rb := b mod D) in *.
  clearbody qa qb ra rb D.
  destruct (Z.eq_dec qa qb) as [->|Hne].
  - destruct (Z.compare_spec (2 * ra) D), (Z.compare_spec (2 * rb) D);
      destruct (Z.even qb); lia.
  - destruct (Z.compare_spec (2 * ra) D), (Z.compare_spec (2 * rb) D);
      destruct (Z.even qa), (Z.even qb); lia.
Qed.

Lemma nearestEven_mono (a b n1 n2 : Z) :
  0 <= n1 -> 0 <= n2 -> a * 2 ^ n2 <= b * 2 ^ n1 ->
  nearestEven a n1 <= nearestEven b n2.
Proof.
  intros H1 H2 Hab.
  rewrite <- (nearestEven_scale a n1 n2), <- (nearestEven_scale b n2 n1) by lia.
  rewrite (Z.add_comm n2 n1). apply nearestEven_le; lia.
Qed.

(** The larger number has no fewer digits in front of the point. *)
Lemma below_digits (m1 m2 : positive) (e1 e2 : Z) :
  below (Zpos m1) e1 (Zpos m2) e2 ->
  Zpos (digits2_pos m1) + e1 <= Zpos (digits2_pos m2) + e2.
Proof.
  unfold below. intros H.
  pose proof (digits2_pos_bounds m1) as [Hlo _].
  pose proof (digits2_pos_bounds m2) as [_ Hhi].
  set (k := Z.min e1 e2) in *.
  assert (Hk1 : 0 <= e1 - k) by (unfold k; lia).
  assert (Hk2 : 0 <= e2 - k) by (unfold k; lia).
  assert (Hp1 : 0 < 2 ^ (e1 - k)) by (apply Z.pow_pos_nonneg; lia).
  assert (Hp2 : 0 < 2 ^ (e2 - k)) by (apply Z.pow_pos_nonneg; lia).
  assert (Hlt : 2 ^ (Zpos (digits2_pos m1) - 1 + (e1 - k))
                < 2 ^ (Zpos (digits2_pos m2) + (e2 - k))).
  { rewrite !Z.pow_add_r by lia.
    apply Z.le_lt_trans with (Zpos m1 * 2 ^ (e1 - k)).
    - apply Z.mul_le_mono_nonneg_r; lia.
    - apply Z.le_lt_trans with (Zpos m2 * 2 ^ (e2 - k)); [exact H|].
      apply Z.mul_lt_mono_pos_r; lia. }
  apply Z.pow_lt_mono_r_iff in Hlt; lia.
Qed.

Lemma rounded_mono (m1 m2 : positive) (e1 e2 : Z) :
  24 <= Zpos (digits2_pos m1) -> 24 <= Zpos (digits2_pos m2) ->
  below (Zpos m1) e1 (Zpos m2) e2 ->
  packedBelow (rounded m1 e1) (rounded m2 e2).
Proof.
  intros Hd1 Hd2 Hle.
  pose proof (below_digits _ _ _ _ Hle) as Hdig.
  destruct (nearestEven_bounds m1 e1 Hd1) as [Hb1 _].
  destruct (nearestEven_bounds m2 e2 Hd2) as [Hb2 Hn2].
  destruct (exponentOf_ge m1 e1 Hd1) as [He1 Hmin1].
  destruct (exponentOf_ge m2 e2 Hd2) as [He2 Hmin2].
  assert (HE : exponentOf m1 e1 <= exponentOf m2 e2).
  { unfold exponentOf. rewrite !fexp_single. lia. }
  assert (Hsame : exponentOf m1 e1 = exponentOf m2 e2 ->
                  nearestEven (Zpos m1) (exponentOf m1 e1 - e1)
                  <= nearestEven (Zpos m2) (exponentOf m2 e2 - e2)).
  { intros Heq. apply nearestEven_mono; [lia | lia |].
    unfold below in Hle.
    set (k := Z.min e1 e2) in *.
    set (t := exponentOf m2 e2 - Z.max e1 e2).
    assert (Ht : 0 <= t) by (unfold t; lia).
    replace (exponentOf m2 e2 - e2) with (e1 - k + t) by (unfold t, k; lia).
    replace (exponentOf m1 e1 - e1) with (e2 - k + t) by (unfold t, k; lia).
    rewrite !Z.pow_add_r by (unfold k; lia).
    rewrite !Z.mul_assoc.
    apply Z.mul_le_mono_nonneg_r; [apply Z.pow_nonneg; lia | exact Hle]. }
  assert (Hnormal : exponentOf m1 e1 < exponentOf m2 e2 ->
                    2 ^ 23 <= nearestEven (Zpos m2) (exponentOf m2 e2 - e2)).
  { intros Hlt. apply Hn2. unfold exponentOf in *. rewrite !fexp_single in *. lia. }
  unfold rounded, packedBelow.
  destruct (Z.eqb_spec (nearestEven (Zpos m1) (exponentOf m1 e1 - e1)) (2 ^ 24)) as [H1|H1];
    destruct (Z.eqb_spec (nearestEven (Zpos m2) (exponentOf m2 e2 - e2)) (2 ^ 24)) as [H2|H2];
    cbn [fst snd];
    change (2 ^ 23) with 8388608 in *; change (2 ^ 24) with 16777216 in *;
    destruct (Z.eq_dec (exponentOf m1 e1) (exponentOf m2 e2)) as [Heq|Hne];
    try (specialize (Hsame Heq)); try (assert (Hlt : exponentOf m1 e1 < exponentOf m2 e2) by lia;
                                       specialize (Hnormal Hlt));
    lia.
Qed.

(** The order of the pairs is the order of the numbers packed from them. *)
Lemma pack_order (a b : Z * Z) :
  0 <= fst a -> 0 <= fst b -> packedBelow a b ->
  SFltb (pack false b) (pack false a) = false.
Proof.
  destruct a as [m1 x1], b as [m2 x2]. unfold packedBelow, pack. cbn [fst snd].
  intros H1 H2 H.
  destruct m1 as [|p1|p1], m2 as [|p2|p2]; try lia; try reflexivity;
    destruct (Z.leb_spec x1 104), (Z.leb_spec x2 104);
    unfold SFltb; cbn [SFcompare]; try reflexivity; try lia;
    order_cases; lia.
Qed.

Lemma rounded_nonneg (m : positive) (e : Z) :
  24 <= Zpos (digits2_pos m) -> 0 <= fst (rounded m e).
Proof.
  intros Hd. destruct (nearestEven_bounds m e Hd) as [Hb _].
  unfold rounded.
  destruct (Z.eqb_spec (nearestEven (Zpos m) (exponentOf m e - e)) (2 ^ 24));
    cbn [fst]; lia.
Qed.

(** Above the subnormal range the rounded mantissa has 24 bits. *)
Lemma rounded_normal (m : positive) (e : Z) :
  24 <= Zpos (digits2_pos m) ->
  -149 <= Zpos (digits2_pos m) + e - 24 ->
  2 ^ 23 <= fst (rounded m e) < 2 ^ 24
  /\ Zpos (digits2_pos m) + e - 24 <= snd (rounded m e)
     <= Zpos (digits2_pos m) + e - 23.
Proof.
  intros Hd Hn.
  assert (HE : exponentOf m e = Zpos (digits2_pos m) + e - 24).
  { unfold exponentOf. rewrite fexp_single. lia. }
  destruct (nearestEven_bounds m e Hd) as [Hb Hlow]. specialize (Hlow HE).
  unfold rounded.
  change (2 ^ 23) with 8388608 in *. change (2 ^ 24) with 16777216 in *.
  destruct (Z.eqb_spec (nearestEven (Zpos m) (exponentOf m e - e)) 16777216);
    cbn [fst snd]; lia.
Qed.

Lemma packedBelow_below (m1 x1 m2 x2 : Z) :
  2 ^ 23 <= m1 < 2 ^ 24 -> 2 ^ 23 <= m2 < 2 ^ 24 ->
  packedBelow (m1, x1) (m2, x2) -> below m1 x1 m2 x2.
Proof.
  unfold packedBelow, below. cbn [fst snd].
  change (2 ^ 23) with 8388608. change (2 ^ 24) with 16777216.
  intros H1 H2 [H|[_ [Hlt|[-> Hle]]]]; [lia| |].
  - rewrite Z.min_l by lia. rewrite Z.sub_diag. change (2 ^ 0) with 1.
    assert (2 ^ 1 <= 2 ^ (x2 - x1)) by (apply Z.pow_le_mono_r; lia).
    change (2 ^ 1) with 2 in *. nia.
  - rewrite Z.min_id, Z.sub_diag. lia.
Qed.

Lemma below_mul (a b c e1 e2 eh : Z) :
  0 <= c -> below a e1 b e2 -> below (a * c) (e1 + eh) (b * c) (e2 + eh).
Proof.
  unfold below. intros Hc H. rewrite Z.add_min_distr_r.
  replace (e1 + eh - (Z.min e1 e2 + eh)) with (e1 - Z.min e1 e2) by lia.
  replace (e2 + eh - (Z.min e1 e2 + eh)) with (e2 - Z.min e1 e2) by lia.
  nia.
Qed.

(** The conversion of a positive [int] to [float]. *)
Lemma of_int_rounded (p : positive) :
  exists mz ez,
    Single.of_int (Zpos p) = pack false (rounded mz ez)
    /\ 24 <= Zpos (digits2_pos mz)
    /\ ez <= 0
    /\ Zpos mz = Zpos p * 2 ^ (- ez)
    /\ Zpos (digits2_pos mz) + ez = Zpos (digits2_pos p)
    /\ ez = Z.min 0 (Zpos (digits2_pos p) - 24).
Proof.
  unfold Single.of_int, Single.prec, Single.emax, binary_normalize, binary_round, shl_align.
  rewrite fexp_single.
  destruct (Z.max (Zpos (digits2_pos p) + 0 - 24) (-149) - 0) as [|k|k] eqn:Hk.
  - exists p, 0. split; [apply binary_round_aux_rounded; lia|].
    repeat split; try lia.
  - exists p, 0. split; [apply binary_round_aux_rounded; lia|].
    repeat split; try lia.
  - assert (Hz : Z.max (Zpos (digits2_pos p) + 0 - 24) (-149) = Zneg k) by lia.
    rewrite Hz.
    exists (Pos.iter xO p k), (Zneg k).
    assert (Hd : Zpos (digits2_pos (Pos.iter xO p k)) = Zpos (digits2_pos p) + Zpos k)
      by (rewrite digits2_pos_shift; lia).
    split; [apply binary_round_aux_rounded; lia|].
    repeat split; try lia.
    rewrite Zpos_shift. reflexivity.
Qed.

(** A positive [int] becomes a normal number, and a larger [int] a number
    that is not smaller. *)
Lemma of_int_normal (p : positive) :
  Zpos p < 2 ^ 31 ->
  exists mz ez m x,
    Single.of_int (Zpos p) = S754_finite false m x
    /\ rounded mz ez = (Zpos m, x)
    /\ 24 <= Zpos (digits2_pos mz)
    /\ ez <= 0 /\ Zpos mz = Zpos p * 2 ^ (- ez)
    /\ 2 ^ 23 <= Zpos m < 2 ^ 24.
Proof.
  intros Hp.
  destruct (of_int_rounded p) as (mz & ez & Hof & Hd & Hez & Hval & Hdig & _).
  pose proof (digits2_pos_bound p 31 ltac:(lia) Hp) as Hd31.
  destruct (rounded_normal mz ez Hd ltac:(lia)) as [Hm Hx].
  destruct (rounded mz ez) as [m x] eqn:Hr. cbn [fst snd] in *.
  change (2 ^ 23) with 8388608 in *. change (2 ^ 24) with 16777216 in *.
  destruct m as [|m|m]; try lia.
  exists mz, ez, m, x. rewrite Hof. unfold pack. cbn [fst snd].
  replace (x <=? 104) with true by (symmetry; apply Z.leb_le; lia).
  repeat split; trivial; lia.
Qed.

Lemma of_int_mono (p p' : positive) (m m' : positive) (x x' : Z) :
  (p <= p')%positive -> Zpos p' < 2 ^ 31 ->
  Single.of_int (Zpos p) = S754_finite false m x ->
  Single.of_int (Zpos p') = S754_finite false m' x' ->
  2 ^ 23 <= Zpos m < 2 ^ 24 /\ 2 ^ 23 <= Zpos m' < 2 ^ 24
  /\ below (Zpos m) x (Zpos m') x'.
Proof.
  intros Hle Hp' Hof Hof'.
  destruct (of_int_normal p ltac:(lia))
    as (mz & ez & m0 & x0 & Hof0 & Hr & Hd & Hez & Hval & Hm).
  destruct (of_int_normal p' Hp')
    as (mz' & ez' & m0' & x0' & Hof0' & Hr' & Hd' & Hez' & Hval' & Hm').
  rewrite Hof in Hof0. injection Hof0 as <- <-.
  rewrite Hof' in Hof0'. injection Hof0' as <- <-.
  split; [exact Hm|]. split; [exact Hm'|].
  apply packedBelow_below; trivial.
  rewrite <- Hr, <- Hr'. apply rounded_mono; trivial.
  unfold below. rewrite Hval, Hval'.
  set (k := Z.min ez ez').
  assert (Hk : k <= 0) by (unfold k; lia).
  rewrite <- !Z.mul_assoc, <- !Z.pow_add_r by (unfold k; lia).
  replace (- ez + (ez - k)) with (- k) by lia.
  replace (- ez' + (ez' - k)) with (- k) by lia.
  apply Z.mul_le_mono_nonneg_r; [apply Z.pow_nonneg; lia | lia].
Qed.

Lemma mul_rounded (m mh : positive) (x eh : Z) :
  2 ^ 23 <= Zpos m ->
  Single.mul (S754_finite false m x) (S754_finite false mh eh)
  = pack false (rounded (m * mh) (x + eh))
  /\ 24 <= Zpos (digits2_pos (m * mh)).
Proof.
  intros Hm.
  assert (Hd : 24 <= Zpos (digits2_pos (m * mh))).
  { apply digits2_pos_lower. rewrite Pos2Z.inj_mul.
    change (2 ^ (24 - 1)) with 8388608. change (2 ^ 23) with 8388608 in Hm. nia. }
  split; [|exact Hd].
  unfold Single.mul, Single.prec, Single.emax, SFmul. cbn [xorb].
  apply binary_round_aux_rounded. exact Hd.
Qed.

(** The products of a height with two channel indices are in the order of
    the indices. *)
Lemma mul_of_int_mono (p p' : positive) (mh : positive) (eh : Z) :
  (p <= p')%positive -> Zpos p' < 2 ^ 31 ->
  SFltb (Single.mul (Single.of_int (Zpos p')) (S754_finite false mh eh))
        (Single.mul (Single.of_int (Zpos p)) (S754_finite false mh eh))
  = false.
Proof.
  intros Hle Hp'.
  destruct (of_int_normal p ltac:(lia)) as (_ & _ & m & x & Hof & _).
  destruct (of_int_normal p' Hp') as (_ & _ & m' & x' & Hof' & _).
  destruct (of_int_mono p p' m m' x x' Hle Hp' Hof Hof') as (Hm & Hm' & Hbelow).
  rewrite Hof, Hof'.
  destruct (mul_rounded m mh x eh (proj1 Hm)) as [-> Hd].
  destruct (mul_rounded m' mh x' eh (proj1 Hm')) as [-> Hd'].
  apply pack_order; try (apply rounded_nonneg; assumption).
  apply rounded_mono; trivial.
  rewrite !Pos2Z.inj_mul. apply below_mul; [lia | exact Hbelow].
Qed.


Lemma binary_round_aux_nonneg (m e : Z) (l : location) :
  nonneg_float (binary_round_aux 24 128 false m e l).
Proof.
  unfold binary_round_aux.
  destruct (shr_fexp 24 128 m e l) as [mrs' e'].
  destruct (shr_fexp 24 128 _ e' loc_Exact) as [mrs'' e''].
  destruct (shr_m mrs''); [reflexivity | | exact I].
  destruct (e'' <=? 128 - 24); reflexivity.
Qed.

Lemma of_int_nonneg (n : Z) : 0 <= n -> nonneg_float (Single.of_int n).
Proof.
  intros Hn. destruct n as [|p|p]; [reflexivity | | lia].
  unfold Single.of_int, binary_normalize, binary_round.
  destruct (shl_align _ _ _) as [mz ez]. apply binary_round_aux_nonneg.
Qed.

Lemma div_nonneg (x y : spec_float) :
  nonneg_float x -> nonneg_float y -> nonneg_float (Single.div x y).
Proof.
  unfold Single.div, Single.prec, Single.emax, SFdiv.
  destruct x as [sx|sx| |sx mx ex], y as [sy|sy| |sy my ey]; cbn [nonneg_float];
    intros Hx Hy; subst; trivial.
  destruct (SFdiv_core_binary 24 128 (Zpos mx) ex (Zpos my) ey) as [[mz ez] lz].
  apply binary_round_aux_nonneg.
Qed.

Lemma mul_nonneg (x y : spec_float) :
  nonneg_float x -> nonneg_float y -> nonneg_float (Single.mul x y).
Proof.
  unfold Single.mul, Single.prec, Single.emax, SFmul.
  destruct x as [sx|sx| |sx mx ex], y as [sy|sy| |sy my ey]; cbn [nonneg_float];
    intros Hx Hy; subst; trivial.
  apply binary_round_aux_nonneg.
Qed.

(** The band tops never decrease with the channel index. *)
Lemma topOf_mono (h : spec_float) (c c' : Z) :
  nonneg_float h -> 0 <= c <= c' -> c' < 2 ^ 31 ->
  SFltb (Rasterizer.topOf h c') (Rasterizer.topOf h c) = false.
Proof.
  intros Hh Hc Hc'. unfold Rasterizer.topOf.
  destruct c as [|p|p]; [|destruct c' as [|p'|p']|]; try lia.
  - change (Single.of_int 0) with (S754_zero false).
    pose proof (mul_nonneg (Single.of_int c') h (of_int_nonneg c' ltac:(lia)) Hh) as Hn.
    destruct (Single.mul (Single.of_int c') h) as [s|s| |s m e];
      destruct h as [sh|sh| |sh mh eh]; cbn in *; subst; try reflexivity.
  - destruct (of_int_normal p ltac:(lia)) as (_ & _ & m & x & Hof & _).
    destruct (of_int_normal p' Hc') as (_ & _ & m' & x' & Hof' & _).
    destruct h as [sh|sh| |sh mh eh]; cbn [nonneg_float] in Hh; subst.
    + rewrite Hof, Hof'. reflexivity.
    + rewrite Hof, Hof'. reflexivity.
    + rewrite Hof, Hof'. reflexivity.
    + apply mul_of_int_mono; lia.
Qed.

(** *** The overlap of neighbouring bands *)

Lemma shr_iter_m (mrs : shr_record) (k : positive) :
  0 <= shr_m mrs -> shr_m (Pos.iter shr_1 mrs k) = shr_m mrs / 2 ^ Zpos k.
Proof.
  intros Hm. induction k as [|k IH] using Pos.peano_ind.
  - cbn [Pos.iter]. destruct mrs as [m r s]. cbn [shr_m] in *.
    rewrite shr_1_spec by exact Hm. reflexivity.
  - rewrite Pos.iter_succ.
    destruct (Pos.iter shr_1 mrs k) as [m r s]. cbn [shr_m] in IH.
    assert (Hp : 0 < 2 ^ Zpos k) by (apply Z.pow_pos_nonneg; lia).
    rewrite shr_1_spec by (rewrite IH; apply Z.div_pos; lia).
    cbn [shr_m]. rewrite IH, Z.div_div by lia. f_equal.
    rewrite Pos2Z.inj_succ, Z.pow_succ_r by lia. lia.
Qed.

Lemma round_nearest_even_range (x : Z) (l : location) :
  x <= round_nearest_even x l <= x + 1.
Proof.
  destruct l as [|[]]; cbn [round_nearest_even]; try lia.
  destruct (Z.even x); lia.
Qed.

(** Rounding a number that is neither subnormal nor too large gives a
    mantissa of 24 bits, whatever the bits that were lost before. *)
Lemma binary_round_aux_shape (s : bool) (q : positive) (e : Z) (l : location) :
  24 <= Zpos (digits2_pos q) ->
  -149 <= Zpos (digits2_pos q) + e - 24 ->
  Zpos (digits2_pos q) + e - 23 <= 104 ->
  exists m x,
    binary_round_aux 24 128 s (Zpos q) e l = S754_finite s m x
    /\ 2 ^ 23 <= Zpos m < 2 ^ 24
    /\ Zpos (digits2_pos q) + e - 24 <= x <= Zpos (digits2_pos q) + e - 23.
Proof.
  intros Hd Hlow Hhigh.
  pose proof (digits2_pos_bounds q) as [Hqlo Hqhi].
  set (n := Zpos (digits2_pos q) - 24) in *.
  assert (Hp : 0 < 2 ^ n) by (apply Z.pow_pos_nonneg; lia).
  assert (Hquot : 2 ^ 23 <= Zpos q / 2 ^ n < 2 ^ 24).
  { split.
    - apply Z.div_le_lower_bound; [exact Hp|].
      rewrite <- Z.pow_add_r by lia.
      replace (n + 23) with (Zpos (digits2_pos q) - 1) by lia. exact Hqlo.
    - apply Z.div_lt_upper_bound; [exact Hp|].
      rewrite <- Z.pow_add_r by lia.
      replace (n + 24) with (Zpos (digits2_pos q)) by lia. exact Hqhi. }
  assert (Hs1 : exists mrs,
             shr_fexp 24 128 (Zpos q) e l = (mrs, Zpos (digits2_pos q) + e - 24)
             /\ shr_m mrs = Zpos q / 2 ^ n).
  { unfold shr_fexp. cbn [Zdigits2]. rewrite fexp_single.
    replace (Z.max (Zpos (digits2_pos q) + e - 24) (-149) - e) with n by lia.
    unfold shr. destruct n as [|k|k] eqn:Hn; [| |lia].
    - eexists. split; [f_equal; lia|].
      change (2 ^ 0) with 1. rewrite Z.div_1_r.
      destruct l as [|[]]; reflexivity.
    - eexists. split; [f_equal; lia|].
      rewrite iter_pos_eq, shr_iter_m; destruct l as [|[]]; cbn [shr_record_of_loc shr_m];
        first [reflexivity | lia]. }
  destruct Hs1 as (mrs & Hs1 & Hm).
  pose proof (round_nearest_even_range (shr_m mrs) (loc_of_shr_record mrs)) as Hr.
  rewrite Hm in Hr.
  change (2 ^ 23) with 8388608 in *. change (2 ^ 24) with 16777216 in *.
  destruct (shr_fexp_carry (round_nearest_even (shr_m mrs) (loc_of_shr_record mrs))
              (Zpos (digits2_pos q) + e - 24))
    as (mrs' & e' & Hs2 & Hfin).
  { change (2 ^ 24) with 16777216. rewrite Hm. lia. }
  { lia. }
  unfold binary_round_aux. rewrite Hs1, Hs2.
  change (2 ^ 23) with 8388608 in *. change (2 ^ 24) with 16777216 in *.
  destruct (Z.eqb_spec (round_nearest_even (shr_m mrs) (loc_of_shr_record mrs)) 16777216)
    as [Heq|Hne];
    pose proof (f_equal fst Hfin) as Hm'; pose proof (f_equal snd Hfin) as He';
    cbn [fst snd] in Hm', He'; rewrite Hm'.
  - exists 8388608%positive, e'.
    replace (e' <=? 128 - 24) with true by (symmetry; apply Z.leb_le; lia).
    repeat split; lia.
  - rewrite Hm in *.
    destruct (round_nearest_even (Zpos q / 2 ^ n) (loc_of_shr_record mrs))
      as [|m|m] eqn:Hround; try lia.
    exists m, e'.
    replace (e' <=? 128 - 24) with true by (symmetry; apply Z.leb_le; lia).
    repeat split; lia.
Qed.

Lemma digits2_pos_eq (p : positive) (n : Z) :
  2 ^ (n - 1) <= Zpos p < 2 ^ n -> Zpos (digits2_pos p) = n.
Proof.
  intros [Hlo Hhi].
  pose proof (digits2_pos_lower p n Hlo).
  assert (0 <= n).
  { destruct (Z.le_gt_cases 0 n); trivial.
    rewrite Z.pow_neg_r in Hhi by lia. lia. }
  pose proof (digits2_pos_bound p n ltac:(lia) Hhi). lia.
Qed.

(** An [int] converts to a normal number with an exponent from -23 to 8. *)
Lemma of_int_shape (p : positive) :
  Zpos p < 2 ^ 31 ->
  exists m x,
    Single.of_int (Zpos p) = S754_finite false m x
    /\ 2 ^ 23 <= Zpos m < 2 ^ 24 /\ -23 <= x <= 8.
Proof.
  intros Hp.
  destruct (of_int_rounded p) as (mz & ez & Hof & Hd & Hez & Hval & Hdig & _).
  pose proof (digits2_pos_bound p 31 ltac:(lia) Hp) as Hd31.
  destruct (rounded_normal mz ez Hd ltac:(lia)) as [Hm Hx].
  destruct (rounded mz ez) as [m x] eqn:Hr. cbn [fst snd] in *.
  change (2 ^ 23) with 8388608 in *. change (2 ^ 24) with 16777216 in *.
  destruct m as [|m|m]; try lia.
  exists m, x. rewrite Hof. unfold pack. cbn [fst snd].
  replace (x <=? 104) with true by (symmetry; apply Z.leb_le; lia).
  repeat split; lia.
Qed.

(** An [int] below [2 ^ 24] converts without rounding. *)
Lemma of_int_exact (p : positive) :
  Zpos p < 2 ^ 24 ->
  exists m x,
    Single.of_int (Zpos p) = S754_finite false m x
    /\ x = Zpos (digits2_pos p) - 24
    /\ Zpos m = Zpos p * 2 ^ (- x)
    /\ 2 ^ 23 <= Zpos m < 2 ^ 24.
Proof.
  intros Hp.
  destruct (of_int_rounded p) as (mz & ez & Hof & Hd & Hez & Hval & Hdig & Hmin).
  pose proof (digits2_pos_bound p 24 ltac:(lia) Hp) as Hd24.
  assert (Hx : ez = Zpos (digits2_pos p) - 24) by lia.
  assert (Hdz : Zpos (digits2_pos mz) = 24) by lia.
  pose proof (digits2_pos_bounds mz) as Hb. rewrite Hdz in Hb.
  change (2 ^ (24 - 1)) with 8388608 in Hb. change (2 ^ 24) with 16777216 in *.
  change (2 ^ 23) with 8388608.
  assert (Hr : rounded mz ez = (Zpos mz, ez)).
  { unfold rounded, exponentOf. rewrite fexp_single, Hdz.
    replace (Z.max (24 + ez - 24) (-149)) with ez by lia.
    rewrite Z.sub_diag, nearestEven_0.
    change (2 ^ 24) with 16777216.
    replace (Zpos mz =? 16777216) with false by (symmetry; apply Z.eqb_neq; lia).
    reflexivity. }
  exists mz, ez. rewrite Hof, Hr. unfold pack. cbn [fst snd].
  replace (ez <=? 104) with true by (symmetry; apply Z.leb_le; lia).
  repeat split; trivial; lia.
Qed.

(** The height of a band is a normal number. *)
Lemma channelHeightOf_shape (height numChannels : Z) :
  1 <= height < 2 ^ 31 -> 1 <= numChannels < 2 ^ 31 ->
  exists mh eh,
    Rasterizer.channelHeightOf height numChannels = S754_finite false mh eh
    /\ 2 ^ 23 <= Zpos mh < 2 ^ 24 /\ -55 <= eh <= 9.
Proof.
  intros HH HC.
  destruct height as [|ph|ph]; try lia. destruct numChannels as [|pc|pc]; try lia.
  destruct (of_int_shape ph ltac:(lia)) as (m1 & x1 & Hof1 & Hm1 & Hx1).
  destruct (of_int_shape pc ltac:(lia)) as (m2 & x2 & Hof2 & Hm2 & Hx2).
  unfold Rasterizer.channelHeightOf. rewrite Hof1, Hof2.
  unfold Single.div, Single.prec, Single.emax, SFdiv, SFdiv_core_binary.
  cbn [Zdigits2 xorb].
  rewrite (digits2_pos_eq m1 24), (digits2_pos_eq m2 24) by exact Hm1 || exact Hm2.
  rewrite fexp_single.
  replace (Z.min (Z.max (24 + x1 - (24 + x2) - 24) (-149)) (x1 - x2))
    with (x1 - x2 - 24) by lia.
  replace (x1 - x2 - (x1 - x2 - 24)) with 24 by lia.
  cbv beta iota zeta.
  rewrite Z.shiftl_mul_pow2 by lia.
  change (2 ^ 23) with 8388608 in *. change (2 ^ 24) with 16777216 in *.
  destruct (Z.div_eucl (Zpos m1 * 16777216) (Zpos m2)) as [q r] eqn:Hdiv.
  assert (Hq : q = Zpos m1 * 16777216 / Zpos m2).
  { unfold Z.div. rewrite Hdiv. reflexivity. }
  assert (Hqb : 2 ^ 23 <= q < 2 ^ 25).
  { change (2 ^ 23) with 8388608. change (2 ^ 25) with 33554432. rewrite Hq. split.
    - apply Z.div_le_lower_bound; lia.
    - apply Z.div_lt_upper_bound; lia. }
  destruct q as [|pq|pq]; try (change (2 ^ 23) with 8388608 in Hqb; lia).
  assert (Hdq : 24 <= Zpos (digits2_pos pq) <= 25).
  { split; [apply digits2_pos_lower; apply Hqb | apply digits2_pos_bound; lia]. }
  destruct (binary_round_aux_shape false pq (x1 - x2 - 24) (new_location (Zpos m2) r))
    as (mh & eh & Hround & Hmh & Heh); try lia.
  exists mh, eh. split; [exact Hround|]. split; [exact Hmh | lia].
Qed.

(** Rounding to the nearest moves a number by at most half a unit. *)
Lemma nearestEven_error (m n : Z) :
  0 <= n -> 2 * Z.abs (nearestEven m n * 2 ^ n - m) <= 2 ^ n.
Proof.
  intros Hn. unfold nearestEven.
  assert (Hp : 0 < 2 ^ n) by (apply Z.pow_pos_nonneg; lia).
  pose proof (Z.div_mod m (2 ^ n) ltac:(lia)) as Hm.
  pose proof (Z.mod_pos_bound m (2 ^ n) Hp) as Hr.
  set (D := 2 ^ n) in *. set (q := m / D) in *. set (r := m mod D) in *.
  clearbody q r D.
  destruct (Z.compare_spec (2 * r) D); [destruct (Z.even q)| |]; nia.
Qed.

(** The product of a channel index below [2 ^ 24] and a normal band
    height, in units of [2 ^ (x + eh)], [x] being the exponent of the
    index: the top [t * 2 ^ xt] is the exact product [m * mh] moved by at
    most half of [2 ^ E], and [t] has 24 bits. *)
Lemma mul_of_int_value (p mh : positive) (eh : Z) :
  Zpos p < 2 ^ 24 -> 2 ^ 23 <= Zpos mh < 2 ^ 24 -> -100 <= eh <= 50 ->
  exists m x t xt E,
    Single.of_int (Zpos p) = S754_finite false m x
    /\ x = Zpos (digits2_pos p) - 24
    /\ Zpos m = Zpos p * 2 ^ (- x)
    /\ Single.mul (Single.of_int (Zpos p)) (S754_finite false mh eh)
       = S754_finite false t xt
    /\ E = exponentOf (m * mh) (x + eh)
    /\ x + eh <= E <= xt
    /\ 2 ^ 23 <= Zpos t < 2 ^ 24
    /\ 2 * Z.abs (Zpos t * 2 ^ (xt - (x + eh)) - Zpos m * Zpos mh) <= 2 ^ (E - (x + eh)).
Proof.
  intros Hp Hmh Heh.
  destruct (of_int_exact p Hp) as (m & x & Hof & Hx & Hval & Hm).
  pose proof (digits2_pos_bound p 24 ltac:(lia) Hp) as Hd24.
  assert (Hdp : 1 <= Zpos (digits2_pos p)) by lia.
  destruct (mul_rounded m mh x eh (proj1 Hm)) as [Hmul Hd].
  change (2 ^ 23) with 8388608 in *. change (2 ^ 24) with 16777216 in *.
  assert (Hd48 : Zpos (digits2_pos (m * mh)) <= 48).
  { apply digits2_pos_bound; [lia|]. rewrite Pos2Z.inj_mul.
    change (2 ^ 48) with (16777216 * 16777216). nia. }
  assert (HE : exponentOf (m * mh) (x + eh)
               = Zpos (digits2_pos (m * mh)) + (x + eh) - 24).
  { unfold exponentOf. rewrite fexp_single. lia. }
  pose proof (nearestEven_error (Zpos (m * mh))
                (exponentOf (m * mh) (x + eh) - (x + eh)) ltac:(lia)) as Herr.
  destruct (nearestEven_bounds (m * mh) (x + eh) Hd) as [Hb Hlow].
  specialize (Hlow HE).
  change (2 ^ 23) with 8388608 in *. change (2 ^ 24) with 16777216 in *.
  exists m, x.
  unfold rounded in Hmul.
  destruct (Z.eqb_spec (nearestEven (Zpos (m * mh)) (exponentOf (m * mh) (x + eh) - (x + eh)))
              (2 ^ 24)) as [Hcarry|Hno].
  - exists 8388608%positive, (exponentOf (m * mh) (x + eh) + 1),
      (exponentOf (m * mh) (x + eh)).
    rewrite Hof. split; [reflexivity|]. split; [exact Hx|]. split; [exact Hval|].
    split.
    { rewrite Hmul. unfold pack. cbn [fst snd].
      change (2 ^ 23) with 8388608.
      replace (exponentOf (m * mh) (x + eh) + 1 <=? 104) with true
        by (symmetry; apply Z.leb_le; lia).
      reflexivity. }
    split; [reflexivity|]. split; [lia|]. split; [lia|].
    rewrite Hcarry in Herr. change (2 ^ 24) with 16777216 in Herr.
    replace (exponentOf (m * mh) (x + eh) + 1 - (x + eh))
      with (Z.succ (exponentOf (m * mh) (x + eh) - (x + eh))) by lia.
    rewrite Z.pow_succ_r by lia.
    rewrite Pos2Z.inj_mul in Herr.
    replace (Zpos 8388608 * (2 * 2 ^ (exponentOf (m * mh) (x + eh) - (x + eh))))
      with (16777216 * 2 ^ (exponentOf (m * mh) (x + eh) - (x + eh))) by ring.
    exact Herr.
  - change (2 ^ 24) with 16777216 in Hno.
    destruct (nearestEven (Zpos (m * mh)) (exponentOf (m * mh) (x + eh) - (x + eh)))
      as [|t|t] eqn:Hr; try lia.
    exists t, (exponentOf (m * mh) (x + eh)), (exponentOf (m * mh) (x + eh)).
    rewrite Hof. split; [reflexivity|]. split; [exact Hx|]. split; [exact Hval|].
    split.
    { rewrite Hmul. unfold pack. cbn [fst snd].
      replace (exponentOf (m * mh) (x + eh) <=? 104) with true
        by (symmetry; apply Z.leb_le; lia).
      reflexivity. }
    split; [reflexivity|]. split; [lia|]. split; [lia|].
    rewrite Pos2Z.inj_mul in Herr. exact Herr.
Qed.

Lemma digits2_pos_le (p q : positive) :
  (p <= q)%positive -> Zpos (digits2_pos p) <= Zpos (digits2_pos q).
Proof.
  intros Hle. apply digits2_pos_lower.
  pose proof (digits2_pos_bounds p) as [Hlo _]. lia.
Qed.

(** In units of [2 ^ s], the top of band [c] plus the band height exceeds
    the top of band [c + 1] by at most [2 ^ -23] of that top. *)
Lemma tops_overlap_units (p mh : positive) (eh : Z) :
  Zpos p + 1 < 2 ^ 24 -> 2 ^ 23 <= Zpos mh < 2 ^ 24 -> -100 <= eh <= 50 ->
  exists s t xt t' xt',
    Single.mul (Single.of_int (Zpos p)) (S754_finite false mh eh)
    = S754_finite false t xt
    /\ Single.mul (Single.of_int (Zpos p + 1)) (S754_finite false mh eh)
       = S754_finite false t' xt'
    /\ s <= xt /\ s <= xt' /\ s <= eh
    /\ 2 ^ 23 * (Zpos t * 2 ^ (xt - s) + Zpos mh * 2 ^ (eh - s) - Zpos t' * 2 ^ (xt' - s))
       <= Zpos t' * 2 ^ (xt' - s).
Proof.
  intros Hp Hmh Heh.
  destruct (mul_of_int_value p mh eh ltac:(lia) Hmh Heh)
    as (m & x & t & xt & E & Hof & Hx & Hval & Hmul & HE & HEr & Ht & Herr).
  destruct (mul_of_int_value (p + 1) mh eh ltac:(lia) Hmh Heh)
    as (m' & x' & t' & xt' & E' & Hof' & Hx' & Hval' & Hmul' & HE' & HEr' & Ht' & Herr').
  rewrite Pos2Z.inj_add in Hval', Hmul'.
  pose proof (digits2_pos_le p (p + 1) ltac:(lia)) as Hdle.
  pose proof (digits2_pos_bound p 24 ltac:(lia) ltac:(lia)) as Hd24.
  pose proof (digits2_pos_bound (p + 1) 24 ltac:(lia) ltac:(lia)) as Hd24'.
  assert (Hxx : x <= x') by lia.
  assert (Hx0 : x <= 0) by lia.
  assert (Hx0' : x' <= 0) by lia.
  exists (x + eh), t, xt, t', xt'.
  split; [exact Hmul|]. split; [exact Hmul'|].
  split; [lia|]. split; [lia|]. split; [lia|].
  replace (eh - (x + eh)) with (- x) by lia.
  replace (xt' - (x + eh)) with (xt' - (x' + eh) + (x' - x)) by lia.
  rewrite Z.pow_add_r by lia.
  set (D := 2 ^ (x' - x)).
  set (T := Zpos t * 2 ^ (xt - (x + eh))) in *.
  set (T0 := Zpos t' * 2 ^ (xt' - (x' + eh))) in *.
  set (Hh := Zpos mh * 2 ^ (- x)).
  set (G := 2 ^ (E - (x + eh))) in *.
  set (G' := 2 ^ (E' - (x' + eh))) in *.
  assert (HD : 0 < D) by (apply Z.pow_pos_nonneg; lia).
  assert (HA : Zpos m' * Zpos mh * D = Zpos m * Zpos mh + Hh).
  { unfold Hh, D. rewrite Hval, Hval'.
    replace (- x) with (- x' + (x' - x)) by lia.
    rewrite Z.pow_add_r by lia. ring. }
  assert (HG : G <= G' * D).
  { unfold G, G', D. rewrite <- Z.pow_add_r by lia.
    apply Z.pow_le_mono_r; [lia|].
    assert (Hbelow : below (Zpos (m * mh)) (x + eh) (Zpos (m' * mh)) (x' + eh)).
    { unfold below. rewrite Z.min_l by lia. rewrite Z.sub_diag.
      replace (x' + eh - (x + eh)) with (x' - x) by lia.
      fold D. rewrite !Pos2Z.inj_mul. change (2 ^ 0) with 1.
      assert (0 <= Hh) by (unfold Hh; apply Z.mul_nonneg_nonneg;
                           [lia | apply Z.pow_nonneg; lia]).
      lia. }
    pose proof (below_digits _ _ _ _ Hbelow) as Hdig.
    assert (E <= E').
    { rewrite HE, HE'. unfold exponentOf. rewrite !fexp_single. lia. }
    lia. }
  assert (HT : 2 ^ 23 * G' <= T0).
  { unfold T0, G'.
    assert (2 ^ (E' - (x' + eh)) <= 2 ^ (xt' - (x' + eh)))
      by (apply Z.pow_le_mono_r; lia).
    assert (0 < 2 ^ (E' - (x' + eh))) by (apply Z.pow_pos_nonneg; lia).
    change (2 ^ 23) with 8388608 in *. nia. }
  assert (H1 : 2 * (T - Zpos m * Zpos mh) <= G) by lia.
  assert (H2 : 2 * (Zpos m' * Zpos mh * D - T0 * D) <= G' * D).
  { assert (2 * (Zpos m' * Zpos mh - T0) <= G') by lia. nia. }
  assert (H3 : 2 ^ 23 * (G' * D) <= T0 * D).
  { change (2 ^ 23) with 8388608 in *. nia. }
  rewrite Z.mul_assoc. fold T0.
  change (2 ^ 23) with 8388608 in *. lia.
Qed.

(** The value of a positive number in units of [2 ^ s]. *)
Lemma SF2Q_units (m : positive) (e s : Z) :
  s <= e ->
  (SF2Q (S754_finite false m e)
   == inject_Z (Zpos m * 2 ^ (e - s)) * SF2Q (S754_finite false 1 s))%Q.
Proof.
  intros Hs.
  destruct s as [|k|k].
  - rewrite Z.sub_0_r.
    destruct e as [|j|j]; try lia; cbn [SF2Q cond_Zopp];
      rewrite <- inject_Z_mult; change (2 ^ 0) with 1; rewrite ?Z.mul_1_r, ?Z.mul_1_l;
      reflexivity.
  - destruct e as [|j|j]; try lia. cbn [SF2Q cond_Zopp].
    rewrite <- inject_Z_mult, Z.mul_1_l, <- Z.mul_assoc, <- Z.pow_add_r by lia.
    replace (Zpos j - Zpos k + Zpos k) with (Zpos j) by lia. reflexivity.
  - assert (Hk : Zpos (1 * 2 ^ k) = 2 ^ Zpos k)
      by (rewrite Pos.mul_1_l; apply Pos2Z.inj_pow).
    destruct e as [|j|j]; cbn [SF2Q cond_Zopp]; unfold Qeq; cbn [Qnum Qden Qmult inject_Z];
      rewrite Hk, !Z.mul_1_r.
    + change (2 ^ 0) with 1. change (0 - Zneg k) with (Zpos k). ring.
    + replace (Zpos j - Zneg k) with (Zpos j + Zpos k) by lia.
      rewrite Z.pow_add_r by lia. ring.
    + rewrite Pos2Z.inj_pow, <- Z.mul_assoc, <- Z.pow_add_r by lia.
      f_equal. f_equal. lia.
Qed.

Lemma SF2Q_unit_pos (s : Z) : (0 <= SF2Q (S754_finite false 1 s))%Q.
Proof.
  destruct s as [|k|k]; cbn [SF2Q cond_Zopp]; unfold Qle; cbn [Qnum Qden inject_Z];
    lia.
Qed.

(** Neighbouring bands overlap by at most [2 ^ -23] of the top of the
    lower one. *)
Lemma tops_overlap (height numChannels c : Z) :
  1 <= height < 2 ^ 31 -> 1 <= numChannels < 2 ^ 31 -> 0 <= c -> c + 1 < 2 ^ 24 ->
  (SF2Q (Rasterizer.topOf (Rasterizer.channelHeightOf height numChannels) c)
   + SF2Q (Rasterizer.channelHeightOf height numChannels)
   - SF2Q (Rasterizer.topOf (Rasterizer.channelHeightOf height numChannels) (c + 1))
   <= SF2Q (Rasterizer.topOf (Rasterizer.channelHeightOf height numChannels) (c + 1))
      * (1 # 8388608))%Q.
Proof.
  intros HH HC Hc Hc'.
  destruct (channelHeightOf_shape height numChannels HH HC) as (mh & eh & -> & Hmh & Heh).
  unfold Rasterizer.topOf.
  destruct c as [|p|p]; [| |lia].
  - change (Single.of_int 0) with (S754_zero false).
    change (Single.mul (S754_zero false) (S754_finite false mh eh)) with (S754_zero false).
    change (0 + 1) with 1.
    change (Single.of_int 1) with (S754_finite false 8388608 (-23)).
    unfold Single.mul, Single.prec, Single.emax, SFmul. cbn [xorb].
    change (8388608 * mh)%positive with (Pos.iter xO mh 23).
    replace (-23 + eh) with (eh - 23) by lia.
    rewrite (binary_round_aux_shifted 24 128).
    + cbn [SF2Q]. 
      assert (H0 : (0 <= SF2Q (S754_finite false mh eh) * (1 # 8388608))%Q).
      { rewrite (SF2Q_units mh eh eh) by lia.
        apply Qmult_le_0_compat; [|discriminate].
        apply Qmult_le_0_compat; [|apply SF2Q_unit_pos].
        unfold Qle. cbn [Qnum Qden inject_Z]. rewrite Z.sub_diag. lia. }
      setoid_replace (0 + SF2Q (S754_finite false mh eh) - SF2Q (S754_finite false mh eh))%Q
        with 0%Q by ring.
      exact H0.
    + unfold canonical_mantissa. rewrite fexp_single.
      rewrite (digits2_pos_eq mh 24) by exact Hmh. apply Z.eqb_eq. lia.
    + lia.
  - destruct (tops_overlap_units p mh eh Hc' Hmh ltac:(lia))
      as (s & t & xt & t' & xt' & -> & -> & Hs1 & Hs2 & Hs3 & Hbound).
    rewrite (SF2Q_units t xt s), (SF2Q_units t' xt' s), (SF2Q_units mh eh s) by assumption.
    set (U := SF2Q (S754_finite false 1 s)).
    setoid_replace (inject_Z (Zpos t * 2 ^ (xt - s)) * U
                    + inject_Z (Zpos mh * 2 ^ (eh - s)) * U
                    - inject_Z (Zpos t' * 2 ^ (xt' - s)) * U)%Q
      with (inject_Z (Zpos t * 2 ^ (xt - s) + Zpos mh * 2 ^ (eh - s)
                      - Zpos t' * 2 ^ (xt' - s)) * U)%Q
      by (unfold Z.sub; rewrite !inject_Z_plus, inject_Z_opp; ring).
    setoid_replace (inject_Z (Zpos t' * 2 ^ (xt' - s)) * U * (1 # 8388608))%Q
      with (inject_Z (Zpos t' * 2 ^ (xt' - s)) * (1 # 8388608) * U)%Q by ring.
    apply Qmult_le_compat_r; [|apply SF2Q_unit_pos].
    unfold Qle. cbn [Qnum Qden Qmult inject_Z].
    change (2 ^ 23) with 8388608 in Hbound. lia.
Qed.

(** *** Channel bands *)

(** C5, amended.  With [C >= 1] channels and height [H], channel [ch] has
    the band of height [channelHeight = H / C] whose top is
    [ch * channelHeight] and whose centre is
    [midY = top + channelHeight / 2], each operation rounded to [float].
    The line drawn for column [i] of channel [ch] is the vertical line at
    [i + 0.5] from [midY - minVal * (channelHeight / 2)] to
    [midY - maxVal * (channelHeight / 2)], where [minVal] and [maxVal] are
    the minimum and the maximum of the samples of that channel in the
    range of the column, seeded at +1.0 and -1.0.
    The bands are stacked from top to bottom: for a height that is not
    negative, the top of a band is never above the top of a band of a
    smaller index.  Neighbouring bands are disjoint up to the rounding of
    the tops: for a height from 1, band [c] reaches below the top of band
    [c + 1] by at most [2 ^ -23] of that top.
    For H = 300 and C = 2 the bands are [[0, 150)] and [[150, 300)], they
    share no ordinate, and their centres are 75 and 225. *)
Theorem channel_band_layout
    (width height numSamples : Z) (buffer : Rasterizer.AudioBuffer)
    (ch : nat) (samples : list float) (i : Z) :
  1 <= numSamples < 2 ^ 31 ->
  Forall (fun s => Z.of_nat (List.length s) = numSamples) buffer ->
  nth_error buffer ch = Some samples ->
  0 <= i < width ->
  let numChannels := Z.of_nat (List.length buffer) in
  let channelHeight := Single.div (Single.of_int height) (Single.of_int numChannels) in
  let top := Single.mul (Single.of_int (Z.of_nat ch)) channelHeight in
  let midY := Single.add top (Single.div channelHeight Single.two) in
  let sampleStart := fst (Rasterizer.columnRange width numSamples i) in
  let sampleEnd := snd (Rasterizer.columnRange width numSamples i) in
  1 <= numChannels
  /\ (exists drawn minVal maxVal,
        Rasterizer.rasterize width height numSamples buffer = Ok drawn
        /\ nth_error drawn (ch * Z.to_nat width + Z.to_nat i)
           = Some {| Rasterizer.x1 := Single.add (Single.of_int i) Single.half;
                     Rasterizer.y1 :=
                       Single.sub midY
                         (Single.mul minVal (Single.div channelHeight Single.two));
                     Rasterizer.x2 := Single.add (Single.of_int i) Single.half;
                     Rasterizer.y2 :=
                       Single.sub midY
                         (Single.mul maxVal (Single.div channelHeight Single.two)) |}
        /\ Contract.seededMin Single.one
             (Contract.slice samples sampleStart sampleEnd) minVal
        /\ Contract.seededMax Single.minus_one
             (Contract.slice samples sampleStart sampleEnd) maxVal)
  /\ (0 <= height ->
      forall c c', 0 <= c <= c' -> c' < 2 ^ 31 ->
        SFltb (Single.mul (Single.of_int c') channelHeight)
              (Single.mul (Single.of_int c) channelHeight) = false)
  /\ (1 <= height < 2 ^ 31 -> numChannels < 2 ^ 31 ->
      forall c, 0 <= c -> c + 1 < 2 ^ 24 ->
        (SF2Q (Single.mul (Single.of_int c) channelHeight) + SF2Q channelHeight
         - SF2Q (Single.mul (Single.of_int (c + 1)) channelHeight)
         <= SF2Q (Single.mul (Single.of_int (c + 1)) channelHeight) * (1 # 8388608))%Q)
  /\ Rasterizer.channelHeightOf 300 2 = Single.of_int 150
  /\ Rasterizer.topOf (Rasterizer.channelHeightOf 300 2) 0 = Single.of_int 0
  /\ Rasterizer.topOf (Rasterizer.channelHeightOf 300 2) 1 = Single.of_int 150
  /\ Rasterizer.midYOf (Rasterizer.channelHeightOf 300 2) 0 = Single.of_int 75
  /\ Rasterizer.midYOf (Rasterizer.channelHeightOf 300 2) 1 = Single.of_int 225
  /\ (forall y, ~ (Contract.inBand 300 2 0 y /\ Contract.inBand 300 2 1 y)).
Proof.
  intros HN Hwf Hch Hi numChannels channelHeight top midY sampleStart sampleEnd.
  split.
  { unfold numChannels. destruct buffer; [destruct ch; discriminate | simpl; lia]. }
  split.
  { exact (rasterize_line_at width height numSamples buffer ch samples i
             HN Hwf Hch Hi). }
  split.
  { intros Hheight c c' Hc Hc'.
    apply (topOf_mono channelHeight c c'); [|exact Hc|exact Hc'].
    apply div_nonneg; apply of_int_nonneg; [exact Hheight | unfold numChannels; lia]. }
  assert (Hchannels : 1 <= numChannels).
  { unfold numChannels. destruct buffer; [destruct ch; discriminate | simpl; lia]. }
  split.
  { intros Hheight Hmany c Hc Hc'.
    exact (tops_overlap height numChannels c Hheight (conj Hchannels Hmany) Hc Hc'). }
  repeat (split; [vm_compute; reflexivity|]).
  intros y [[_ H0] [H1 _]].
  change (SF2Q (Rasterizer.topOf (Rasterizer.channelHeightOf 300 2) 0)
          + SF2Q (Rasterizer.channelHeightOf 300 2))%Q
    with (0 + (9830400 # 65536))%Q in H0.
  change (SF2Q (Rasterizer.topOf (Rasterizer.channelHeightOf 300 2) 1))
    with (9830400 # 65536)%Q in H1.
  rewrite Qplus_0_l in H0.
  exact (Qlt_not_le _ _ H0 H1).
Qed.

(** The instance of C5 for two channels of two samples on a canvas of
    width 1 and height 300: the line of channel 1 has the centre 225 of
    the second band and runs from 225 - 0.5 * 75 = 187.5 to
    225 - 1.0 * 75 = 150, as 0.5 is the only minimum and 1.0 the only
    maximum of its samples; the top of band 1 is not above the top of
    band 0, and band 0 does not reach below the top of band 1 by more
    than [2 ^ -23] of it. *)
Lemma channel_band_layout_witness :
  1 <= 2 < 2 ^ 31
  /\ Forall (fun s => Z.of_nat (List.length s) = 2)
       [[Single.half; Single.minus_one]; [Single.half; Single.one]]
  /\ nth_error [[Single.half; Single.minus_one]; [Single.half; Single.one]] 1
     = Some [Single.half; Single.one]
  /\ 0 <= 0 < 1
  /\ (exists drawn minVal maxVal,
       Rasterizer.rasterize 1 300 2
         [[Single.half; Single.minus_one]; [Single.half; Single.one]] = Ok drawn
       /\ nth_error drawn (1 * Z.to_nat 1 + Z.to_nat 0)
          = Some {| Rasterizer.x1 := Single.add (Single.of_int 0) Single.half;
                    Rasterizer.y1 :=
                      Single.sub
                        (Single.add
                           (Single.mul (Single.of_int 1)
                              (Single.div (Single.of_int 300) (Single.of_int 2)))
                           (Single.div
                              (Single.div (Single.of_int 300) (Single.of_int 2))
                              Single.two))
                        (Single.mul minVal
                           (Single.div
                              (Single.div (Single.of_int 300) (Single.of_int 2))
                              Single.two));
                    Rasterizer.x2 := Single.add (Single.of_int 0) Single.half;
                    Rasterizer.y2 :=
                      Single.sub
                        (Single.add
                           (Single.mul (Single.of_int 1)
                              (Single.div (Single.of_int 300) (Single.of_int 2)))
                           (Single.div
                              (Single.div (Single.of_int 300) (Single.of_int 2))
                              Single.two))
                        (Single.mul maxVal
                           (Single.div
                              (Single.div (Single.of_int 300) (Single.of_int 2))
                              Single.two)) |}
       /\ Contract.seededMin Single.one [Single.half; Single.one] minVal
       /\ Contract.seededMax Single.minus_one [Single.half; Single.one] maxVal)
  /\ SFltb (Single.mul (Single.of_int 1)
              (Single.div (Single.of_int 300) (Single.of_int 2)))
           (Single.mul (Single.of_int 0)
              (Single.div (Single.of_int 300) (Single.of_int 2)))
     = false
  /\ (SF2Q (Single.mul (Single.of_int 0)
              (Single.div (Single.of_int 300) (Single.of_int 2)))
      + SF2Q (Single.div (Single.of_int 300) (Single.of_int 2))
      - SF2Q (Single.mul (Single.of_int (0 + 1))
                (Single.div (Single.of_int 300) (Single.of_int 2)))
      <= SF2Q (Single.mul (Single.of_int (0 + 1))
                 (Single.div (Single.of_int 300) (Single.of_int 2)))
         * (1 # 8388608))%Q.
Proof.
  set (buffer := [[Single.half; Single.minus_one]; [Single.half; Single.one]]).
  assert (H1 : 1 <= 2 < 2 ^ 31) by (split; [discriminate | reflexivity]).
  assert (H2 : Forall (fun s => Z.of_nat (List.length s) = 2) buffer)
    by (repeat constructor).
  assert (H3 : nth_error buffer 1 = Some [Single.half; Single.one]) by reflexivity.
  assert (H4 : 0 <= 0 < 1) by (split; [discriminate | reflexivity]).
  repeat (split; [assumption|]).
  pose proof (channel_band_layout 1 300 2 buffer 1 [Single.half; Single.one] 0
                H1 H2 H3 H4) as Hlayout.
  cbv zeta in Hlayout.
  destruct Hlayout as (_ & Hline & Hstack & Hbound & _).
  split; [exact Hline|]. split.
  - apply Hstack; [discriminate | split; discriminate | reflexivity].
  - apply Hbound; [split; [discriminate | reflexivity] | reflexivity
                  | discriminate | reflexivity].
Defined.

(** C5 as stated fails.  With H = 100 and C = 6 the channel height is
    16.66666603..., the top of band 3 is 3 * 16.66666603... rounded to
    [float], which is 50, and the top of band 4 is 66.66666412...: band 3
    ends at 66.66666603..., below which band 4 has already begun.  The
    top of band 4 is an ordinate of both bands.  The lines drawn show the
    same: for the extreme samples +1.0 and -1.0, the line of channel 5
    begins above the end of the line of channel 4. *)
Lemma bands_overlap :
  SF2Q (Rasterizer.channelHeightOf 100 6) == 8738133 # 524288
  /\ SF2Q (Rasterizer.topOf (Rasterizer.channelHeightOf 100 6) 3) == 50
  /\ SF2Q (Rasterizer.topOf (Rasterizer.channelHeightOf 100 6) 4) == 8738133 # 131072
  /\ Contract.inBand 100 6 3 (SF2Q (Rasterizer.topOf (Rasterizer.channelHeightOf 100 6) 4))
  /\ Contract.inBand 100 6 4 (SF2Q (Rasterizer.topOf (Rasterizer.channelHeightOf 100 6) 4))
  /\ SFltb
       (Rasterizer.y1
          (Rasterizer.envelopeLine (Rasterizer.channelHeightOf 100 6)
             (Rasterizer.midYOf (Rasterizer.channelHeightOf 100 6) 5) 0
             Single.one Single.minus_one))
       (Rasterizer.y2
          (Rasterizer.envelopeLine (Rasterizer.channelHeightOf 100 6)
             (Rasterizer.midYOf (Rasterizer.channelHeightOf 100 6) 4) 0
             Single.one Single.minus_one))
     = true.
Proof.
  unfold Contract.inBand.
  repeat split; vm_compute; first [reflexivity | discriminate].
Qed.

(** *** Colour arguments *)

Lemma lor_shift_digit (result d : Z) :
  0 <= result -> 0 <= d < 16 -> Z.lor (Z.shiftl result 4) d = 16 * result + d.
Proof.
  intros Hr Hd.
  assert (Hland : Z.land (Z.shiftl result 4) d = 0).
  { apply Z.bits_inj'. intros n Hn. rewrite Z.land_spec, Z.bits_0.
    destruct (Z.ltb_spec n 4) as [Hlt|Hge].
    - rewrite Z.shiftl_spec_low by lia. reflexivity.
    - destruct (Z.eq_dec d 0) as [->|Hnz].
      + rewrite Z.bits_0. apply andb_false_r.
      + rewrite (Z.bits_above_log2 d n); [apply andb_false_r | lia |].
        assert (Z.log2 d < 4) by (apply Z.log2_lt_pow2; lia). lia. }
  rewrite <- (Z.lxor_lor _ _ Hland), <- (Z.add_nocarry_lxor _ _ Hland).
  rewrite Z.shiftl_mul_pow2 by lia. lia.
Qed.

(** The table of the digits and the arithmetic of [getHexDigitValue] give
    the same value to every character. *)
Lemma getHexDigitValue_digit (c : ascii) :
  JuceString.getHexDigitValue c
  = match HexContract.digit c with Some d => d | None => -1 end.
Proof.
  destruct c as [[] [] [] [] [] [] [] []]; reflexivity.
Qed.

Lemma digit_range (c : ascii) (d : Z) : HexContract.digit c = Some d -> 0 <= d < 16.
Proof.
  destruct c as [[] [] [] [] [] [] [] []]; vm_compute; intros H;
    first [discriminate H | injection H as <-; split; [discriminate | reflexivity]].
Qed.

(** Two characters give the number spelled by their hexadecimal digits,
    which fits a byte. *)
Lemma getHexValue32_two (a b : ascii) :
  JuceString.getHexValue32 (String a (String b EmptyString)) = HexContract.component a b
  /\ 0 <= HexContract.component a b < 256.
Proof.
  unfold JuceString.getHexValue32, HexContract.component, HexContract.positional.
  cbn [JuceString.hexParse HexContract.hexDigits].
  rewrite !getHexDigitValue_digit.
  destruct (HexContract.digit a) as [x|] eqn:Ha;
    destruct (HexContract.digit b) as [y|] eqn:Hb;
    try (pose proof (digit_range _ _ Ha)); try (pose proof (digit_range _ _ Hb)).
  - replace (0 <=? x) with true by (symmetry; apply Z.leb_le; lia).
    replace (0 <=? y) with true by (symmetry; apply Z.leb_le; lia).
    cbn [fold_left]. rewrite (lor_shift_digit 0) by lia.
    rewrite (int64_to_int_small (16 * 0 + _)) by lia.
    rewrite lor_shift_digit by lia.
    rewrite int64_to_int_small by lia. lia.
  - replace (0 <=? x) with true by (symmetry; apply Z.leb_le; lia).
    replace (0 <=? -1) with false by reflexivity.
    cbn [fold_left]. rewrite lor_shift_digit by lia.
    rewrite int64_to_int_small by lia. lia.
  - replace (0 <=? y) with true by (symmetry; apply Z.leb_le; lia).
    replace (0 <=? -1) with false by reflexivity.
    cbn [fold_left]. rewrite lor_shift_digit by lia.
    rewrite int64_to_int_small by lia. lia.
  - simpl. lia.
Qed.

Lemma eight_characters (hex : string) :
  String.length hex = 8%nat ->
  exists c1 c2 c3 c4 c5 c6 c7 c8,
    hex = String c1 (String c2 (String c3 (String c4
            (String c5 (String c6 (String c7 (String c8 EmptyString))))))).
Proof.
  intros H.
  do 8 (destruct hex as [|? hex]; [discriminate|]).
  destruct hex; [|discriminate].
  repeat eexists.
Qed.

Lemma parseHexColor_components (c1 c2 c3 c4 c5 c6 c7 c8 : ascii) :
  parseHexColor
    (String c1 (String c2 (String c3 (String c4
       (String c5 (String c6 (String c7 (String c8 EmptyString))))))))
  = HexContract.colour c1 c2 c3 c4 c5 c6 c7 c8.
Proof.
  unfold parseHexColor, HexContract.colour, fromRGBA.
  cbn [String.length Nat.eqb negb JuceString.substring String.substring Nat.sub].
  destruct (getHexValue32_two c1 c2) as [-> ?].
  destruct (getHexValue32_two c3 c4) as [-> ?].
  destruct (getHexValue32_two c5 c6) as [-> ?].
  destruct (getHexValue32_two c7 c8) as [-> ?].
  rewrite !Z.mod_small by assumption. reflexivity.
Qed.

(** C10.  A string of exactly 8 characters always parses to a colour,
    never to an error: with [r1 r2 g1 g2 b1 b2 a1 a2] its characters in
    order, the red component is the number spelled by the hexadecimal
    digits among [r1 r2], the green one by those among [g1 g2], the blue
    one by those among [b1 b2] and alpha by those among [a1 a2], every
    other character being stepped over; a string without any hexadecimal
    digit gives (0, 0, 0, 0), as [zzzzzzzz] does; [1E1E1EFF] gives
    (30, 30, 30, 255) and [0x12 g4F] gives (0, 18, 0, 79).  The command
    line takes the colour and goes on to the next argument, whatever the
    characters. *)
Theorem parseHexColor_never_rejects (hex : string) :
  String.length hex = 8%nat ->
  (exists r1 r2 g1 g2 b1 b2 a1 a2,
     hex = String r1 (String r2 (String g1 (String g2
             (String b1 (String b2 (String a1 (String a2 EmptyString)))))))
     /\ parseHexColor hex = HexContract.colour r1 r2 g1 g2 b1 b2 a1 a2)
  /\ (HexContract.withoutDigit hex ->
      parseHexColor hex = {| red := 0; green := 0; blue := 0; alpha := 0 |})
  /\ parseHexColor "zzzzzzzz" = {| red := 0; green := 0; blue := 0; alpha := 0 |}
  /\ parseHexColor "1E1E1EFF" = {| red := 30; green := 30; blue := 30; alpha := 255 |}
  /\ parseHexColor "0x12 g4F" = {| red := 0; green := 18; blue := 0; alpha := 79 |}
  /\ (forall toDouble rest o,
        parseArguments toDouble ("-b" :: hex :: rest) o
        = parseArguments toDouble rest
            {| inputFile := inputFile o; outputFile := outputFile o;
               startTime := startTime o; endTime := endTime o;
               width := width o; height := height o;
               bgColor := parseHexColor hex; fgColor := fgColor o |})
  /\ (forall toDouble rest o,
        parseArguments toDouble ("-f" :: hex :: rest) o
        = parseArguments toDouble rest
            {| inputFile := inputFile o; outputFile := outputFile o;
               startTime := startTime o; endTime := endTime o;
               width := width o; height := height o;
               bgColor := bgColor o; fgColor := parseHexColor hex |}).
Proof.
  intros H.
  destruct (eight_characters hex H)
    as (c1 & c2 & c3 & c4 & c5 & c6 & c7 & c8 & ->).
  split.
  { exists c1, c2, c3, c4, c5, c6, c7, c8.
    split; [reflexivity | apply parseHexColor_components]. }
  split.
  { cbn [HexContract.withoutDigit].
    intros (H1 & H2 & H3 & H4 & H5 & H6 & H7 & H8 & _).
    rewrite parseHexColor_components.
    unfold HexContract.colour, HexContract.component.
    cbn [HexContract.hexDigits].
    rewrite H1, H2, H3, H4, H5, H6, H7, H8. reflexivity. }
  repeat split; reflexivity.
Qed.

(** The instance of C10 for the string [12 g4Fx7]: red is 0x12, green is
    0 as neither the space nor [g] is a digit, blue is 0x4F, and alpha is
    7 as [x] is stepped over. *)
Lemma parseHexColor_never_rejects_witness :
  String.length "12 g4Fx7" = 8%nat
  /\ parseHexColor "12 g4Fx7"
     = HexContract.colour "1" "2" " " "g" "4" "F" "x" "7"
  /\ HexContract.colour "1" "2" " " "g" "4" "F" "x" "7"
     = {| red := 18; green := 0; blue := 79; alpha := 7 |}.
Proof.
  split; [reflexivity|].
  destruct (proj1 (parseHexColor_never_rejects "12 g4Fx7" eq_refl))
    as (r1 & r2 & g1 & g2 & b1 & b2 & a1 & a2 & Hchars & Hcolour).
  split; [|reflexivity].
  rewrite Hcolour. clear Hcolour.
  inversion Hchars. reflexivity.
Defined.

(** C8, amended.  A colour argument whose length is not 8 raises no
    error: [parseHexColor] returns opaque black for it, and the command
    line takes that colour and goes on to the next argument. *)
Theorem parseHexColor_wrong_length (hex : string) :
  String.length hex <> 8%nat ->
  parseHexColor hex = Colours.black
  /\ (forall toDouble rest o,
        parseArguments toDouble ("-b" :: hex :: rest) o
        = parseArguments toDouble rest
            {| inputFile := inputFile o; outputFile := outputFile o;
               startTime := startTime o; endTime := endTime o;
               width := width o; height := height o;
               bgColor := Colours.black; fgColor := fgColor o |})
  /\ (forall toDouble rest o,
        parseArguments toDouble ("-f" :: hex :: rest) o
        = parseArguments toDouble rest
            {| inputFile := inputFile o; outputFile := outputFile o;
               startTime := startTime o; endTime := endTime o;
               width := width o; height := height o;
               bgColor := bgColor o; fgColor := Colours.black |}).
Proof.
  intros H.
  assert (Hblack : parseHexColor hex = Colours.black).
  { unfold parseHexColor. apply Nat.eqb_neq in H. rewrite H. reflexivity. }
  split; [exact Hblack|].
  split; intros toDouble rest o; cbn [parseArguments];
    change (JuceString.trim "-b") with "-b";
    change (JuceString.trim "-f") with "-f";
    cbn [String.eqb Ascii.eqb Bool.eqb]; rewrite Hblack; reflexivity.
Qed.

(** The instance of C8 for the argument [red]. *)
Lemma parseHexColor_wrong_length_witness :
  String.length "red" <> 8%nat /\ parseHexColor "red" = Colours.black.
Proof.
  assert (H : String.length "red" <> 8%nat) by discriminate.
  split; [exact H|].
  exact (proj1 (parseHexColor_wrong_length "red" H)).
Defined.

(** C8 as stated fails.  The command line
    [-i song.wav -o waveform.png -b red] is read without a usage error:
    reading it ends with the background colour opaque black, and with a
    working encoder the run ends with exit code 0 and the image saved. *)
Lemma malformed_colour_accepted :
  readCommandLine (fun _ => S754_zero false) (Example.commandLine ++ ["-b"; "red"])
  = Continue
      {| inputFile := "song.wav"; outputFile := "waveform.png";
         startTime := S754_zero false; endTime := S754_zero false;
         width := 1920; height := 300;
         bgColor := Colours.black; fgColor := Colours.white |}
  /\ (exists files,
        wmain (Example.environment (Example.mono [Single.half]) None [137; 80] true)
              (Example.commandLine ++ ["-b"; "red"; "-w"; "2"; "-h"; "2"])
        = Ok {| exitCode := 0; printed := [Parameters; Saved]; filesAfter := files |}).
Proof.
  split; [vm_compute; reflexivity|].
  eexists. vm_compute. reflexivity.
Qed.

(** *** The checks before rendering *)

(** C9, amended.  When the command line names both files, the caller
    checks the canvas against the maximum only.  A width or a height above
    16384 ends the run with the message and exit code 1, without a call of
    the rasterizer.  Every other width and height, zero and negative ones
    included, passes the check unchanged: the run goes on to open the
    input, and once the reader is there the rasterizer is called with that
    width and that height.  Every call of the rasterizer has the width and
    height of the command line, each at most 16384, and the samples of the
    reader that the decoder returned, in as many channels as that reader
    reports.  Nothing keeps the width and the height above 0. *)
Theorem caller_checks_maximum_only
    (env : Environment) (argv : list string) (o : Options) :
  (2 <= List.length argv)%nat ->
  parseArguments (getDoubleValue env) (tl argv) defaults = Continue o ->
  inputFile o <> "" ->
  outputFile o <> "" ->
  (maxImageDimension < width o \/ maxImageDimension < height o ->
     wmain env argv
     = Ok {| exitCode := 1; printed := [SizeTooLarge]; filesAfter := files env |}
     /\ rasterizerCall env argv = None)
  /\ (width o <= maxImageDimension -> height o <= maxImageDimension ->
      readCommandLine (getDoubleValue env) argv = Continue o
      /\ forall reader,
           openInput env o = Continue reader ->
           rasterizerCall env argv = Some (renderCall o reader)
           /\ callWidth (renderCall o reader) = width o
           /\ callHeight (renderCall o reader) = height o)
  /\ (forall call, rasterizerCall env argv = Some call ->
        callWidth call = width o /\ callHeight call = height o
        /\ width o <= maxImageDimension /\ height o <= maxImageDimension
        /\ exists reader,
             createReaderFor env (inputFile o) = Some reader
             /\ call = renderCall o reader
             /\ List.length (callBuffer call) = Z.to_nat (numChannels reader)).
Proof.
  intros Hargc Hparse Hin Hout.
  assert (Hread : readCommandLine (getDoubleValue env) argv
                  = if (maxImageDimension <? width o) || (maxImageDimension <? height o)
                    then Return 1 [SizeTooLarge] else Continue o).
  { unfold readCommandLine.
    replace (Z.of_nat (List.length argv) <? 2) with false
      by (symmetry; apply Z.ltb_ge; lia).
    rewrite Hparse.
    apply String.eqb_neq in Hin. apply String.eqb_neq in Hout.
    rewrite Hin, Hout. reflexivity. }
  split; [|split].
  - intros Hbig. unfold wmain, rasterizerCall. rewrite Hread.
    replace ((maxImageDimension <? width o) || (maxImageDimension <? height o))
      with true; [split; reflexivity|].
    symmetry. apply orb_true_iff.
    destruct Hbig; [left | right]; apply Z.ltb_lt; assumption.
  - intros Hw Hh.
    assert (Hpass : readCommandLine (getDoubleValue env) argv = Continue o).
    { rewrite Hread.
      replace (maxImageDimension <? width o) with false
        by (symmetry; apply Z.ltb_ge; assumption).
      replace (maxImageDimension <? height o) with false
        by (symmetry; apply Z.ltb_ge; assumption).
      reflexivity. }
    split; [exact Hpass|].
    intros reader Hopen. unfold rasterizerCall. rewrite Hpass, Hopen.
    repeat split.
  - intros call. unfold rasterizerCall. rewrite Hread.
    destruct (Z.ltb_spec maxImageDimension (width o));
      destruct (Z.ltb_spec maxImageDimension (height o));
      cbn [orb]; try discriminate.
    destruct (openInput env o) as [code out|reader] eqn:Hopen; [discriminate|].
    intros Hcall. injection Hcall as <-. cbn [renderCall callWidth callHeight].
    repeat split; try lia.
    exists reader. split; [|split; [reflexivity|]].
    + unfold openInput in Hopen.
      destruct (negb (existsAsFile (files env) (inputFile o))); [discriminate|].
      destruct (createReaderFor env (inputFile o)); [|discriminate].
      congruence.
    + unfold renderCall, readBuffer. cbv zeta. cbn [callBuffer].
      rewrite length_map, length_seq. reflexivity.
Qed.

(** The instance of C9 for [-w -5 -h 0]: the size passes the check and the
    rasterizer is called with the width -5 and the height 0. *)
Lemma caller_checks_maximum_only_witness :
  (2 <= List.length (Example.commandLine ++ ["-w"; "-5"; "-h"; "0"]))%nat
  /\ readCommandLine
       (getDoubleValue (Example.environment (Example.mono [Single.half]) None [] true))
       (Example.commandLine ++ ["-w"; "-5"; "-h"; "0"])
     = Continue {| inputFile := "song.wav"; outputFile := "waveform.png";
                   startTime := S754_zero false; endTime := S754_zero false;
                   width := -5; height := 0;
                   bgColor := Colours.transparentBlack; fgColor := Colours.white |}
  /\ rasterizerCall (Example.environment (Example.mono [Single.half]) None [] true)
                    (Example.commandLine ++ ["-w"; "-5"; "-h"; "0"])
     = Some {| callWidth := -5; callHeight := 0; callNumSamples := 1;
               callBuffer := [[Single.half]] |}.
Proof.
  assert (H1 : (2 <= List.length (Example.commandLine ++ ["-w"; "-5"; "-h"; "0"]))%nat)
    by (repeat constructor).
  split; [exact H1|].
  assert (Hin : "song.wav" <> "") by discriminate.
  assert (Hout : "waveform.png" <> "") by discriminate.
  assert (Hw : -5 <= maxImageDimension) by (unfold maxImageDimension; lia).
  assert (Hh : 0 <= maxImageDimension) by (unfold maxImageDimension; lia).
  destruct (proj1 (proj2
    (caller_checks_maximum_only
       (Example.environment (Example.mono [Single.half]) None [] true)
       (Example.commandLine ++ ["-w"; "-5"; "-h"; "0"])
       {| inputFile := "song.wav"; outputFile := "waveform.png";
          startTime := S754_zero false; endTime := S754_zero false;
          width := -5; height := 0;
          bgColor := Colours.transparentBlack; fgColor := Colours.white |}
       H1 eq_refl Hin Hout)) Hw Hh) as [Hpass Hcall].
  split; [exact Hpass|].
  destruct (Hcall (Example.mono [Single.half]) eq_refl) as [-> _].
  vm_compute. reflexivity.
Defined.

(** C9 as stated fails.  The widths 0 and -5 pass the check and reach the
    rasterizer. *)
Lemma nonpositive_width_reaches_rasterizer :
  rasterizerCall (Example.environment (Example.mono [Single.half]) None [] true)
                 (Example.commandLine ++ ["-w"; "0"])
  = Some {| callWidth := 0; callHeight := 300; callNumSamples := 1;
            callBuffer := [[Single.half]] |}
  /\ rasterizerCall (Example.environment (Example.mono [Single.half]) None [] true)
                    (Example.commandLine ++ ["-w"; "-5"; "-h"; "0"])
     = Some {| callWidth := -5; callHeight := 0; callNumSamples := 1;
               callBuffer := [[Single.half]] |}.
Proof. split; vm_compute; reflexivity. Qed.

(** *** Saving the image *)

(** C7, amended.  An output file that exists and can be deleted is deleted
    before the encoder runs.  Whatever the encoder does next, the old
    content is gone: the path then holds what the encoder wrote, or
    nothing if the stream did not open; the exit code is 1 when the
    encoder fails and 0 otherwise. *)
Theorem saveImage_deletes_first
    (env : Environment) (output : string) (image : Image) (old : list Z) :
  files env output = Some old ->
  deleteFile env output = true ->
  filesAfter (saveImage env output image) output
  = (if openStream env output
     then Some (fst (writeImageToStream env image))
     else None)
  /\ exitCode (saveImage env output image)
     = (if snd (writeImageToStream env image) then 0 else 1).
Proof.
  intros Hold Hdel. unfold saveImage, existsAsFile.
  rewrite Hold, Hdel. cbn [andb].
  destruct (writeImageToStream env image) as [written ok]. cbn [fst snd].
  destruct (openStream env output), ok; cbn [filesAfter exitCode];
    unfold writeFile; rewrite ?String.eqb_refl; split; reflexivity.
Qed.

(** The instance of C7 for an encoder that fails after two bytes. *)
Lemma saveImage_deletes_first_witness :
  files (Example.environment (Example.mono []) (Some [1; 2; 3]) [137; 80] false)
        "waveform.png" = Some [1; 2; 3]
  /\ deleteFile (Example.environment (Example.mono []) (Some [1; 2; 3]) [137; 80] false)
                "waveform.png" = true
  /\ filesAfter
       (saveImage (Example.environment (Example.mono []) (Some [1; 2; 3]) [137; 80] false)
          "waveform.png"
          {| imageWidth := 1; imageHeight := 1; background := Colours.black;
             foreground := Colours.white; lines := [] |})
       "waveform.png"
     = Some [137; 80].
Proof.
  split; [reflexivity|]. split; [reflexivity|].
  exact (proj1 (saveImage_deletes_first
                  (Example.environment (Example.mono []) (Some [1; 2; 3]) [137; 80] false)
                  "waveform.png"
                  {| imageWidth := 1; imageHeight := 1; background := Colours.black;
                     foreground := Colours.white; lines := [] |}
                  [1; 2; 3] eq_refl eq_refl)).
Defined.

(** C7 as stated fails.  The output path holds the bytes 1, 2, 3 and the
    encoder fails without writing anything: the run ends with exit code 1
    and the path holds an empty file. *)
Lemma failed_encode_loses_old_file :
  files (Example.environment (Example.mono [Single.half]) (Some [1; 2; 3]) [] false)
        "waveform.png" = Some [1; 2; 3]
  /\ exists run,
       wmain (Example.environment (Example.mono [Single.half]) (Some [1; 2; 3]) [] false)
             (Example.commandLine ++ ["-w"; "2"; "-h"; "2"])
       = Ok run
       /\ exitCode run = 1
       /\ printed run = [Parameters; SaveFailed]
       /\ filesAfter run "waveform.png" = Some [].
Proof.
  split; [reflexivity|].
  eexists. split; [vm_compute; reflexivity|].
  repeat split; reflexivity.
Qed.

(* ------------------------------------------------------------------ *)
(** ** Further properties of the code *)

(** *** The loop over the arguments *)

Lemma parseArguments_pairs (toDouble : string -> double) (n : nat) :
  forall (a b : list string) (o o' : Options),
    (List.length a <= n)%nat ->
    parseArguments toDouble a o = Continue o' ->
    Nat.even (List.length a) = true
    /\ parseArguments toDouble (a ++ b) o = parseArguments toDouble b o'.
Proof.
  induction n as [|n IH]; intros a b o o' Hlen Hparse.
  - destruct a; [|simpl in Hlen; lia].
    simpl in Hparse. injection Hparse as <-. split; reflexivity.
  - destruct a as [|arg [|value rest]].
    + simpl in Hparse. injection Hparse as <-. split; reflexivity.
    + cbn [parseArguments] in Hparse.
      destruct (String.eqb (JuceString.trim arg) "--help"); discriminate.
    + cbn [parseArguments app List.length Nat.even] in *.
      destruct (String.eqb (JuceString.trim arg) "--help"); [discriminate|].
      repeat match goal with
             | H : context [if String.eqb ?x ?y then _ else _] |- _ =>
                 destruct (String.eqb x y)
             end;
        try discriminate; apply IH; trivial; lia.
Qed.

(** The options are read from left to right: when a first run of
    arguments is accepted, reading it followed by more arguments is
    reading the rest from the options reached. *)
Theorem parseArguments_app (toDouble : string -> double)
    (a b : list string) (o o' : Options) :
  parseArguments toDouble a o = Continue o' ->
  parseArguments toDouble (a ++ b) o = parseArguments toDouble b o'.
Proof.
  intros H. exact (proj2 (parseArguments_pairs toDouble (List.length a) a b o o'
                            (Nat.le_refl _) H)).
Qed.

Lemma parseArguments_app_witness :
  parseArguments (fun _ => S754_zero false) ["-w"; "10"] defaults
  = Continue {| inputFile := ""; outputFile := "";
                startTime := S754_zero false; endTime := S754_zero false;
                width := 10; height := 300;
                bgColor := Colours.transparentBlack; fgColor := Colours.white |}
  /\ parseArguments (fun _ => S754_zero false) (["-w"; "10"] ++ ["-w"; "20"]) defaults
     = parseArguments (fun _ => S754_zero false) ["-w"; "20"]
         {| inputFile := ""; outputFile := "";
            startTime := S754_zero false; endTime := S754_zero false;
            width := 10; height := 300;
            bgColor := Colours.transparentBlack; fgColor := Colours.white |}.
Proof.
  split; [reflexivity|].
  exact (parseArguments_app (fun _ => S754_zero false) ["-w"; "10"] ["-w"; "20"]
           defaults _ eq_refl).
Defined.

(** The arguments are accepted only in pairs of an option and its value:
    an accepted list has an even length, and an accepted list followed by
    one more argument ends the run, with code 0 for [--help] and code 1
    for anything else. *)
Theorem parseArguments_even (toDouble : string -> double)
    (a : list string) (o o' : Options) :
  parseArguments toDouble a o = Continue o' ->
  Nat.even (List.length a) = true
  /\ forall last,
       parseArguments toDouble (a ++ [last]) o
       = Return (if String.eqb (JuceString.trim last) "--help" then 0 else 1) [Help].
Proof.
  intros H. split.
  - exact (proj1 (parseArguments_pairs toDouble (List.length a) a [] o o'
                    (Nat.le_refl _) H)).
  - intros last.
    rewrite (proj2 (parseArguments_pairs toDouble (List.length a) a [last] o o'
                      (Nat.le_refl _) H)).
    cbn [parseArguments].
    destruct (String.eqb (JuceString.trim last) "--help"); reflexivity.
Qed.

Lemma parseArguments_even_witness :
  parseArguments (fun _ => S754_zero false) ["-i"; "song.wav"] defaults
  = Continue {| inputFile := "song.wav"; outputFile := "";
                startTime := S754_zero false; endTime := S754_zero false;
                width := 1920; height := 300;
                bgColor := Colours.transparentBlack; fgColor := Colours.white |}
  /\ parseArguments (fun _ => S754_zero false) (["-i"; "song.wav"] ++ ["-o"]) defaults
     = Return 1 [Help].
Proof.
  split; [reflexivity|].
  exact (proj2 (parseArguments_even (fun _ => S754_zero false) ["-i"; "song.wav"]
                  defaults _ eq_refl) "-o").
Defined.

(** [--help] in the place of an option, after options that were accepted,
    ends the run with code 0 and the help text, whatever follows it and
    whatever the options before it were; no file is touched. *)
Theorem help_wins (env : Environment) (program : string)
    (a rest : list string) (key : string) (o : Options) :
  parseArguments (getDoubleValue env) a defaults = Continue o ->
  JuceString.trim key = "--help" ->
  wmain env (program :: a ++ key :: rest)
  = Ok {| exitCode := 0; printed := [Help]; filesAfter := files env |}.
Proof.
  intros Ha Hkey. unfold wmain, readCommandLine.
  replace (Z.of_nat (List.length (program :: a ++ key :: rest)) <? 2) with false.
  2:{ symmetry. apply Z.ltb_ge. simpl. rewrite length_app. simpl. lia. }
  cbn [tl].
  rewrite (proj2 (parseArguments_pairs _ (List.length a) a (key :: rest) defaults o
                    (Nat.le_refl _) Ha)).
  cbn [parseArguments]. rewrite Hkey. reflexivity.
Qed.

Lemma help_wins_witness :
  wmain (Example.environment (Example.mono []) None [] true)
        ("WaveformImageGenerator" :: ["-w"; "99999"] ++ " --help " :: ["-x"])
  = Ok {| exitCode := 0; printed := [Help];
          filesAfter := files (Example.environment (Example.mono []) None [] true) |}.
Proof.
  exact (help_wins (Example.environment (Example.mono []) None [] true)
           "WaveformImageGenerator" ["-w"; "99999"] ["-x"] " --help " _
           eq_refl eq_refl).
Defined.

(** *** Exit codes and files *)

Lemma parseArguments_return (toDouble : string -> double) (n : nat) :
  forall (a : list string) (o : Options) (code : Z) (out : list Message),
    (List.length a <= n)%nat ->
    parseArguments toDouble a o = Return code out ->
    out = [Help] /\ (code = 0 \/ code = 1).
Proof.
  induction n as [|n IH]; intros a o code out Hlen Hparse.
  - destruct a; [discriminate | simpl in Hlen; lia].
  - destruct a as [|arg [|value rest]].
    + discriminate.
    + cbn [parseArguments] in Hparse.
      destruct (String.eqb (JuceString.trim arg) "--help");
        injection Hparse as <- <-; auto.
    + cbn [parseArguments List.length] in *.
      destruct (String.eqb (JuceString.trim arg) "--help");
        [injection Hparse as <- <-; auto|].
      repeat match goal with
             | H : context [if String.eqb ?x ?y then _ else _] |- _ =>
                 destruct (String.eqb x y)
             end;
        try (injection Hparse as <- <-; auto; fail);
        eapply IH; try eassumption; lia.
Qed.

Lemma readCommandLine_return (toDouble : string -> double) (argv : list string)
    (code : Z) (out : list Message) :
  readCommandLine toDouble argv = Return code out ->
  (code = 0 /\ out = [Help]) \/ (code = 1 /\ (out = [Help] \/ out = [SizeTooLarge])).
Proof.
  unfold readCommandLine.
  destruct (Z.of_nat (List.length argv) <? 2); [intros H; injection H as <- <-; auto|].
  destruct (parseArguments toDouble (tl argv) defaults) as [c m|o] eqn:Hparse.
  - intros H. injection H as <- <-.
    destruct (parseArguments_return toDouble _ _ _ _ _ (Nat.le_refl _) Hparse)
      as [-> [->| ->]]; auto.
  - destruct (String.eqb (inputFile o) "" || String.eqb (outputFile o) "");
      [intros H; injection H as <- <-; auto|].
    destruct ((maxImageDimension <? width o) || (maxImageDimension <? height o));
      [intros H; injection H as <- <-; auto | discriminate].
Qed.

Lemma parseArguments_help (toDouble : string -> double) (n : nat) :
  forall (a : list string) (o : Options) (out : list Message),
    (List.length a <= n)%nat ->
    parseArguments toDouble a o = Return 0 out ->
    exists arg, In arg a /\ JuceString.trim arg = "--help".
Proof.
  induction n as [|n IH]; intros a o out Hlen Hparse.
  - destruct a; [discriminate | simpl in Hlen; lia].
  - destruct a as [|arg [|value rest]].
    + discriminate.
    + cbn [parseArguments] in Hparse.
      destruct (String.eqb_spec (JuceString.trim arg) "--help") as [Hhelp|_];
        [|discriminate].
      exists arg. split; [left; reflexivity | exact Hhelp].
    + cbn [parseArguments List.length] in *.
      destruct (String.eqb_spec (JuceString.trim arg) "--help") as [Hhelp|_].
      { exists arg. split; [left; reflexivity | exact Hhelp]. }
      assert (Hrest : exists o', parseArguments toDouble rest o' = Return 0 out).
      { repeat match goal with
               | H : context [if String.eqb ?x ?y then _ else _] |- _ =>
                   destruct (String.eqb x y)
               end;
          first [discriminate | eexists; eassumption]. }
      destruct Hrest as [o' Hrest].
      destruct (IH rest o' out ltac:(lia) Hrest) as (arg' & Hin & Hhelp).
      exists arg'. split; [right; right; exact Hin | exact Hhelp].
Qed.

(** Every run that ends returns 0 or 1, and it returns 0 in two cases
    only.  Either the help was asked for: an argument reads [--help], the
    help is printed and no file is touched.  Or the command line was
    accepted, the input opened, the rasterizer drew its lines and the
    encoder reported success for the image of those lines: the run is then
    the save stage on that image and prints that the image was saved.
    The message that the image was saved is never printed with exit
    code 1. *)
Theorem wmain_exit_codes (env : Environment) (argv : list string) (run : Run) :
  wmain env argv = Ok run ->
  (exitCode run = 0 /\ printed run = [Help] /\ filesAfter run = files env
   /\ exists arg, In arg (tl argv) /\ JuceString.trim arg = "--help")
  \/ (exitCode run = 0 /\ printed run = [Parameters; Saved]
      /\ exists o reader drawn,
           readCommandLine (getDoubleValue env) argv = Continue o
           /\ openInput env o = Continue reader
           /\ Rasterizer.rasterize (width o) (height o)
                (callNumSamples (renderCall o reader))
                (callBuffer (renderCall o reader)) = Ok drawn
           /\ run = saveImage env (outputFile o)
                      {| imageWidth := width o; imageHeight := height o;
                         background := bgColor o; foreground := fgColor o;
                         lines := drawn |}
           /\ snd (writeImageToStream env
                     {| imageWidth := width o; imageHeight := height o;
                        background := bgColor o; foreground := fgColor o;
                        lines := drawn |}) = true)
  \/ (exitCode run = 1 /\ ~ In Saved (printed run)).
Proof.
  unfold wmain.
  destruct (readCommandLine (getDoubleValue env) argv) as [code out|o] eqn:Hread.
  - intros H. injection H as <-. cbn [exitCode printed filesAfter].
    destruct (readCommandLine_return _ _ _ _ Hread) as [[-> ->]|[-> [->| ->]]].
    + left. repeat split.
      unfold readCommandLine in Hread.
      destruct (Z.of_nat (List.length argv) <? 2); [discriminate|].
      destruct (parseArguments (getDoubleValue env) (tl argv) defaults)
        as [c m|o] eqn:Hparse.
      * injection Hread as -> ->.
        exact (parseArguments_help _ _ _ _ _ (Nat.le_refl _) Hparse).
      * destruct (String.eqb (inputFile o) "" || String.eqb (outputFile o) "");
          [discriminate|].
        destruct ((maxImageDimension <? width o) || (maxImageDimension <? height o));
          discriminate.
    + right. right. split; [reflexivity|]. simpl. intuition discriminate.
    + right. right. split; [reflexivity|]. simpl. intuition discriminate.
  - destruct (openInput env o) as [code out|reader] eqn:Hopen.
    { intros H. injection H as <-. right. right. cbn [exitCode printed].
      unfold openInput in Hopen.
      destruct (negb (existsAsFile (files env) (inputFile o))).
      { injection Hopen as <- <-. simpl. intuition discriminate. }
      destruct (createReaderFor env (inputFile o)); [discriminate|].
      injection Hopen as <- <-. simpl. intuition discriminate. }
    cbv zeta. cbn [renderCall callWidth callHeight].
    destruct (Rasterizer.rasterize _ _ _ _) as [drawn|j] eqn:Hdraw; [|discriminate].
    cbn [bind]. intros H. injection H as <-.
    destruct (snd (writeImageToStream env
                     {| imageWidth := width o; imageHeight := height o;
                        background := bgColor o; foreground := fgColor o;
                        lines := drawn |})) eqn:Hok.
    + right. left.
      assert (Hrun : exitCode (saveImage env (outputFile o)
                        {| imageWidth := width o; imageHeight := height o;
                           background := bgColor o; foreground := fgColor o;
                           lines := drawn |}) = 0
                     /\ printed (saveImage env (outputFile o)
                        {| imageWidth := width o; imageHeight := height o;
                           background := bgColor o; foreground := fgColor o;
                           lines := drawn |}) = [Parameters; Saved]).
      { unfold saveImage.
        destruct (writeImageToStream env _) as [written ok]. cbn [snd] in Hok.
        subst ok. split; reflexivity. }
      destruct Hrun as [Hcode Hout].
      split; [exact Hcode|]. split; [exact Hout|].
      exists o, reader, drawn. repeat split; assumption.
    + right. right. unfold saveImage.
      destruct (writeImageToStream env _) as [written ok]. cbn [snd] in Hok.
      subst ok. cbn [exitCode printed]. simpl. intuition discriminate.
Qed.

(** The instance for a run that renders one sample on a canvas of 2 by 2
    and saves it. *)
Lemma wmain_exit_codes_witness :
  exists run,
    wmain (Example.environment (Example.mono [Single.half]) None [137; 80] true)
          (Example.commandLine ++ ["-w"; "2"; "-h"; "2"]) = Ok run
    /\ exitCode run = 0
    /\ printed run = [Parameters; Saved]
    /\ filesAfter run "waveform.png" = Some [137; 80].
Proof.
  destruct (Rasterizer.rasterize 2 2 1 [[Single.half]]) as [drawn|j] eqn:Hdraw;
    [|vm_compute in Hdraw; discriminate].
  exists (saveImage (Example.environment (Example.mono [Single.half]) None [137; 80] true)
            "waveform.png"
            {| imageWidth := 2; imageHeight := 2;
               background := Colours.transparentBlack; foreground := Colours.white;
               lines := drawn |}).
  assert (Hrun : wmain (Example.environment (Example.mono [Single.half]) None [137; 80] true)
                   (Example.commandLine ++ ["-w"; "2"; "-h"; "2"])
                 = Ok (saveImage
                         (Example.environment (Example.mono [Single.half]) None [137; 80] true)
                         "waveform.png"
                         {| imageWidth := 2; imageHeight := 2;
                            background := Colours.transparentBlack;
                            foreground := Colours.white;
                            lines := drawn |})).
  { unfold wmain.
    replace (readCommandLine _ _)
      with (@Continue Options
              {| inputFile := "song.wav"; outputFile := "waveform.png";
                 startTime := S754_zero false; endTime := S754_zero false;
                 width := 2; height := 2;
                 bgColor := Colours.transparentBlack; fgColor := Colours.white |})
      by reflexivity.
    replace (openInput _ _) with (Continue (Example.mono [Single.half])) by reflexivity.
    cbv zeta.
    replace (Rasterizer.rasterize _ _ _ _) with (Rasterizer.rasterize 2 2 1 [[Single.half]])
      by (vm_compute; reflexivity).
    rewrite Hdraw. reflexivity. }
  split; [exact Hrun|].
  destruct (wmain_exit_codes _ _ _ Hrun)
    as [(Hcode & Hout & _)|[(Hcode & Hout & _)|(Hcode & _)]].
  - discriminate Hout.
  - split; [exact Hcode|]. split; [exact Hout|]. reflexivity.
  - discriminate Hcode.
Defined.

Lemma saveImage_frame (env : Environment) (output : string) (image : Image)
    (p : string) :
  p <> output ->
  filesAfter (saveImage env output image) p = files env p.
Proof.
  intros Hp. apply String.eqb_neq in Hp. unfold saveImage.
  destruct (writeImageToStream env image) as [written ok].
  destruct (existsAsFile (files env) output && deleteFile env output),
    (openStream env output), ok;
    cbn [filesAfter]; unfold writeFile; rewrite ?Hp; reflexivity.
Qed.

(** A run changes no file other than the output file named on the command
    line; a run that ends before the command line is accepted changes no
    file at all. *)
Theorem wmain_touches_output_only (env : Environment) (argv : list string)
    (run : Run) (p : string) :
  wmain env argv = Ok run ->
  (forall o, readCommandLine (getDoubleValue env) argv = Continue o ->
             p <> outputFile o) ->
  filesAfter run p = files env p.
Proof.
  unfold wmain.
  destruct (readCommandLine (getDoubleValue env) argv) as [code out|o] eqn:Hread.
  - intros H _. injection H as <-. reflexivity.
  - intros H Hp. specialize (Hp o eq_refl).
    destruct (openInput env o) as [code out|reader].
    + injection H as <-. reflexivity.
    + cbv zeta in H.
      destruct (Rasterizer.rasterize _ _ _ _) as [drawn|j]; [|discriminate].
      cbn [bind] in H. injection H as <-. apply saveImage_frame. exact Hp.
Qed.

Lemma wmain_touches_output_only_witness :
  exists run,
    wmain (Example.environment (Example.mono [Single.half]) (Some [1; 2; 3]) [137; 80] true)
          (Example.commandLine ++ ["-w"; "2"; "-h"; "2"]) = Ok run
    /\ filesAfter run "song.wav"
       = files (Example.environment (Example.mono [Single.half]) (Some [1; 2; 3]) [137; 80] true)
               "song.wav".
Proof.
  eexists. split; [vm_compute; reflexivity|].
  refine (wmain_touches_output_only
            (Example.environment (Example.mono [Single.half]) (Some [1; 2; 3]) [137; 80] true)
            (Example.commandLine ++ ["-w"; "2"; "-h"; "2"]) _ "song.wav" _ _).
  - vm_compute. reflexivity.
  - intros o Ho. vm_compute in Ho. injection Ho as <-. discriminate.
Defined.

(** *** Colours that can be written *)

Lemma getHexDigitValue_hexDigitChar (d : Z) :
  0 <= d < 16 -> JuceString.getHexDigitValue (Spelling.hexDigitChar d) = d.
Proof.
  intros Hd.
  assert (H : d = 0 \/ d = 1 \/ d = 2 \/ d = 3 \/ d = 4 \/ d = 5 \/ d = 6 \/ d = 7
              \/ d = 8 \/ d = 9 \/ d = 10 \/ d = 11 \/ d = 12 \/ d = 13 \/ d = 14
              \/ d = 15) by lia.
  repeat (destruct H as [->|H]; [reflexivity|]). subst d. reflexivity.
Qed.

Lemma getHexValue32_hexByte (v : Z) :
  0 <= v < 256 -> JuceString.getHexValue32 (Spelling.hexByte v) = v.
Proof.
  intros Hv.
  assert (Hq : 0 <= v / 16 < 16).
  { split; [apply Z.div_pos; lia | apply Z.div_lt_upper_bound; lia]. }
  assert (Hr : 0 <= v mod 16 < 16) by (apply Z.mod_pos_bound; lia).
  unfold JuceString.getHexValue32, Spelling.hexByte. cbn [JuceString.hexParse].
  rewrite !getHexDigitValue_hexDigitChar by assumption.
  replace (0 <=? v / 16) with true by (symmetry; apply Z.leb_le; lia).
  replace (0 <=? v mod 16) with true by (symmetry; apply Z.leb_le; lia).
  rewrite (lor_shift_digit 0) by lia.
  rewrite (int64_to_int_small (16 * 0 + _)) by lia.
  rewrite lor_shift_digit by lia.
  rewrite int64_to_int_small by lia.
  pose proof (Z.div_mod v 16). lia.
Qed.

(** Every colour with components from 0 to 255 can be given on the command
    line: its spelling [RRGGBBAA] is read back as that colour. *)
Theorem parseHexColor_spell (c : Colour) :
  Spelling.isByteColour c ->
  parseHexColor (Spelling.spell c) = c.
Proof.
  intros (Hr & Hg & Hb & Ha). destruct c as [r g b a]. cbn [red green blue alpha] in *.
  unfold parseHexColor, Spelling.spell. cbn [red green blue alpha].
  change (String.length
            (Spelling.hexByte r ++ Spelling.hexByte g ++ Spelling.hexByte b
             ++ Spelling.hexByte a)%string) with 8%nat.
  cbn [Nat.eqb negb].
  change (JuceString.substring
            (Spelling.hexByte r ++ Spelling.hexByte g ++ Spelling.hexByte b
             ++ Spelling.hexByte a)%string 0 2) with (Spelling.hexByte r).
  change (JuceString.substring
            (Spelling.hexByte r ++ Spelling.hexByte g ++ Spelling.hexByte b
             ++ Spelling.hexByte a)%string 2 4) with (Spelling.hexByte g).
  change (JuceString.substring
            (Spelling.hexByte r ++ Spelling.hexByte g ++ Spelling.hexByte b
             ++ Spelling.hexByte a)%string 4 6) with (Spelling.hexByte b).
  change (JuceString.substring
            (Spelling.hexByte r ++ Spelling.hexByte g ++ Spelling.hexByte b
             ++ Spelling.hexByte a)%string 6 8) with (Spelling.hexByte a).
  rewrite !getHexValue32_hexByte by assumption.
  unfold fromRGBA. rewrite !Z.mod_small by assumption. reflexivity.
Qed.

Lemma parseHexColor_spell_witness :
  Spelling.isByteColour {| red := 30; green := 30; blue := 30; alpha := 255 |}
  /\ Spelling.spell {| red := 30; green := 30; blue := 30; alpha := 255 |} = "1E1E1EFF"
  /\ parseHexColor (Spelling.spell {| red := 30; green := 30; blue := 30; alpha := 255 |})
     = {| red := 30; green := 30; blue := 30; alpha := 255 |}.
Proof.
  assert (H : Spelling.isByteColour {| red := 30; green := 30; blue := 30; alpha := 255 |}).
  { unfold Spelling.isByteColour. cbn [red green blue alpha].
    repeat split; first [discriminate | reflexivity]. }
  split; [exact H|]. split; [reflexivity|].
  exact (parseHexColor_spell _ H).
Defined.

Lemma getHexDigitValue_toUpper (c : ascii) :
  JuceString.getHexDigitValue (Spelling.toUpper c) = JuceString.getHexDigitValue c.
Proof.
  destruct c as [[] [] [] [] [] [] [] []]; reflexivity.
Qed.

Lemma hexParse_upper (s : string) :
  forall result, JuceString.hexParse (Spelling.upper s) result
                 = JuceString.hexParse s result.
Proof.
  induction s as [|c s IH]; intros result; [reflexivity|].
  cbn [Spelling.upper JuceString.hexParse].
  rewrite getHexDigitValue_toUpper, !IH. reflexivity.
Qed.

Lemma length_upper (s : string) : String.length (Spelling.upper s) = String.length s.
Proof. induction s; simpl; congruence. Qed.

Lemma substring_upper (s : string) :
  forall n m, String.substring n m (Spelling.upper s)
              = Spelling.upper (String.substring n m s).
Proof.
  induction s as [|c s IH]; intros [|n] [|m]; simpl; try reflexivity.
  - rewrite IH. reflexivity.
  - apply IH.
  - apply IH.
Qed.

(** The case of the letters of a colour argument does not matter. *)
Theorem parseHexColor_ignores_case (hex : string) :
  parseHexColor (Spelling.upper hex) = parseHexColor hex.
Proof.
  unfold parseHexColor, JuceString.substring, JuceString.getHexValue32.
  rewrite length_upper, !substring_upper, !hexParse_upper. reflexivity.
Qed.

Example upper_example : Spelling.upper "1e1e1eff" = "1E1E1EFF".
Proof. reflexivity. Qed.

(** *** Windows without samples *)

Lemma Double_sub_diag (x : double) :
  is_finite x = true -> Double.sub x x = S754_zero false.
Proof.
  destruct x as [[]| | |s m e]; try discriminate; intros _; try reflexivity.
  unfold Double.sub, SFsub. rewrite Z.sub_diag. reflexivity.
Qed.

Lemma static_cast_zero_times (bits : Z) (s : bool) (rate : double) :
  is_finite rate = true ->
  1 <= bits ->
  static_cast_signed bits (Double.mul (S754_zero s) rate) = 0.
Proof.
  intros Hrate Hbits.
  assert (Hpow : 0 < 2 ^ (bits - 1)) by (apply Z.pow_pos_nonneg; lia).
  destruct rate as [sr|sr| |sr m e]; try discriminate;
    unfold static_cast_signed; cbn [Double.mul SFmul truncate];
    replace (- 2 ^ (bits - 1) <=? 0) with true by (symmetry; apply Z.leb_le; lia);
    replace (0 <? 2 ^ (bits - 1)) with true by (symmetry; apply Z.ltb_lt; lia);
    reflexivity.
Qed.

Lemma jlimit_beyond (upper value : double) :
  SFltb value Resolver.zero = false ->
  SFltb upper value = true ->
  Juce.jlimit Resolver.zero upper value = upper.
Proof.
  intros H1 H2. unfold Juce.jlimit, less, Less_float. rewrite H1, H2. reflexivity.
Qed.

(** When the start asked for is not negative and lies beyond the end of
    the window, the start becomes that end and the window holds no
    sample (the end and the sample rate being finite). *)
Theorem start_beyond_end_collapses
    (startTime endTime : double) (lengthInSamples : Z) (sampleRate : double) :
  SFltb startTime Resolver.zero = false ->
  SFltb (Resolver.actualEnd
           (Resolver.resolveTimes startTime endTime
              (Double.div (Double.of_int lengthInSamples) sampleRate)))
        startTime = true ->
  is_finite (Resolver.actualEnd
               (Resolver.resolveTimes startTime endTime
                  (Double.div (Double.of_int lengthInSamples) sampleRate))) = true ->
  is_finite sampleRate = true ->
  Resolver.actualStart
    (Resolver.resolveTimes startTime endTime
       (Double.div (Double.of_int lengthInSamples) sampleRate))
  = Resolver.actualEnd
      (Resolver.resolveTimes startTime endTime
         (Double.div (Double.of_int lengthInSamples) sampleRate))
  /\ Resolver.numSamples
       (Resolver.resolveSamples startTime endTime lengthInSamples sampleRate) = 0.
Proof.
  intros Hneg Hbeyond Hfin Hrate.
  assert (Hstart :
    Resolver.actualStart
      (Resolver.resolveTimes startTime endTime
         (Double.div (Double.of_int lengthInSamples) sampleRate))
    = Resolver.actualEnd
        (Resolver.resolveTimes startTime endTime
           (Double.div (Double.of_int lengthInSamples) sampleRate))).
  { revert Hbeyond. unfold Resolver.resolveTimes.
    cbn [Resolver.actualStart Resolver.actualEnd].
    apply jlimit_beyond. exact Hneg. }
  split; [exact Hstart|].
  unfold Resolver.resolveSamples. cbn [Resolver.numSamples].
  rewrite Hstart, (Double_sub_diag _ Hfin).
  apply static_cast_zero_times; [exact Hrate | lia].
Qed.

Lemma start_beyond_end_collapses_witness :
  Resolver.resolveSamples (Double.of_int 150) (Double.of_int 0)
    4410000 (Double.of_int 44100)
  = {| Resolver.startSample := 4410000; Resolver.numSamples := 0 |}
  /\ Resolver.numSamples
       (Resolver.resolveSamples (Double.of_int 150) (Double.of_int 0)
          4410000 (Double.of_int 44100)) = 0.
Proof.
  split; [vm_compute; reflexivity|].
  exact (proj2 (start_beyond_end_collapses (Double.of_int 150) (Double.of_int 0)
                  4410000 (Double.of_int 44100) eq_refl eq_refl eq_refl eq_refl)).
Defined.

(** *** The envelope of a column *)

Lemma scan_fold (samples : list float) :
  forall (count n : nat) (minVal maxVal : float),
    (n + count <= List.length samples)%nat ->
    Rasterizer.scan samples count (Z.of_nat n) minVal maxVal
    = Ok (fold_left scanStep (firstn count (skipn n samples)) (minVal, maxVal)).
Proof.
  induction count as [|count IH]; intros n minVal maxVal Hlen; [reflexivity|].
  destruct (nth_error samples n) as [s|] eqn:Hs.
  2:{ apply nth_error_None in Hs. lia. }
  rewrite (slice_cons _ _ _ _ Hs).
  cbn [Rasterizer.scan fold_left]. unfold Rasterizer.readSample.
  replace (Z.of_nat n <? 0) with false by (symmetry; apply Z.ltb_ge; lia).
  rewrite Nat2Z.id, Hs. cbn [bind].
  replace (Z.of_nat n + 1) with (Z.of_nat (S n)) by lia.
  rewrite IH by lia. reflexivity.
Qed.

Lemma envelope_fold (samples : list float) (sampleStart sampleEnd : Z) :
  0 <= sampleStart -> sampleStart <= Z.of_nat (List.length samples) ->
  sampleEnd <= Z.of_nat (List.length samples) ->
  Rasterizer.envelope samples sampleStart sampleEnd
  = Ok (fold_left scanStep (Contract.slice samples sampleStart sampleEnd)
          (Single.one, Single.minus_one)).
Proof.
  intros H0 H1 H2. unfold Rasterizer.envelope, Contract.slice.
  pose proof (scan_fold samples (Z.to_nat (sampleEnd - sampleStart))
                (Z.to_nat sampleStart) Single.one Single.minus_one) as Hscan.
  rewrite Z2Nat.id in Hscan by lia. apply Hscan. lia.
Qed.

Lemma step_nan (acc : float * float) (s : float) :
  is_nan s = true -> scanStep acc s = acc.
Proof.
  destruct s; try discriminate. intros _. unfold scanStep.
  destruct acc as [[] []]; reflexivity.
Qed.

Lemma fold_without_nan (l : list float) :
  forall acc,
    fold_left scanStep (filter (fun s => negb (is_nan s)) l) acc = fold_left scanStep l acc.
Proof.
  induction l as [|s l IH]; intros acc; [reflexivity|].
  cbn [filter fold_left]. destruct (is_nan s) eqn:Hs; cbn [negb].
  - rewrite (step_nan acc s Hs). apply IH.
  - cbn [fold_left]. apply IH.
Qed.

(** Samples that are NaN never change an envelope: the scan of a channel
    gives the same minimum and maximum as the scan of the channel
    without them. *)
Theorem envelope_ignores_nan (samples : list float) :
  Rasterizer.envelope samples 0 (Z.of_nat (List.length samples))
  = Rasterizer.envelope (filter (fun s => negb (is_nan s)) samples) 0
      (Z.of_nat (List.length (filter (fun s => negb (is_nan s)) samples))).
Proof.
  rewrite !envelope_fold by lia. unfold Contract.slice.
  rewrite !Z.sub_0_r, !Nat2Z.id. cbn [Z.to_nat skipn].
  rewrite !firstn_all, fold_without_nan. reflexivity.
Qed.

(** The envelope of a column depends on the samples of its range only:
    two channels that agree on the range give the same envelope. *)
Theorem envelope_depends_on_range_only
    (samples samples' : list float) (sampleStart sampleEnd : Z) :
  0 <= sampleStart ->
  sampleStart <= Z.of_nat (List.length samples) ->
  sampleEnd <= Z.of_nat (List.length samples) ->
  sampleStart <= Z.of_nat (List.length samples') ->
  sampleEnd <= Z.of_nat (List.length samples') ->
  Contract.slice samples sampleStart sampleEnd
  = Contract.slice samples' sampleStart sampleEnd ->
  Rasterizer.envelope samples sampleStart sampleEnd
  = Rasterizer.envelope samples' sampleStart sampleEnd.
Proof.
  intros H0 H1 H2 H3 H4 Hslice.
  rewrite !envelope_fold by assumption. rewrite Hslice. reflexivity.
Qed.

Lemma envelope_depends_on_range_only_witness :
  Contract.slice [Single.half; Single.one; Single.minus_one] 1 2
  = Contract.slice [Single.two; Single.one; Single.two] 1 2
  /\ Rasterizer.envelope [Single.half; Single.one; Single.minus_one] 1 2
     = Rasterizer.envelope [Single.two; Single.one; Single.two] 1 2.
Proof.
  split; [reflexivity|].
  apply envelope_depends_on_range_only; try reflexivity; discriminate.
Defined.

(** When the range of a column holds a sample that is not NaN, the
    envelope encloses it: the minimum is not above the sample, the maximum
    is not below it, and so the maximum is not below the minimum. *)
Theorem envelope_encloses_samples
    (samples : list float) (sampleStart sampleEnd : Z) (minVal maxVal x : float) :
  0 <= sampleStart ->
  sampleStart <= Z.of_nat (List.length samples) ->
  sampleEnd <= Z.of_nat (List.length samples) ->
  Rasterizer.envelope samples sampleStart sampleEnd = Ok (minVal, maxVal) ->
  In x (Contract.slice samples sampleStart sampleEnd) ->
  is_nan x = false ->
  SFltb x minVal = false /\ SFltb maxVal x = false /\ SFltb maxVal minVal = false.
Proof.
  intros H0 H1 H2 Henv Hin Hx.
  destruct (envelope_spec samples sampleStart sampleEnd H0 H1 H2)
    as (mn & mx & Henv' & (_ & _ & Hmin) & (_ & _ & Hmax)).
  rewrite Henv in Henv'. injection Henv' as <- <-.
  rewrite Forall_forall in Hmin, Hmax.
  pose proof (Hmin x Hin) as Hlo. pose proof (Hmax x Hin) as Hhi.
  repeat split; trivial.
  destruct (SFltb maxVal minVal) eqn:E; trivial.
  destruct (SFltb_split _ x _ E Hx); congruence.
Qed.

Lemma envelope_encloses_samples_witness :
  Rasterizer.envelope [Single.half; Single.two; Single.minus_one] 0 2
  = Ok (Single.half, Single.two)
  /\ SFltb Single.two Single.half = false.
Proof.
  split; [reflexivity|].
  refine (proj2 (proj2 (envelope_encloses_samples
            [Single.half; Single.two; Single.minus_one] 0 2
            Single.half Single.two Single.half _ _ _ eq_refl _ eq_refl)));
    first [discriminate | left; reflexivity].
Defined.

(** *** What the rasterizer draws *)

Lemma column_line (samples : list float) (width numSamples : Z)
    (channelHeight midY : float) (i : Z) (l : Rasterizer.Line) :
  Rasterizer.column samples width numSamples channelHeight midY i = Ok l ->
  exists minVal maxVal,
    l = Rasterizer.envelopeLine channelHeight midY i minVal maxVal.
Proof.
  unfold Rasterizer.column.
  destruct (Rasterizer.columnRange width numSamples i) as [sampleStart sampleEnd].
  destruct (Rasterizer.envelope samples sampleStart sampleEnd) as [[mn mx]|j];
    [|discriminate].
  cbn [bind]. intros H. injection H as <-. eauto.
Qed.

Lemma columns_shape (samples : list float) (width numSamples : Z)
    (channelHeight midY : float) :
  forall (count : nat) (i0 : Z) (g g' : list Rasterizer.Line),
    Rasterizer.columns samples width numSamples channelHeight midY count i0 g = Ok g' ->
    exists ls,
      g' = g ++ ls /\ List.length ls = count
      /\ Forall (fun l => exists i,
                   i0 <= i < i0 + Z.of_nat count
                   /\ Rasterizer.x1 l = Single.add (Single.of_int i) Single.half
                   /\ Rasterizer.x2 l = Rasterizer.x1 l) ls.
Proof.
  induction count as [|count IH]; intros i0 g g' Hrun.
  - injection Hrun as <-. exists []. rewrite app_nil_r. repeat split. constructor.
  - cbn [Rasterizer.columns] in Hrun.
    destruct (Rasterizer.column samples width numSamples channelHeight midY i0)
      as [l|j] eqn:Hcol; [|discriminate].
    cbn [bind] in Hrun.
    destruct (IH _ _ _ Hrun) as (ls & -> & Hlen & Hall).
    exists (l :: ls). rewrite <- app_assoc. repeat split; [simpl; congruence|].
    constructor.
    + destruct (column_line _ _ _ _ _ _ _ Hcol) as (mn & mx & ->).
      exists i0. repeat split; lia.
    + eapply Forall_impl; [|exact Hall].
      intros l' (i & Hi & Hx). exists i. split; [lia | exact Hx].
Qed.

Lemma channels_shape (width numSamples : Z) (channelHeight : float) :
  forall (rest : list (list float)) (ch0 : Z) (g g' : list Rasterizer.Line),
    Rasterizer.channels rest width numSamples channelHeight ch0 g = Ok g' ->
    exists ls,
      g' = g ++ ls
      /\ List.length ls = (List.length rest * Z.to_nat width)%nat
      /\ Forall (fun l => exists i,
                   0 <= i < width
                   /\ Rasterizer.x1 l = Single.add (Single.of_int i) Single.half
                   /\ Rasterizer.x2 l = Rasterizer.x1 l) ls.
Proof.
  induction rest as [|samples rest IH]; intros ch0 g g' Hrun.
  - injection Hrun as <-. exists []. rewrite app_nil_r. repeat split. constructor.
  - cbn [Rasterizer.channels] in Hrun.
    destruct (Rasterizer.columns samples width numSamples channelHeight
                (Rasterizer.midYOf channelHeight ch0) (Z.to_nat width) 0 g)
      as [g1|j] eqn:Hcols; [|discriminate].
    cbn [bind] in Hrun.
    destruct (columns_shape _ _ _ _ _ _ _ _ _ Hcols) as (ls1 & -> & Hlen1 & Hall1).
    destruct (IH _ _ _ Hrun) as (ls2 & -> & Hlen2 & Hall2).
    exists (ls1 ++ ls2). rewrite <- app_assoc. repeat split.
    + rewrite length_app, Hlen1, Hlen2. simpl. lia.
    + apply Forall_app. split; [|exact Hall2].
      eapply Forall_impl; [|exact Hall1].
      intros l (i & Hi & Hx). exists i. split; [lia | exact Hx].
Qed.

(** Whenever the rasterizer ends, it has drawn one line for every channel
    and column, and every line is vertical and runs through the centre of
    a column of the image: both ends have the abscissa [i + 0.5] for a
    column [i] of [0, width). *)
Theorem rasterize_draws_column_lines
    (width height numSamples : Z) (buffer : Rasterizer.AudioBuffer)
    (drawn : list Rasterizer.Line) :
  Rasterizer.rasterize width height numSamples buffer = Ok drawn ->
  List.length drawn = (List.length buffer * Z.to_nat width)%nat
  /\ Forall (fun l => exists i,
               0 <= i < width
               /\ Rasterizer.x1 l = Single.add (Single.of_int i) Single.half
               /\ Rasterizer.x2 l = Rasterizer.x1 l) drawn.
Proof.
  unfold Rasterizer.rasterize. intros Hrun.
  destruct (channels_shape _ _ _ _ _ _ _ Hrun) as (ls & -> & Hlen & Hall).
  split; assumption.
Qed.

Lemma rasterize_draws_column_lines_witness :
  exists drawn,
    Rasterizer.rasterize 3 2 2 [[Single.half; Single.minus_one]; [Single.one; Single.half]]
    = Ok drawn
    /\ List.length drawn = 6%nat.
Proof.
  eexists. split; [vm_compute; reflexivity|].
  exact (proj1 (rasterize_draws_column_lines 3 2 2
                  [[Single.half; Single.minus_one]; [Single.one; Single.half]] _ eq_refl)).
Defined.

Lemma channels_no_column (width numSamples : Z) (channelHeight : float) :
  width <= 0 ->
  forall (rest : list (list float)) (ch : Z) (g : list Rasterizer.Line),
    Rasterizer.channels rest width numSamples channelHeight ch g = Ok g.
Proof.
  intros Hw. induction rest as [|samples rest IH]; intros ch g; [reflexivity|].
  cbn [Rasterizer.channels].
  replace (Z.to_nat width) with 0%nat by lia.
  cbn [Rasterizer.columns bind]. apply IH.
Qed.

(** With a width of 0 or less, or without any channel, the rasterizer
    draws nothing and reads no sample, whatever the number of samples
    is. *)
Theorem rasterize_nothing_to_draw
    (width height numSamples : Z) (buffer : Rasterizer.AudioBuffer) :
  width <= 0 \/ buffer = [] ->
  Rasterizer.rasterize width height numSamples buffer = Ok [].
Proof.
  intros [Hw| ->]; [|reflexivity].
  unfold Rasterizer.rasterize. apply channels_no_column. exact Hw.
Qed.

Lemma rasterize_nothing_to_draw_witness :
  (0 <= 0 \/ [[Single.half]] = @nil (list float))
  /\ Rasterizer.rasterize 0 300 0 [[Single.half]] = Ok [].
Proof.
  assert (H : 0 <= 0 \/ [[Single.half]] = @nil (list float)) by (left; discriminate).
  split; [exact H|].
  exact (rasterize_nothing_to_draw 0 300 0 [[Single.half]] H).
Defined.

(** *** The ranges of the columns *)

Lemma div_eucl_shift (m : positive) :
  Z.div_eucl (Z.shiftl (Zpos m) 53) (Zpos m) = (2 ^ 53, 0).
Proof.
  rewrite Z.shiftl_mul_pow2 by lia.
  assert (Hq : (Zpos m * 2 ^ 53) / Zpos m = 2 ^ 53)
    by (rewrite Z.mul_comm; apply Z.div_mul; lia).
  assert (Hr : (Zpos m * 2 ^ 53) mod Zpos m = 0)
    by (rewrite Z.mul_comm; apply Z.mod_mul; lia).
  unfold Z.div, Z.modulo in Hq, Hr.
  destruct (Z.div_eucl (Zpos m * 2 ^ 53) (Zpos m)) as [q r]. congruence.
Qed.

(** A finite number divided by itself is 1, without rounding. *)
Lemma Double_div_self (s : bool) (m : positive) (e : Z) :
  Double.div (S754_finite s m e) (S754_finite s m e) = Double.of_int 1.
Proof.
  unfold Double.div, SFdiv, SFdiv_core_binary. cbn [Zdigits2].
  rewrite !Z.sub_diag.
  change (Z.min (fexp Double.prec Double.emax 0) 0) with (-53).
  change (0 - -53) with 53. cbv beta iota zeta.
  rewrite div_eucl_shift.
  replace (new_location (Zpos m) 0) with loc_Exact
    by (unfold new_location; destruct (Z.even (Zpos m)); reflexivity).
  destruct s; reflexivity.
Qed.

Lemma Double_of_int_finite (n : Z) :
  1 <= n < 2 ^ 31 ->
  exists m e, Double.of_int n = S754_finite false m e
              /\ canonical_mantissa 53 1024 m e = true /\ e <= 1024 - 53
              /\ truncate (S754_finite false m e) = Some n.
Proof.
  intros Hn. destruct n as [|p|p]; try lia.
  assert (Hd : Zpos (digits2_pos p) < 53).
  { pose proof (digits2_pos_bound p 31). lia. }
  destruct (Double_of_int_pos p Hd) as (k & Hk & Hof & Hc).
  exists (Pos.iter xO p k), (Zneg k). repeat split; trivial; [lia|].
  apply truncate_shifted.
Qed.

(** The first column starts at sample 0. *)
Lemma columnRange_first (width numSamples : Z) :
  1 <= width < 2 ^ 31 -> 1 <= numSamples < 2 ^ 31 ->
  fst (Rasterizer.columnRange width numSamples 0) = 0.
Proof.
  intros HW HN.
  destruct (Double_of_int_finite width HW) as (mw & ew & Hw & _).
  destruct (Double_of_int_finite numSamples HN) as (mn & en & Hn & _).
  unfold Rasterizer.columnRange. cbn [fst]. rewrite Hw, Hn.
  rewrite int64_to_int_small by lia.
  change (static_cast_int
            (Double.mul (Double.div (Double.of_int 0) (S754_finite false mw ew))
                        (S754_finite false mn en))) with 0.
  unfold Juce.jlimit, less, Less_int. rewrite Z.ltb_irrefl.
  replace (numSamples - 1 <? 0) with false by (symmetry; apply Z.ltb_ge; lia).
  reflexivity.
Qed.

(** The last column ends at sample [numSamples]. *)
Lemma columnRange_last (width numSamples : Z) :
  1 <= width < 2 ^ 31 -> 1 <= numSamples < 2 ^ 31 ->
  snd (Rasterizer.columnRange width numSamples (width - 1)) = numSamples.
Proof.
  intros HW HN.
  destruct (Double_of_int_finite width HW) as (mw & ew & Hw & _).
  destruct (Double_of_int_finite numSamples HN) as (mn & en & Hn & Hc & He & Ht).
  unfold Rasterizer.columnRange. cbn [snd].
  replace (width - 1 + 1) with width by lia.
  rewrite Hw, Hn, Double_div_self, Double_mul_one_l by assumption.
  rewrite int64_to_int_small by lia.
  unfold static_cast_int, static_cast_signed. rewrite Ht.
  replace ((- 2 ^ (32 - 1) <=? numSamples) && (numSamples <? 2 ^ (32 - 1))) with true
    by (symmetry; apply andb_true_iff; split; [apply Z.leb_le | apply Z.ltb_lt]; lia).
  unfold Juce.jlimit, less, Less_int.
  replace (numSamples <? 0) with false by (symmetry; apply Z.ltb_ge; lia).
  rewrite Z.ltb_irrefl. reflexivity.
Qed.

Lemma columnRange_next (width numSamples i : Z) :
  1 <= numSamples < 2 ^ 31 ->
  fst (Rasterizer.columnRange width numSamples (i + 1))
  = Z.min (snd (Rasterizer.columnRange width numSamples i)) (numSamples - 1).
Proof.
  intros HN. unfold Rasterizer.columnRange. cbn [fst snd].
  rewrite int64_to_int_small by lia.
  generalize (static_cast_int
                (Double.mul (Double.div (Double.of_int (i + 1)) (Double.of_int width))
                            (Double.of_int numSamples))).
  intros r. unfold Juce.jlimit, less, Less_int.
  destruct (Z.ltb_spec r 0); [lia|].
  destruct (Z.ltb_spec (numSamples - 1) r), (Z.ltb_spec numSamples r); lia.
Qed.

(** The ranges of neighbouring columns leave no gap and share at most one
    sample: a column starts where the column before it ends, or one sample
    earlier when that column ends with the buffer. *)
Theorem columnRange_contiguous (width numSamples i : Z) :
  1 <= numSamples < 2 ^ 31 ->
  fst (Rasterizer.columnRange width numSamples (i + 1))
  = Z.min (snd (Rasterizer.columnRange width numSamples i)) (numSamples - 1).
Proof. exact (columnRange_next width numSamples i). Qed.

Lemma columnRange_contiguous_witness :
  1 <= 49 < 2 ^ 31
  /\ fst (Rasterizer.columnRange 49 49 (0 + 1))
     = Z.min (snd (Rasterizer.columnRange 49 49 0)) (49 - 1).
Proof.
  assert (H : 1 <= 49 < 2 ^ 31) by (split; [discriminate | reflexivity]).
  split; [exact H|].
  exact (columnRange_contiguous 49 49 0 H).
Defined.

Lemma columnRange_cover_upto (width numSamples : Z) :
  1 <= width < 2 ^ 31 -> 1 <= numSamples < 2 ^ 31 ->
  forall (k : nat) (j : Z),
    0 <= j < snd (Rasterizer.columnRange width numSamples (Z.of_nat k)) ->
    exists i, 0 <= i <= Z.of_nat k
              /\ fst (Rasterizer.columnRange width numSamples i) <= j
                 < snd (Rasterizer.columnRange width numSamples i).
Proof.
  intros HW HN. induction k as [|k IH]; intros j Hj.
  - exists 0. split; [lia|]. change (Z.of_nat 0) with 0 in Hj.
    rewrite (columnRange_first width numSamples HW HN). lia.
  - destruct (Z.lt_ge_cases j (snd (Rasterizer.columnRange width numSamples (Z.of_nat k))))
      as [Hlt|Hge].
    + destruct (IH j) as (i & Hi & Hcov); [lia|]. exists i. split; [lia | exact Hcov].
    + exists (Z.of_nat (S k)). split; [lia|]. split; [|lia].
      replace (Z.of_nat (S k)) with (Z.of_nat k + 1) by lia.
      rewrite (columnRange_next width numSamples (Z.of_nat k) HN). lia.
Qed.

(** No sample of the window is lost: every sample belongs to the range of
    at least one column, although the bounds of the ranges are rounded. *)
Theorem columnRange_covers_every_sample (width numSamples j : Z) :
  1 <= width < 2 ^ 31 ->
  1 <= numSamples < 2 ^ 31 ->
  0 <= j < numSamples ->
  exists i, 0 <= i < width
            /\ fst (Rasterizer.columnRange width numSamples i) <= j
               < snd (Rasterizer.columnRange width numSamples i).
Proof.
  intros HW HN Hj.
  destruct (columnRange_cover_upto width numSamples HW HN (Z.to_nat (width - 1)) j)
    as (i & Hi & Hcov).
  - rewrite Z2Nat.id by lia. rewrite (columnRange_last width numSamples HW HN). exact Hj.
  - exists i. split; [lia | exact Hcov].
Qed.

Lemma columnRange_covers_every_sample_witness :
  1 <= 49 < 2 ^ 31 /\ 0 <= 48 < 49
  /\ exists i, 0 <= i < 49
               /\ fst (Rasterizer.columnRange 49 49 i) <= 48
                  < snd (Rasterizer.columnRange 49 49 i).
Proof.
  assert (H : 1 <= 49 < 2 ^ 31) by (split; [discriminate | reflexivity]).
  assert (Hj : 0 <= 48 < 49) by (split; [discriminate | reflexivity]).
  split; [exact H|]. split; [exact Hj|].
  exact (columnRange_covers_every_sample 49 49 48 H H Hj).
Defined.

(** *** Whole runs *)

Lemma readCommandLine_continue (toDouble : string -> double)
    (argv : list string) (o : Options) :
  readCommandLine toDouble argv = Continue o ->
  inputFile o <> "" /\ outputFile o <> ""
  /\ width o <= maxImageDimension /\ height o <= maxImageDimension.
Proof.
  unfold readCommandLine.
  destruct (Z.of_nat (List.length argv) <? 2); [discriminate|].
  destruct (parseArguments toDouble (tl argv) defaults) as [c m|o']; [discriminate|].
  destruct (String.eqb (inputFile o') "") eqn:Hin; [discriminate|].
  destruct (String.eqb (outputFile o') "") eqn:Hout; [discriminate|].
  cbn [orb].
  destruct (Z.ltb_spec maxImageDimension (width o'));
    destruct (Z.ltb_spec maxImageDimension (height o')); cbn [orb];
    try discriminate.
  intros Heq. injection Heq as <-.
  apply String.eqb_neq in Hin. apply String.eqb_neq in Hout. auto.
Qed.

(** A window without samples makes the run read in front of the buffer:
    when the command line is accepted, the input opens with at least one
    channel, the width is at least 1 and the resolved sample count is 0,
    the run reads [samples[-1]]. *)
Theorem wmain_empty_window_faults
    (env : Environment) (argv : list string) (o : Options)
    (reader : AudioFormatReader) :
  readCommandLine (getDoubleValue env) argv = Continue o ->
  openInput env o = Continue reader ->
  callNumSamples (renderCall o reader) = 0 ->
  1 <= width o ->
  1 <= numChannels reader ->
  wmain env argv = OutOfBounds (-1).
Proof.
  intros Hread Hopen HN Hw Hc.
  destruct (readCommandLine_continue _ _ _ Hread) as (_ & _ & Hmax & _).
  unfold maxImageDimension in Hmax.
  unfold wmain. rewrite Hread, Hopen. cbv zeta. rewrite HN.
  cbn [renderCall callWidth callHeight callBuffer callNumSamples] in *.
  unfold readBuffer.
  destruct (Z.to_nat (numChannels reader)) as [|n] eqn:Hn; [lia|].
  cbn [seq map].
  rewrite rasterize_empty_buffer by lia. reflexivity.
Qed.

Lemma wmain_empty_window_faults_witness :
  wmain (Example.environment (Example.mono []) None [] true) Example.commandLine
  = OutOfBounds (-1).
Proof.
  refine (wmain_empty_window_faults
            (Example.environment (Example.mono []) None [] true)
            Example.commandLine
            {| inputFile := "song.wav"; outputFile := "waveform.png";
               startTime := S754_zero false; endTime := S754_zero false;
               width := 1920; height := 300;
               bgColor := Colours.transparentBlack; fgColor := Colours.white |}
            (Example.mono []) eq_refl eq_refl eq_refl _ _); discriminate.
Defined.

(** A window with samples is always rendered: when the command line is
    accepted, the input opens and the resolved sample count is at least 1
    (and fits an [int]), the rasterizer reads no sample outside the buffer
    and draws one line for every channel and column, and the run goes on
    to the save stage with the image of those lines.  The run then ends
    with exit code 0 and the message that the image was saved when the
    encoder reports success, and with exit code 1 and the message that
    saving failed when it does not. *)
Theorem wmain_renders_nonempty_window
    (env : Environment) (argv : list string) (o : Options)
    (reader : AudioFormatReader) :
  readCommandLine (getDoubleValue env) argv = Continue o ->
  openInput env o = Continue reader ->
  1 <= callNumSamples (renderCall o reader) < 2 ^ 31 ->
  exists drawn run,
    Rasterizer.rasterize (width o) (height o)
      (callNumSamples (renderCall o reader)) (callBuffer (renderCall o reader))
    = Ok drawn
    /\ List.length drawn = (Z.to_nat (numChannels reader) * Z.to_nat (width o))%nat
    /\ wmain env argv = Ok run
    /\ run = saveImage env (outputFile o)
               {| imageWidth := width o; imageHeight := height o;
                  background := bgColor o; foreground := fgColor o;
                  lines := drawn |}
    /\ (if snd (writeImageToStream env
                  {| imageWidth := width o; imageHeight := height o;
                     background := bgColor o; foreground := fgColor o;
                     lines := drawn |})
        then exitCode run = 0 /\ printed run = [Parameters; Saved]
        else exitCode run = 1 /\ printed run = [Parameters; SaveFailed]).
Proof.
  intros Hread Hopen HN.
  destruct (rasterize_lines (callWidth (renderCall o reader))
              (callHeight (renderCall o reader))
              (callNumSamples (renderCall o reader))
              (callBuffer (renderCall o reader)) HN)
    as (drawn & Hrun & _).
  { cbn [renderCall callBuffer callNumSamples] in *.
    apply readBuffer_shape. lia. }
  exists drawn. eexists. split; [exact Hrun|]. split; [|split; [|split; [reflexivity|]]].
  - destruct (channels_shape _ _ _ _ _ _ _ Hrun) as (ls & Heq & Hlen & _).
    cbn [app] in Heq. subst ls. rewrite Hlen.
    cbn [renderCall callBuffer callWidth]. unfold readBuffer.
    rewrite length_map, length_seq. reflexivity.
  - unfold wmain. rewrite Hread, Hopen. cbv zeta. rewrite Hrun. reflexivity.
  - unfold saveImage.
    destruct (writeImageToStream env _) as [written ok]. cbn [snd].
    destruct ok; split; reflexivity.
Qed.

Lemma wmain_renders_nonempty_window_witness :
  exists drawn run,
    Rasterizer.rasterize 2 2 1 [[Single.half]] = Ok drawn
    /\ List.length drawn = 2%nat
    /\ wmain (Example.environment (Example.mono [Single.half]) None [137; 80] true)
             (Example.commandLine ++ ["-w"; "2"; "-h"; "2"])
       = Ok run
    /\ exitCode run = 0
    /\ printed run = [Parameters; Saved].
Proof.
  destruct (wmain_renders_nonempty_window
              (Example.environment (Example.mono [Single.half]) None [137; 80] true)
              (Example.commandLine ++ ["-w"; "2"; "-h"; "2"])
              {| inputFile := "song.wav"; outputFile := "waveform.png";
                 startTime := S754_zero false; endTime := S754_zero false;
                 width := 2; height := 2;
                 bgColor := Colours.transparentBlack; fgColor := Colours.white |}
              (Example.mono [Single.half]) eq_refl eq_refl)
    as (drawn & run & Hdraw & Hlen & Hrun & _ & Hend).
  { vm_compute. split; [discriminate | reflexivity]. }
  exists drawn, run.
  split; [exact Hdraw|]. split; [exact Hlen|]. split; [exact Hrun|].
  exact Hend.
Defined.

(** The result of deleting the old output file is not looked at: when the
    deletion fails and the stream opens, the image is written after the
    old content, and the exit code is that of the encoder alone. *)
Theorem saveImage_appends_when_delete_fails
    (env : Environment) (output : string) (image : Image) (old : list Z) :
  files env output = Some old ->
  deleteFile env output = false ->
  openStream env output = true ->
  filesAfter (saveImage env output image) output
  = Some (old ++ fst (writeImageToStream env image))
  /\ exitCode (saveImage env output image)
     = (if snd (writeImageToStream env image) then 0 else 1).
Proof.
  intros Hold Hdel Hopen. unfold saveImage, existsAsFile.
  rewrite Hold, Hdel, Hopen. cbn [andb]. rewrite Hold.
  destruct (writeImageToStream env image) as [written ok]. cbn [fst snd].
  destruct ok; cbn [filesAfter exitCode]; unfold writeFile;
    rewrite String.eqb_refl; split; reflexivity.
Qed.

Lemma saveImage_appends_when_delete_fails_witness :
  filesAfter
    (saveImage
       {| getDoubleValue := fun _ => S754_zero false;
          files := fun _ => Some [1; 2; 3];
          createReaderFor := fun _ => None;
          deleteFile := fun _ => false;
          openStream := fun _ => true;
          writeImageToStream := fun _ => ([137; 80], true) |}
       "waveform.png"
       {| imageWidth := 1; imageHeight := 1; background := Colours.black;
          foreground := Colours.white; lines := [] |})
    "waveform.png"
  = Some ([1; 2; 3] ++ [137; 80]).
Proof.
  exact (proj1 (saveImage_appends_when_delete_fails
                  {| getDoubleValue := fun _ => S754_zero false;
                     files := fun _ => Some [1; 2; 3];
                     createReaderFor := fun _ => None;
                     deleteFile := fun _ => false;
                     openStream := fun _ => true;
                     writeImageToStream := fun _ => ([137; 80], true) |}
                  "waveform.png"
                  {| imageWidth := 1; imageHeight := 1; background := Colours.black;
                     foreground := Colours.white; lines := [] |}
                  [1; 2; 3] eq_refl eq_refl eq_refl)).
Defined.
